(** * African Nations League: match simulation, knockout resolution,
      bracket progression and the completion e-mail.

    Shallow embedding of [backend/app.py] and [backend/email_service.py].

    Conventions of the embedding.
    - Python [int] is [Z]; Python [float] is idealised as an exact rational
      [Q] (ratings, expected goals, probabilities).
    - The process-wide [random] module is a tape of raw draws read through a
      cursor: every call of [random.random], [random.uniform],
      [random.randint], [random.choice] or [random.gauss] consumes one cell
      and decodes it into its own range, so that quantifying over tapes is
      quantifying over every outcome of the draws.
    - Exceptions and loops: a computation either returns a value with the new
      cursor, raises a Python exception, or runs out of fuel ([Diverge]) in a
      [while] loop. *)

From Stdlib Require Import ZArith QArith Qround List Bool Arith Lia Lqa.
From Stdlib Require Import String Ascii DecimalString DecimalZ DecimalPos.
Import ListNotations.

Local Open Scope string_scope.
Local Open Scope list_scope.
Local Open Scope Z_scope.

(* ------------------------------------------------------------------ *)
(** ** Numbers *)

Definition Qltb (x y : Q) : bool :=
  match (x ?= y)%Q with Lt => true | _ => false end.

Definition Qleb (x y : Q) : bool :=
  match (x ?= y)%Q with Gt => false | _ => true end.

(** Python's [max(a, b)] keeps [a] unless [b] is strictly larger, and
    [min(a, b)] keeps [a] unless [b] is strictly smaller. *)
Definition py_max (a b : Q) : Q := if Qltb a b then b else a.
Definition py_min (a b : Q) : Q := if Qltb b a then b else a.

(** [round(x)] on a float: nearest integer, halves to the even neighbour. *)
Definition py_round (x : Q) : Z :=
  let f := Qfloor x in
  match ((x - inject_Z f) ?= (1 # 2))%Q with
  | Lt => f
  | Gt => f + 1
  | Eq => if Z.even f then f else f + 1
  end.

(** [str(n)] and [int(s)] on integers. *)
Definition py_str (z : Z) : string := NilZero.string_of_int (Z.to_int z).

Definition py_int (s : string) : option Z :=
  option_map Z.of_int (NilZero.int_of_string s).

(** [s.split(c)] for a one-character separator. *)
Fixpoint split_on (c : ascii) (s : string) : list string :=
  match s with
  | EmptyString => [EmptyString]
  | String a s' =>
      if Ascii.eqb a c then EmptyString :: split_on c s'
      else match split_on c s' with
           | h :: t => String a h :: t
           | [] => [String a EmptyString]
           end
  end.

(* ------------------------------------------------------------------ *)
(** ** Computations over the random tape *)

Inductive exn : Type :=
| IndexError | KeyError | AttributeError | TypeError | ValueError
| SMTPException | UnicodeEncodeError.

Inductive outcome (A : Type) : Type :=
| Ret (a : A) (cursor : nat)
| Raise (e : exn)
| Diverge.

Arguments Ret {A} a cursor.
Arguments Raise {A} e.
Arguments Diverge {A}.

Definition Tape : Type := nat -> Q.

Definition M (A : Type) : Type := Tape -> nat -> outcome A.

Definition ret {A} (a : A) : M A := fun _ c => Ret a c.

Definition bind {A B} (m : M A) (k : A -> M B) : M B :=
  fun tp c =>
    match m tp c with
    | Ret a c' => k a tp c'
    | Raise e => Raise e
    | Diverge => Diverge
    end.

Definition raise {A} (e : exn) : M A := fun _ _ => Raise e.
Definition diverge {A} : M A := fun _ _ => Diverge.

Declare Scope sim_scope.
Delimit Scope sim_scope with sim.
Notation "x <- m ;; k" := (bind m (fun x => k))
  (at level 100, m at next level, right associativity) : sim_scope.
Notation "' p <- m ;; k" := (bind m (fun p => k))
  (at level 100, p pattern, m at next level, right associativity) : sim_scope.
Local Open Scope sim_scope.

(** One raw cell of the tape. *)
Definition draw : M Q := fun tp c => Ret (tp c) (S c).

(** [random.random()]: a float in [0, 1). *)
Definition random_random : M Q :=
  q <- draw ;; ret (q - inject_Z (Qfloor q))%Q.

(** [random.uniform(a, b)] is [a + (b - a) * random()]. *)
Definition random_uniform (a b : Q) : M Q :=
  u <- random_random ;; ret (a + (b - a) * u)%Q.

(** [random.randint(a, b)]: an integer of [a .. b], both ends included. *)
Definition random_randint (a b : Z) : M Z :=
  q <- draw ;; ret (a + Qfloor q mod (b - a + 1)).

(** [random.choice(seq)]: [IndexError] on an empty sequence. *)
Definition random_choice {A} (seq : list A) : M A :=
  match seq with
  | [] => raise IndexError
  | x :: _ =>
      q <- draw ;;
      ret (List.nth (Z.to_nat (Qfloor q mod Z.of_nat (List.length seq))) seq x)
  end.

(** [random.gauss(mu, sigma)] with [sigma > 0]: every real is a possible
    sample, the parameters only weigh them, so the sample is the raw cell. *)
Definition random_gauss (mu : Q) : M Q := draw.

(** [for _ in range(n): acc = body(acc)]. *)
Fixpoint for_range {A} (n : nat) (body : A -> M A) (acc : A) : M A :=
  match n with
  | O => ret acc
  | S n' => acc' <- body acc ;; for_range n' body acc'
  end.

(* ------------------------------------------------------------------ *)
(** ** Data model *)

Inductive Position : Type := GK | DF | MD | AT.

Definition Position_eqb (a b : Position) : bool :=
  match a, b with
  | GK, GK | DF, DF | MD, MD | AT, AT => true
  | _, _ => false
  end.

Record Player : Type := mkPlayer {
  p_id : string;
  p_name : string;
  natural_position : Position;
  jersey_number : Z;
  is_captain : bool
}.

Record Team : Type := mkTeam {
  country : string;
  rating : Q;
  squad : list Player;
  email : option string
}.

Definition Player_eqb (a b : Player) : bool :=
  String.eqb (p_id a) (p_id b) && String.eqb (p_name a) (p_name b)
  && Position_eqb (natural_position a) (natural_position b)
  && Z.eqb (jersey_number a) (jersey_number b)
  && Bool.eqb (is_captain a) (is_captain b).

Fixpoint list_eqb {A} (eqb : A -> A -> bool) (l1 l2 : list A) : bool :=
  match l1, l2 with
  | [], [] => true
  | x :: l1', y :: l2' => eqb x y && list_eqb eqb l1' l2'
  | _, _ => false
  end.

Definition option_eqb {A} (eqb : A -> A -> bool) (a b : option A) : bool :=
  match a, b with
  | None, None => true
  | Some x, Some y => eqb x y
  | _, _ => false
  end.

(** [team_a == team_b] on the team dictionaries: equality of contents. *)
Definition Team_eqb (a b : Team) : bool :=
  String.eqb (country a) (country b) && Qeq_bool (rating a) (rating b)
  && list_eqb Player_eqb (squad a) (squad b)
  && option_eqb String.eqb (email a) (email b).

Inductive EventType : Type := goal | save | chance | foul | penalties.

Record MatchEvent : Type := mkEvent {
  ev_minute : Z;
  ev_type : EventType;
  ev_team : string;
  ev_player : string
}.

Record GoalScorer : Type := mkScorer {
  gs_minute : Z;
  gs_player : string;
  gs_team : string
}.

Record MatchResult : Type := mkResult {
  team1 : string;
  team2 : string;
  score : string;
  team1_goals : Z;
  team2_goals : Z;
  winner : string;
  events : list MatchEvent;
  goal_scorers : list GoalScorer;
  decided_by : option string;
  penalty_score : option string;
  extra_time : bool
}.

(* ------------------------------------------------------------------ *)
(** ** [poisson_approx] and the goal-count model (app.py, lines 92-112) *)

Definition poisson_approx (lambda_param : Q) : M Z :=
  if Qleb lambda_param 0 then ret 0
  else
    sample <- random_gauss lambda_param ;;
    ret (Z.max 0 (py_round sample)).

(** [max(0.5, 1.5 +/- rating_diff + random.uniform(-1, 1))]. *)
Definition base_goals (signed_rating_diff : Q) : M Q :=
  u <- random_uniform (-1) 1 ;;
  ret (py_max (1 # 2) ((3 # 2) + signed_rating_diff + u)%Q).

(** [min(7, poisson_approx(base))]. *)
Definition regulation_goals (base : Q) : M Z :=
  g <- poisson_approx base ;; ret (Z.min 7 g).

(** [min(3, poisson_approx(max(0.2, base * 0.3)))]. *)
Definition extra_time_goals (base : Q) : M Z :=
  g <- poisson_approx (py_max (1 # 5) (base * (3 # 10))%Q) ;; ret (Z.min 3 g).

(* ------------------------------------------------------------------ *)
(** ** The detailed timeline (app.py, lines 117-177) *)

Definition is_AT_or_MD (p : Player) : bool :=
  match natural_position p with
  | AT | MD => true
  | _ => false
  end.

Definition is_GK (p : Player) : bool := Position_eqb (natural_position p) GK.

(** The dictionary [goals_scored], read and written by country. *)
Definition Tally : Type := string -> Z.

Definition tally_set (t : Tally) (k : string) (v : Z) : Tally :=
  fun k' => if String.eqb k' k then v else t k'.

Record Timeline : Type := mkTimeline {
  current_minute : Z;
  goals_scored : Tally;
  match_events : list MatchEvent;
  scorers : list GoalScorer
}.

Definition at_minute (st : Timeline) (m : Z) : Timeline :=
  mkTimeline m (goals_scored st) (match_events st) (scorers st).

Definition add_event (st : Timeline) (m : Z) (e : MatchEvent) : Timeline :=
  mkTimeline m (goals_scored st) (match_events st ++ [e]) (scorers st).

Definition add_goal (st : Timeline) (m : Z) (c who : string) : Timeline :=
  mkTimeline m
    (tally_set (goals_scored st) c (goals_scored st c + 1))
    (match_events st ++ [mkEvent m goal c who])
    (scorers st ++ [mkScorer m who c]).

Fixpoint timeline_loop (fuel : nat) (team1_data team2_data : Team)
    (team1_goals team2_goals : Z) (st : Timeline) : M Timeline :=
  match fuel with
  | O => diverge
  | S fuel' =>
      if (current_minute st <? 90)
         && ((goals_scored st (country team1_data) <? team1_goals)
             || (goals_scored st (country team2_data) <? team2_goals))
      then
        step <- random_randint 2 10 ;;
        let minute := current_minute st + step in
        if minute >? 90 then ret (at_minute st 90)
        else
          attacking_team <- random_choice [team1_data; team2_data] ;;
          let defending_team :=
            if Team_eqb attacking_team team1_data then team2_data
            else team1_data in
          event_roll <- random_random ;;
          if Qltb event_roll (1 # 10)
             && (goals_scored st (country attacking_team)
                 <? (if Team_eqb attacking_team team1_data
                     then team1_goals else team2_goals))
          then
            scorer <- random_choice (filter is_AT_or_MD (squad attacking_team)) ;;
            timeline_loop fuel' team1_data team2_data team1_goals team2_goals
              (add_goal st minute (country attacking_team) (p_name scorer))
          else if Qltb event_roll (2 # 10) then
            goalkeeper <- random_choice (filter is_GK (squad defending_team)) ;;
            timeline_loop fuel' team1_data team2_data team1_goals team2_goals
              (add_event st minute
                 (mkEvent minute save (country defending_team)
                    (p_name goalkeeper)))
          else if Qltb event_roll (3 # 10) then
            attacker <- random_choice (filter is_AT_or_MD (squad attacking_team)) ;;
            timeline_loop fuel' team1_data team2_data team1_goals team2_goals
              (add_event st minute
                 (mkEvent minute chance (country attacking_team)
                    (p_name attacker)))
          else if Qltb event_roll (4 # 10) then
            player <- random_choice (squad attacking_team) ;;
            timeline_loop fuel' team1_data team2_data team1_goals team2_goals
              (add_event st minute
                 (mkEvent minute foul (country attacking_team)
                    (p_name player)))
          else
            timeline_loop fuel' team1_data team2_data team1_goals team2_goals
              (at_minute st minute)
      else ret st
  end.

(** [match_events.sort(key=lambda x: x['minute'])]: a stable sort.  Every
    event is put in front of the first later event whose minute is not
    smaller than its own. *)
Fixpoint insert_event (e : MatchEvent) (l : list MatchEvent) : list MatchEvent :=
  match l with
  | [] => [e]
  | x :: l' =>
      if ev_minute e <=? ev_minute x then e :: l else x :: insert_event e l'
  end.

Definition sort_events (l : list MatchEvent) : list MatchEvent :=
  fold_right insert_event [] l.

(* ------------------------------------------------------------------ *)
(** ** Goal scorers outside the timeline (app.py, lines 181-190, 203-214) *)

(** One pass of [for _ in range(goals)] of the non-detailed branch: the
    scorer is drawn first, then a minute of 5..85. *)
Definition basic_scorer (t : Team) (gs : list GoalScorer) : M (list GoalScorer) :=
  scorer <- random_choice (filter is_AT_or_MD (squad t)) ;;
  minute <- random_randint 5 85 ;;
  ret (gs ++ [mkScorer minute (p_name scorer) (country t)]).

(** One pass of the extra-time loop of the detailed branch: the minute of
    91..120 is drawn first, then the scorer; both lists grow. *)
Definition extra_time_goal (t : Team)
    (acc : list MatchEvent * list GoalScorer)
  : M (list MatchEvent * list GoalScorer) :=
  minute <- random_randint 91 120 ;;
  scorer <- random_choice (filter is_AT_or_MD (squad t)) ;;
  ret (fst acc ++ [mkEvent minute goal (country t) (p_name scorer)],
       snd acc ++ [mkScorer minute (p_name scorer) (country t)]).

(* ------------------------------------------------------------------ *)
(** ** The penalty shootout (app.py, lines 224-244) *)

(** [max(0.6, min(0.9, 0.75 + diff))]. *)
Definition penalty_probability (signed_diff : Q) : Q :=
  py_max (6 # 10) (py_min (9 # 10) ((75 # 100) + signed_diff)%Q).

Record Shootout : Type := mkShootout {
  t1 : Z;
  t2 : Z;
  shots : Z
}.

(** One attempt per side: team 1 shoots, then team 2. *)
Definition penalty_pair (p1 p2 : Q) (s : Shootout) : M Shootout :=
  r1 <- random_random ;;
  let t1' := if Qltb r1 p1 then t1 s + 1 else t1 s in
  r2 <- random_random ;;
  let t2' := if Qltb r2 p2 then t2 s + 1 else t2 s in
  ret (mkShootout t1' t2' (shots s)).

(** [for i in range(5): shots += 1; ...]. *)
Definition initial_five (p1 p2 : Q) : M Shootout :=
  for_range 5
    (fun s => penalty_pair p1 p2 (mkShootout (t1 s) (t2 s) (shots s + 1)))
    (mkShootout 0 0 0).

(** [while t1 == t2: ...]. *)
Fixpoint sudden_death (fuel : nat) (p1 p2 : Q) (s : Shootout) : M Shootout :=
  match fuel with
  | O => diverge
  | S fuel' =>
      if t1 s =? t2 s then
        s' <- penalty_pair p1 p2 s ;; sudden_death fuel' p1 p2 s'
      else ret s
  end.

Definition penalty_shootout (fuel : nat) (rating1 rating2 : Q) : M Shootout :=
  let diff := ((rating1 - rating2) / 100)%Q in
  let p1 := penalty_probability diff in
  let p2 := penalty_probability (- diff)%Q in
  s <- initial_five p1 p2 ;;
  sudden_death fuel p1 p2 s.

(** [f"{t1}-{t2}"]. *)
Definition dash (a b : Z) : string :=
  (py_str a ++ "-" ++ py_str b)%string.

(* ------------------------------------------------------------------ *)
(** ** The winner expression (app.py, lines 271-276) *)

Definition item {A} (l : list A) (i : nat) : M A :=
  match nth_error l i with
  | Some x => ret x
  | None => raise IndexError
  end.

Definition int_of (s : string) : M Z :=
  match py_int s with
  | Some z => ret z
  | None => raise ValueError
  end.

(** [penalty_score and int(penalty_score.split('-')[0])
                      > int(penalty_score.split('-')[1])]. *)
Definition penalties_favour_team1 (penalty_score : option string) : M bool :=
  match penalty_score with
  | None => ret false
  | Some EmptyString => ret false
  | Some s =>
      a <- (x <- item (split_on "-" s) 0 ;; int_of x) ;;
      b <- (x <- item (split_on "-" s) 1 ;; int_of x) ;;
      ret (a >? b)
  end.

Definition pick_winner (c1 c2 : string) (team1_goals team2_goals : Z)
    (knockout : bool) (penalty_score : option string) : M string :=
  if team1_goals >? team2_goals then ret c1
  else if team2_goals >? team1_goals then ret c2
  else if knockout then
    b <- penalties_favour_team1 penalty_score ;;
    ret (if b then c1 else c2)
  else ret "Draw".

(* ------------------------------------------------------------------ *)
(** ** Knockout resolution (app.py, lines 192-248) *)

Record Resolution : Type := mkResolution {
  r_team1_goals : Z;
  r_team2_goals : Z;
  r_events : list MatchEvent;
  r_scorers : list GoalScorer;
  r_decided_by : option string;
  r_penalty_score : option string;
  r_extra_time : bool
}.

(** The body of [if knockout and team1_goals == team2_goals:]. *)
Definition knockout_resolution (fuel : nat) (team1_data team2_data : Team)
    (detailed : bool) (base_goals_team1 base_goals_team2 : Q)
    (team1_goals team2_goals : Z)
    (match_events : list MatchEvent) (goal_scorers : list GoalScorer)
  : M Resolution :=
  extra1 <- extra_time_goals base_goals_team1 ;;
  extra2 <- extra_time_goals base_goals_team2 ;;
  lists <-
    (if detailed then
       acc <- for_range (Z.to_nat extra1) (extra_time_goal team1_data)
                (match_events, goal_scorers) ;;
       for_range (Z.to_nat extra2) (extra_time_goal team2_data) acc
     else ret (match_events, goal_scorers)) ;;
  let team1_goals := team1_goals + extra1 in
  let team2_goals := team2_goals + extra2 in
  if negb (team1_goals =? team2_goals) then
    ret (mkResolution team1_goals team2_goals (fst lists) (snd lists)
           (Some "extra_time") None true)
  else
    s <- penalty_shootout fuel (rating team1_data) (rating team2_data) ;;
    let penalty_score := dash (t1 s) (t2 s) in
    let match_events :=
      if detailed
      then fst lists
           ++ [mkEvent 120 penalties "Both" ("Shootout " ++ penalty_score)%string]
      else fst lists in
    ret (mkResolution team1_goals team2_goals match_events (snd lists)
           (Some "penalties") (Some penalty_score) true).

(* ------------------------------------------------------------------ *)
(** ** [simulate_match] (app.py, lines 103-285)

    The fields [commentary], [match_preview] and [simulated_at] of the
    returned dictionary are left out: they come from the text generator and
    the clock, are computed inside a [try]/[except Exception] after every
    other field is settled, and read the event list without changing it. *)

Definition simulate_match (fuel : nat) (team1_data team2_data : Team)
    (detailed knockout : bool) : M MatchResult :=
  let team1_rating := rating team1_data in
  let team2_rating := rating team2_data in
  let rating_diff := ((team1_rating - team2_rating) / 20)%Q in
  base_goals_team1 <- base_goals rating_diff ;;
  base_goals_team2 <- base_goals (- rating_diff)%Q ;;
  team1_goals <- regulation_goals base_goals_team1 ;;
  team2_goals <- regulation_goals base_goals_team2 ;;
  tl <-
    (if detailed then
       timeline_loop fuel team1_data team2_data team1_goals team2_goals
         (mkTimeline 0 (fun _ => 0) [] [])
     else ret (mkTimeline 0 (fun _ => 0) [] [])) ;;
  let match_events := sort_events (match_events tl) in
  goal_scorers <-
    (if negb detailed then
       gs <- for_range (Z.to_nat team1_goals) (basic_scorer team1_data)
               (scorers tl) ;;
       for_range (Z.to_nat team2_goals) (basic_scorer team2_data) gs
     else ret (scorers tl)) ;;
  res <-
    (if knockout && (team1_goals =? team2_goals) then
       knockout_resolution fuel team1_data team2_data detailed
         base_goals_team1 base_goals_team2 team1_goals team2_goals
         match_events goal_scorers
     else
       ret (mkResolution team1_goals team2_goals match_events goal_scorers
              None None false)) ;;
  winner <-
    pick_winner (country team1_data) (country team2_data)
      (r_team1_goals res) (r_team2_goals res) knockout (r_penalty_score res) ;;
  ret (mkResult (country team1_data) (country team2_data)
         (dash (r_team1_goals res) (r_team2_goals res))
         (r_team1_goals res) (r_team2_goals res)
         winner
         (r_events res) (r_scorers res)
         (r_decided_by res) (r_penalty_score res) (r_extra_time res)).

(* ------------------------------------------------------------------ *)
(** ** The document store and the bracket (app.py, lines 320-397, 715-736)

    The store holds the two collections the bracket code reads: [teams] and
    [matches], each listed in the order in which [stream()] yields its
    documents; a document added by [add] is yielded last.  Every call of
    [datetime.now().isoformat()] reads the next value of a clock, given as a
    function of the number of earlier reads. *)

Record Match : Type := mkMatch {
  m_round : string;
  m_team1 : Team;
  m_team2 : Team;
  m_status : string;
  m_created_at : string;
  m_result : option MatchResult
}.

Record Store : Type := mkStore {
  teams : list Team;
  matches : list Match;
  clock_reads : nat
}.

Definition Clock : Type := nat -> string.

(** [db.collection('matches').add({... 'status': 'scheduled',
    'created_at': datetime.now().isoformat()})]. *)
Definition add_fixture (clock : Clock) (round : string) (a b : Team)
    (db : Store) : Store :=
  mkStore (teams db)
    (matches db
     ++ [mkMatch round a b "scheduled" (clock (clock_reads db)) None])
    (S (clock_reads db)).

(** The JSON body and the HTTP status of a response. *)
Record Response : Type := mkResponse {
  success : bool;
  error : option string;
  http_status : Z
}.

(** [for i in range(0, 8, 2): ... teams[i], teams[i+1] ...]: the store as
    the loop leaves it, and the exception that stopped it, if any. *)
Fixpoint pair_up (clock : Clock) (n : nat) (ts : list Team) (db : Store)
  : option exn * Store :=
  match n with
  | O => (None, db)
  | S n' =>
      match ts with
      | a :: b :: ts' =>
          pair_up clock n' ts' (add_fixture clock "quarterfinal" a b db)
      | _ => (Some IndexError, db)
      end
  end.

Definition api_create_tournament (clock : Clock) (db : Store)
  : Response * Store :=
  let teams_loaded := teams db in
  if (Z.of_nat (List.length teams_loaded) <? 8) then
    (mkResponse false (Some "Need exactly 8 teams to create tournament") 400, db)
  else
    let emptied := mkStore (teams db) [] (clock_reads db) in
    match pair_up clock 4 teams_loaded emptied with
    | (None, db') => (mkResponse true None 200, db')
    | (Some _, db') => (mkResponse false (Some "list index out of range") 500, db')
    end.

(** [_get_team_by_country]: the first team document of that country. *)
Definition get_team_by_country (db : Store) (c : option string) : option Team :=
  match c with
  | None => None
  | Some EmptyString => None
  | Some name => find (fun t => String.eqb (country t) name) (teams db)
  end.

(** [(m.get('result') or {}).get('winner')]. *)
Definition recorded_winner (m : Match) : option string :=
  match m_result m with
  | None => None
  | Some r => Some (winner r)
  end.

(** [len(ms) > 0 and all(m.get('status') == 'completed' for m in ms)]. *)
Definition all_completed (ms : list Match) : bool :=
  (0 <? Z.of_nat (List.length ms))
  && forallb (fun m => String.eqb (m_status m) "completed") ms.

(** [sorted(ms, key=lambda m: m.get('created_at', ''))]: a stable sort on
    the timestamp strings. *)
Fixpoint insert_match (m : Match) (l : list Match) : list Match :=
  match l with
  | [] => [m]
  | x :: l' =>
      if String.leb (m_created_at m) (m_created_at x) then m :: l
      else x :: insert_match m l'
  end.

Definition sort_by_created_at (l : list Match) : list Match :=
  fold_right insert_match [] l.

Definition in_round (r : string) (l : list Match) : list Match :=
  filter (fun m => String.eqb (m_round m) r) l.

(** The loop that looks every winner up and keeps the teams it finds. *)
Definition winners_of (db : Store) (ms : list Match) : list Team :=
  flat_map (fun m => match get_team_by_country db (recorded_winner m) with
                     | Some team => [team]
                     | None => []
                     end) ms.

Definition progress_tournament_if_ready (clock : Clock) (db : Store) : Store :=
  let all_matches := matches db in
  let quarterfinals := in_round "quarterfinal" all_matches in
  let semifinals := in_round "semifinal" all_matches in
  let finals := in_round "final" all_matches in
  let db1 :=
    if all_completed quarterfinals && (Z.of_nat (List.length semifinals) =? 0)
    then
      match winners_of db (sort_by_created_at quarterfinals) with
      | w0 :: w1 :: w2 :: w3 :: _ =>
          add_fixture clock "semifinal" w2 w3
            (add_fixture clock "semifinal" w0 w1 db)
      | _ => db
      end
    else db in
  if all_completed semifinals && (Z.of_nat (List.length finals) =? 0)
  then
    match winners_of db (sort_by_created_at semifinals) with
    | w0 :: w1 :: _ => add_fixture clock "final" w0 w1 db1
    | _ => db1
    end
  else db1.

(* ------------------------------------------------------------------ *)
(** ** The completion e-mail (email_service.py)

    The function receives plain dictionaries, and what it does depends on
    the run-time type of what it finds in them, so its arguments are Python
    values. *)

#[warnings="-register-all"]
Inductive pyval : Type :=
| PNone
| PBool (b : bool)
| PInt (z : Z)
| PStr (s : string)
| PList (l : list pyval)
| PDict (d : list (string * pyval)).

(** Computations that may raise. *)
Definition E (A : Type) : Type := (exn + A)%type.

Definition ebind {A B} (m : E A) (k : A -> E B) : E B :=
  match m with
  | inl e => inl e
  | inr a => k a
  end.

Declare Scope exn_scope.
Delimit Scope exn_scope with exn.
Notation "x <- m ;; k" := (ebind m (fun x => k))
  (at level 100, m at next level, right associativity) : exn_scope.

Fixpoint lookup (k : string) (d : list (string * pyval)) : option pyval :=
  match d with
  | [] => None
  | (k', v) :: d' => if String.eqb k' k then Some v else lookup k d'
  end.

(** [v.get(key, default)]: only a dictionary has the method. *)
Definition py_get (v : pyval) (key : string) (default : pyval) : E pyval :=
  match v with
  | PDict d => inr (match lookup key d with Some x => x | None => default end)
  | _ => inl AttributeError
  end.

(** Truth value of [if v:] and [not v]. *)
Definition truthy (v : pyval) : bool :=
  match v with
  | PNone => false
  | PBool b => b
  | PInt z => negb (z =? 0)
  | PStr s => negb (String.eqb s "")
  | PList l => negb (Nat.eqb (List.length l) 0)
  | PDict d => negb (Nat.eqb (List.length d) 0)
  end.

Definition join (sep : string) (l : list string) : string :=
  match l with
  | [] => ""
  | x :: l' => fold_left (fun acc y => (acc ++ sep ++ y)%string) l' x
  end.

(** [repr(v)], as it shows inside a printed list or dictionary (quotes in
    strings are not escaped). *)
Fixpoint py_repr (v : pyval) : string :=
  match v with
  | PNone => "None"
  | PBool b => if b then "True" else "False"
  | PInt z => py_str z
  | PStr s => ("'" ++ s ++ "'")%string
  | PList l => ("[" ++ join ", " (map py_repr l) ++ "]")%string
  | PDict d =>
      ("{" ++ join ", " (map (fun kv => "'" ++ fst kv ++ "': " ++ py_repr (snd kv)) d)
       ++ "}")%string
  end.

(** [f"{v}"]. *)
Definition py_format (v : pyval) : string :=
  match v with
  | PStr s => s
  | _ => py_repr v
  end.

Definition upper_ascii (a : ascii) : ascii :=
  let n := nat_of_ascii a in
  if (Nat.leb 97 n && Nat.leb n 122)%bool then ascii_of_nat (n - 32) else a.

Definition lower_ascii (a : ascii) : ascii :=
  let n := nat_of_ascii a in
  if (Nat.leb 65 n && Nat.leb n 90)%bool then ascii_of_nat (n + 32) else a.

Fixpoint lower_string (s : string) : string :=
  match s with
  | EmptyString => EmptyString
  | String a s' => String (lower_ascii a) (lower_string s')
  end.

(** [v.capitalize()]: a string method. *)
Definition py_capitalize (v : pyval) : E string :=
  match v with
  | PStr EmptyString => inr EmptyString
  | PStr (String a s') => inr (String (upper_ascii a) (lower_string s'))
  | _ => inl AttributeError
  end.

Fixpoint chars (s : string) : list pyval :=
  match s with
  | EmptyString => []
  | String a s' => PStr (String a EmptyString) :: chars s'
  end.

(** [for x in v]. *)
Definition py_iter (v : pyval) : E (list pyval) :=
  match v with
  | PList l => inr l
  | PStr s => inr (chars s)
  | PDict d => inr (map (fun kv => PStr (fst kv)) d)
  | _ => inl TypeError
  end.

(** [', '.join(seq)]: every item has to be a string. *)
Fixpoint all_strings (l : list pyval) : E (list string) :=
  match l with
  | [] => inr []
  | PStr s :: l' =>
      match all_strings l' with
      | inr r => inr (s :: r)
      | inl e => inl e
      end
  | _ :: _ => inl TypeError
  end.

Record Environment : Type := mkEnvironment {
  EMAIL_USER : option string;
  EMAIL_PASSWORD : option string
}.

Record Message : Type := mkMessage {
  msg_from : string;
  msg_to : string;
  msg_subject : string;
  msg_body : string
}.

(** The SMTP session: [None] when the message went out, the exception
    otherwise. *)
Definition Smtp : Type := string -> string -> Message -> option exn.

(** What the function writes to the console.  Each of its four [print]
    calls starts with a literal outside ASCII (a warning sign at lines 27
    and 53, a check mark at line 100, a cross mark at line 104); the last
    two go on with the scoreline and with the text of the exception
    caught. *)
Inductive Line : Type :=
| NotConfigured
| NoFederationEmails
| Sent (scoreline : string)
| Failed (e : exn).

(** The literal that opens the line, as its UTF-8 bytes. *)
Definition opening (l : Line) : string :=
  match l with
  | NotConfigured | NoFederationEmails =>
      String (ascii_of_nat 226) (String (ascii_of_nat 154)
        (String (ascii_of_nat 160) (String (ascii_of_nat 239)
          (String (ascii_of_nat 184) (String (ascii_of_nat 143) EmptyString)))))
  | Sent _ =>
      String (ascii_of_nat 226) (String (ascii_of_nat 156)
        (String (ascii_of_nat 133) EmptyString))
  | Failed _ =>
      String (ascii_of_nat 226) (String (ascii_of_nat 157)
        (String (ascii_of_nat 140) EmptyString))
  end.

(** The standard output: [None] when the line was written, the exception
    that [print] raised otherwise. *)
Definition Console : Type := Line -> option exn.

(** [print(...)]. *)
Definition print (console : Console) (l : Line) : E unit :=
  match console l with
  | Some e => inl e
  | None => inr tt
  end.

Definition unset (v : option string) : bool :=
  match v with
  | None => true
  | Some s => String.eqb s ""
  end.

Definition nl : string := String (ascii_of_nat 10) EmptyString.

(** The bullet of the scorer list, as its three UTF-8 bytes. *)
Definition bullet : string :=
  String (ascii_of_nat 226)
    (String (ascii_of_nat 128) (String (ascii_of_nat 162) EmptyString)).

(** One line of the scorer list. *)
Definition scorer_line (scorer : pyval) : E string :=
  (player <- py_get scorer "player" (PStr "Unknown") ;;
   team <- py_get scorer "team" (PStr "Unknown") ;;
   minute <- py_get scorer "minute" (PStr "?") ;;
   inr ("  " ++ bullet ++ " " ++ py_format player ++ " (" ++ py_format team ++ ") - "
        ++ py_format minute ++ "'" ++ nl)%string)%exn.

Fixpoint scorer_lines (l : list pyval) (acc : string) : E string :=
  match l with
  | [] => inr acc
  | scorer :: l' =>
      (line <- scorer_line scorer ;; scorer_lines l' (acc ++ line)%string)%exn
  end.

(** The body of the [try] block. *)
Definition send_match_completion_email_body (env : Environment)
    (console : Console) (smtp : Smtp) (match_data result : pyval) : E bool :=
  (if unset (EMAIL_USER env) || unset (EMAIL_PASSWORD env) then
     _ <- print console NotConfigured ;; inr false
   else
     let sender_email := match EMAIL_USER env with Some s => s | None => "" end in
     let sender_password :=
       match EMAIL_PASSWORD env with Some s => s | None => "" end in
     team1 <- py_get match_data "team1" (PDict []) ;;
     team2 <- py_get match_data "team2" (PDict []) ;;
     round_raw <- py_get match_data "round" (PStr "Match") ;;
     round_name <- py_capitalize round_raw ;;
     team1_name <- py_get team1 "country" (PStr "Team 1") ;;
     team2_name <- py_get team2 "country" (PStr "Team 2") ;;
     team1_goals <- py_get result "team1_goals" (PInt 0) ;;
     team2_goals <- py_get result "team2_goals" (PInt 0) ;;
     winner <- py_get result "winner" (PStr "TBD") ;;
     goal_scorers <- py_get result "goal_scorers" (PList []) ;;
     team1_email <- py_get team1 "email" PNone ;;
     team2_email <- py_get team2 "email" PNone ;;
     let federation_emails :=
       (if truthy team1_email then [team1_email] else [])
       ++ (if truthy team2_email then [team2_email] else []) in
     match federation_emails with
     | [] => _ <- print console NoFederationEmails ;; inr false
     | _ =>
         let scoreline :=
           (py_format team1_name ++ " " ++ py_format team1_goals ++ " - "
            ++ py_format team2_goals ++ " " ++ py_format team2_name)%string in
         scorers_text <-
           (if truthy goal_scorers then
              items <- py_iter goal_scorers ;;
              scorer_lines items (nl ++ nl ++ "Goal Scorers:" ++ nl)%string
            else inr "") ;;
         decided_by <- py_get result "decided_by" PNone ;;
         penalty_info <-
           (match decided_by with
            | PStr "penalties" =>
                penalty_score <- py_get result "penalty_score" (PDict []) ;;
                a <- py_get penalty_score "team1" (PInt 0) ;;
                b <- py_get penalty_score "team2" (PInt 0) ;;
                inr (nl ++ nl ++ "Decided by penalties: " ++ py_format a
                     ++ " - " ++ py_format b)%string
            | _ => inr ""
            end) ;;
         let subject :=
           ("Match Result: " ++ py_format team1_name ++ " vs "
            ++ py_format team2_name ++ " - " ++ round_name)%string in
         let body :=
           (nl ++ "African Nations League - Match Completion Notification" ++ nl
            ++ nl ++ "Round: " ++ round_name ++ nl
            ++ "Match: " ++ scoreline ++ nl
            ++ "Winner: " ++ py_format winner ++ nl
            ++ penalty_info ++ nl ++ scorers_text ++ nl ++ nl
            ++ "This is an automated notification from the African Nations League system."
            ++ nl)%string in
         recipients <- all_strings federation_emails ;;
         match smtp sender_email sender_password
                 (mkMessage sender_email (join ", " recipients) subject body)
         with
         | Some e => inl e
         | None => _ <- print console (Sent scoreline) ;; inr true
         end
     end)%exn.

(** [try: ... except Exception as e: print(...); return False].  The
    handler's own [print] is outside the [try]: what it raises leaves the
    function. *)
Definition send_match_completion_email (env : Environment) (console : Console)
    (smtp : Smtp) (match_data result : pyval) : E bool :=
  match send_match_completion_email_body env console smtp match_data result with
  | inr sent => inr sent
  | inl e => (_ <- print console (Failed e) ;; inr false)%exn
  end.

(** The dictionary that [simulate_match] returns, as [simulate_match_route]
    and [play_match] hand it to the e-mail service (without the keys
    [commentary], [match_preview] and [simulated_at], which the service does
    not read). *)
Definition event_type_name (k : EventType) : string :=
  match k with
  | goal => "goal"
  | save => "save"
  | chance => "chance"
  | foul => "foul"
  | penalties => "penalties"
  end.

Definition event_dict (e : MatchEvent) : pyval :=
  PDict [("minute", PInt (ev_minute e)); ("type", PStr (event_type_name (ev_type e)));
         ("team", PStr (ev_team e)); ("player", PStr (ev_player e))].

Definition scorer_dict (g : GoalScorer) : pyval :=
  PDict [("minute", PInt (gs_minute g)); ("player", PStr (gs_player g));
         ("team", PStr (gs_team g))].

Definition optional_string (o : option string) : pyval :=
  match o with
  | Some s => PStr s
  | None => PNone
  end.

Definition result_dict (r : MatchResult) : pyval :=
  PDict [("team1", PStr (team1 r)); ("team2", PStr (team2 r));
         ("score", PStr (score r));
         ("team1_goals", PInt (team1_goals r));
         ("team2_goals", PInt (team2_goals r));
         ("winner", PStr (winner r));
         ("events", PList (map event_dict (events r)));
         ("goal_scorers", PList (map scorer_dict (goal_scorers r)));
         ("decided_by", optional_string (decided_by r));
         ("penalty_score", optional_string (penalty_score r));
         ("extra_time", PBool (extra_time r))].

(* ------------------------------------------------------------------ *)
(** ** Sample inputs *)

Definition sample_squad (tag : string) : list Player :=
  [ mkPlayer "player_1" (tag ++ " keeper") GK 1 false;
    mkPlayer "player_2" (tag ++ " back") DF 2 false;
    mkPlayer "player_3" (tag ++ " mid") MD 3 true;
    mkPlayer "player_4" (tag ++ " striker") AT 4 false ].

Definition sample_team (name : string) (r : Q) : Team :=
  mkTeam name r (sample_squad name) (Some (name ++ "@example.org")%string).

Definition ghana : Team := sample_team "Ghana" 80.
Definition mali : Team := sample_team "Mali" 80.

(** A tape that holds the listed cells and zeros after them. *)
Definition tape_of (l : list Q) : Tape := fun n => List.nth n l 0%Q.

(** Level at 0-0 after 90 minutes; extra time 2-0, the two goals drawn at
    minutes 110 and 95. *)
Definition tape_extra_time : Tape :=
  tape_of [0; 0; 0; 0; 2; 0; 19; 0; 4; 0]%Q.

(** Targets 1-0; nine phases of ten minutes, none of them with an event. *)
Definition tape_quiet_match : Tape :=
  fun n =>
    if (n <? 4)%nat then List.nth n [0; 0; 1; 0]%Q 0%Q
    else match ((n - 4) mod 3)%nat with
         | O => 8%Q
         | S O => 0%Q
         | _ => (1 # 2)%Q
         end.

(** 1-0 in regulation. *)
Definition tape_one_nil : Tape := tape_of [0; 0; 1; 0; 0; 0]%Q.

(** 1-1 in regulation. *)
Definition tape_one_all : Tape := tape_of [0; 0; 1; 1; 0; 0; 0; 0]%Q.

(** 0-0 after extra time; 3-2 after five kicks each. *)
Definition tape_shootout : Tape :=
  tape_of [0; 0; 0; 0; 0; 0;
           (7 # 10); (95 # 100); (7 # 10); (95 # 100); (95 # 100); (5 # 10);
           (95 # 100); (5 # 10); (5 # 10); (95 # 100)]%Q.

(** Read from cell 0 by the shootout: five kicks each go in, so do both
    kicks of the first sudden-death round, and in the second round the
    second side misses. *)
Definition tape_sudden_death : Tape :=
  tape_of [0; 0; 0; 0; 0; 0; 0; 0; 0; 0; 0; 0; 0; (95 # 100)]%Q.

(** Zero on the even cells and 0.95 on the odd ones: wherever a round of
    two kicks starts, one kick goes in and the other is missed. *)
Definition tape_alternating : Tape :=
  fun n => if Nat.even n then 0%Q else (95 # 100)%Q.

(** A clock that ticks once per read. *)
Definition sample_clock : Clock :=
  fun n => ("2025-11-01T10:00:0" ++ py_str (Z.of_nat n))%string.

Definition eight_teams : list Team :=
  map (fun name => sample_team name 70)
    ["Ghana"; "Mali"; "Kenya"; "Togo"; "Chad"; "Niger"; "Benin"; "Gabon"].

(** Nine registered teams and no match yet. *)
Definition store_nine_teams : Store :=
  mkStore (eight_teams ++ [sample_team "Sudan" 70]) [] 0.

(** Seven registered teams and no match yet. *)
Definition store_seven_teams : Store :=
  mkStore (removelast eight_teams) [] 0.

Definition played (a b : string) (created_at : string) (w : string) : Match :=
  mkMatch "quarterfinal" (sample_team a 70) (sample_team b 70) "completed"
    created_at
    (Some (mkResult a b "1-0" 1 0 w [] [] None None false)).

(** Four completed quarter-finals, streamed in an order that is not the
    order of their creation. *)
Definition store_quarterfinals_played : Store :=
  mkStore eight_teams
    [ played "Kenya" "Togo" "2025-11-01T09:00:01" "Togo";
      played "Benin" "Gabon" "2025-11-01T09:00:03" "Benin";
      played "Ghana" "Mali" "2025-11-01T09:00:00" "Ghana";
      played "Chad" "Niger" "2025-11-01T09:00:02" "Niger" ]
    4.

(** A configured sender, an SMTP server that accepts every message, and
    the quarter-final Ghana - Mali as the routes pass it on. *)
Definition sample_environment : Environment :=
  mkEnvironment (Some "league@example.org") (Some "app-password").

Definition smtp_delivers : Smtp := fun _ _ _ => None.

(** A standard output that writes every line, and one whose encoding is
    ASCII: [print] raises [UnicodeEncodeError] on a line that holds a byte
    above 127. *)
Definition console_utf8 : Console := fun _ => None.

Fixpoint is_ascii (s : string) : bool :=
  match s with
  | EmptyString => true
  | String a s' => Nat.ltb (nat_of_ascii a) 128 && is_ascii s'
  end.

Definition console_ascii : Console :=
  fun l => if is_ascii (opening l) then None else Some UnicodeEncodeError.

Definition team_dict (t : Team) : pyval :=
  PDict [("country", PStr (country t));
         ("email", optional_string (email t))].

Definition sample_match_data : pyval :=
  PDict [("round", PStr "quarterfinal");
         ("team1", team_dict ghana); ("team2", team_dict mali);
         ("status", PStr "scheduled")].

(* ------------------------------------------------------------------ *)
(** ** Vocabulary of the statements *)

(** The character [c] occurs in [s]. *)
Fixpoint occurs (c : ascii) (s : string) : bool :=
  match s with
  | EmptyString => false
  | String a s' => Ascii.eqb a c || occurs c s'
  end.

(** The list of minutes, in the order of the events. *)
Definition minutes (l : list MatchEvent) : list Z := map ev_minute l.

(** Non-decreasing list of integers. *)
Fixpoint nondecreasing (l : list Z) : bool :=
  match l with
  | [] => true
  | x :: l' =>
      match l' with
      | [] => true
      | y :: _ => (x <=? y) && nondecreasing l'
      end
  end.

(** Number of goal-scorer entries attributed to the team of country [c]. *)
Definition scorer_entries (c : string) (l : list GoalScorer) : Z :=
  Z.of_nat (List.length (filter (fun g => String.eqb (gs_team g) c) l)).

(** A kick against success probability [p], decided by the raw cell [q]. *)
Definition scores (p : Q) (q : Q) : bool :=
  Qltb (q - inject_Z (Qfloor q))%Q p.

(** In the sudden-death round that reads the cells [c] and [c + 1], exactly
    one of the two kicks goes in. *)
Definition decisive (p1 p2 : Q) (tp : Tape) (c : nat) : bool :=
  xorb (scores p1 (tp c)) (scores p2 (tp (S c))).

(** Kicks that go in among [n] kicks of one side, the first one read at
    cell [c], the sides alternating. *)
Fixpoint goals_in (p : Q) (tp : Tape) (c : nat) (n : nat) : Z :=
  match n with
  | O => 0
  | S n' => (if scores p (tp c) then 1 else 0) + goals_in p tp (S (S c)) n'
  end.

(** The [N] equally likely values of one draw on a grid of [N] points:
    [0/N, 1/N, ..., (N-1)/N]. *)
Definition grid (N : nat) : list Q :=
  map (fun k => Z.of_nat k # Pos.of_nat N) (seq 0 N).

(** Every sequence of draws for [n] rounds of two kicks. *)
Fixpoint draws_for (N n : nat) : list (list Q) :=
  match n with
  | O => [[]]
  | S n' =>
      flat_map
        (fun a =>
           flat_map (fun b => map (fun rest => a :: b :: rest) (draws_for N n'))
             (grid N))
        (grid N)
  end.

(** Sudden death, entered at [s], is still going on after the [n] rounds
    that read [draws]. *)
Definition undecided (p1 p2 : Q) (s : Shootout) (n : nat) (draws : list Q)
  : bool :=
  match sudden_death (S n) p1 p2 s (tape_of draws) 0%nat with
  | Ret _ _ => false
  | _ => true
  end.

(** The [n] rounds read from cell [c] on all end level. *)
Fixpoint level_rounds (p1 p2 : Q) (tp : Tape) (c : nat) (n : nat) : bool :=
  match n with
  | O => true
  | S n' => negb (decisive p1 p2 tp c) && level_rounds p1 p2 tp (S (S c)) n'
  end.

(** The scorer entries of each team are the goals tallied for it in the
    timeline, and no tally is beyond its target. *)
Definition tallied (team1_data team2_data : Team) (target1 target2 : Z)
    (st : Timeline) : Prop :=
  scorer_entries (country team1_data) (scorers st)
  = goals_scored st (country team1_data)
  /\ scorer_entries (country team2_data) (scorers st)
     = goals_scored st (country team2_data)
  /\ goals_scored st (country team1_data) <= target1
  /\ goals_scored st (country team2_data) <= target2.

(** The fixture that [add_fixture] stores. *)
Definition fixture (round : string) (a b : Team) (created_at : string) : Match :=
  mkMatch round a b "scheduled" created_at None.

(** Timestamps in non-decreasing order. *)
Fixpoint by_creation_time (l : list Match) : bool :=
  match l with
  | [] => true
  | x :: l' =>
      match l' with
      | [] => true
      | y :: _ => String.leb (m_created_at x) (m_created_at y) && by_creation_time l'
      end
  end.

(** A squad from which every random pick of the simulation can be made: it
    has a midfielder or an attacker, and a goalkeeper. *)
Definition fielded (t : Team) : bool :=
  existsb is_AT_or_MD (squad t) && existsb is_GK (squad t).

(* ------------------------------------------------------------------ *)
(** ** Squads and ratings (app.py, lines 29-88)

    A generated player carries, besides the fields of [Player], one rating
    for each of the four positions. *)

Record Ratings : Type := mkRatings {
  rating_GK : Z;
  rating_DF : Z;
  rating_MD : Z;
  rating_AT : Z
}.

(** [ratings[position]]. *)
Definition rating_at (r : Ratings) (position : Position) : Z :=
  match position with
  | GK => rating_GK r
  | DF => rating_DF r
  | MD => rating_MD r
  | AT => rating_AT r
  end.

Record SquadPlayer : Type := mkSquadPlayer {
  sp_player : Player;
  sp_ratings : Ratings
}.

Definition first_names : list string :=
  ["John"; "David"; "Michael"; "James"; "Robert"; "Mohamed"; "Ahmed";
   "Ibrahim"; "Kofi"; "Kwame"; "Chukwu"; "Adebayo"; "Musa"; "Sekou";
   "Jabari"; "Tendai"].

Definition last_names : list string :=
  ["Smith"; "Johnson"; "Williams"; "Brown"; "Jones"; "Traore"; "Diallo";
   "Kamara"; "Nkrumah"; "Mensah"; "Okoro"; "Adeyemi"; "Sow"; "Diop";
   "Ndlovu"; "Mbeki"].

(** [f"{random.choice(first_names)} {random.choice(last_names)}"]. *)
Definition generate_player_name : M string :=
  first <- random_choice first_names ;;
  last <- random_choice last_names ;;
  ret (first ++ " " ++ last)%string.

(** One turn of [for position in positions:]. *)
Definition position_rating (natural_position position : Position) : M Z :=
  if Position_eqb position natural_position then random_randint 70 95
  else random_randint 15 65.

Definition generate_player_ratings (natural_position : Position) : M Ratings :=
  gk <- position_rating natural_position GK ;;
  df <- position_rating natural_position DF ;;
  md <- position_rating natural_position MD ;;
  at_ <- position_rating natural_position AT ;;
  ret (mkRatings gk df md at_).

(** The body of the inner loop of [generate_squad]: the new player takes the
    next number, [len(squad) + 1]. *)
Definition new_player (position : Position) (squad : list SquadPlayer)
  : M (list SquadPlayer) :=
  let number := Z.of_nat (List.length squad) + 1 in
  name <- generate_player_name ;;
  ratings <- generate_player_ratings position ;;
  ret (squad
       ++ [mkSquadPlayer
             (mkPlayer ("player_" ++ py_str number)%string name position
                number false)
             ratings]).

Definition positions_distribution : list (Position * nat) :=
  [(GK, 3%nat); (DF, 8%nat); (MD, 8%nat); (AT, 4%nat)].

(** [for x in l: acc = body(x, acc)]. *)
Fixpoint for_each {A B} (l : list B) (body : B -> A -> M A) (acc : A) : M A :=
  match l with
  | [] => ret acc
  | x :: l' => acc' <- body x acc ;; for_each l' body acc'
  end.

(** The position that [random.choice(seq)] reads in a sequence of [n]
    items. *)
Definition random_index (n : nat) : M nat :=
  q <- draw ;; ret (Z.to_nat (Qfloor q mod Z.of_nat n)).

Fixpoint update_nth {A} (i : nat) (f : A -> A) (l : list A) : list A :=
  match l, i with
  | [], _ => []
  | x :: l', O => f x :: l'
  | x :: l', S i' => x :: update_nth i' f l'
  end.

(** [captain['is_captain'] = True], on the player object held by the list. *)
Definition make_captain (p : SquadPlayer) : SquadPlayer :=
  mkSquadPlayer
    (mkPlayer (p_id (sp_player p)) (p_name (sp_player p))
       (natural_position (sp_player p)) (jersey_number (sp_player p)) true)
    (sp_ratings p).

Definition generate_squad : M (list SquadPlayer) :=
  squad <-
    for_each positions_distribution
      (fun entry squad => for_range (snd entry) (new_player (fst entry)) squad)
      [] ;;
  match squad with
  | [] => raise IndexError
  | _ :: _ =>
      captain <- random_index (List.length squad) ;;
      ret (update_nth captain make_captain squad)
  end.

(** [round(x, 2)]. *)
Definition py_round2 (x : Q) : Q :=
  (inject_Z (py_round (x * 100)) / 100)%Q.

(** [player['ratings'][player['natural_position']]]. *)
Definition own_rating (p : SquadPlayer) : Z :=
  rating_at (sp_ratings p) (natural_position (sp_player p)).

Definition calculate_team_rating (squad : list SquadPlayer) : Q :=
  match squad with
  | [] => 0%Q
  | _ :: _ =>
      let total_rating := fold_left (fun acc p => acc + own_rating p) squad 0 in
      py_round2 (inject_Z total_rating
                 / inject_Z (Z.of_nat (List.length squad)))%Q
  end.

(** The players as [simulate_match] reads them. *)
Definition players (squad : list SquadPlayer) : list Player :=
  map sp_player squad.

(** High in the natural position, low in the three others. *)
Definition well_rated (p : SquadPlayer) : Prop :=
  forall position : Position,
    if Position_eqb position (natural_position (sp_player p))
    then 70 <= rating_at (sp_ratings p) position <= 95
    else 15 <= rating_at (sp_ratings p) position <= 65.

(* ------------------------------------------------------------------ *)
(** ** Backfilling goal scorers (app.py, lines 289-318, 486-501) *)

(** The names [random.choice] picks from: the midfielders and attackers, or
    else the whole squad, or else the one placeholder. *)
Definition backfill_candidates (t : Team) (placeholder : string) : list string :=
  match filter is_AT_or_MD (squad t) with
  | (_ :: _) as scorers => map p_name scorers
  | [] =>
      match squad t with
      | (_ :: _) as everybody => map p_name everybody
      | [] => [placeholder]
      end
  end.

(** One pass of [for _ in range(t1g)]: the scorer first, then a minute of
    5..120. *)
Definition backfill_scorer (t : Team) (placeholder : string)
    (gs : list GoalScorer) : M (list GoalScorer) :=
  scorer <- random_choice (backfill_candidates t placeholder) ;;
  minute <- random_randint 5 120 ;;
  ret (gs ++ [mkScorer minute scorer (country t)]).

(** [gs.sort(key=lambda x: x['minute'])]: a stable sort. *)
Fixpoint insert_scorer (g : GoalScorer) (l : list GoalScorer) : list GoalScorer :=
  match l with
  | [] => [g]
  | x :: l' =>
      if gs_minute g <=? gs_minute x then g :: l else x :: insert_scorer g l'
  end.

Definition sort_scorers (l : list GoalScorer) : list GoalScorer :=
  fold_right insert_scorer [] l.

(** [result['goal_scorers'] = gs]. *)
Definition with_goal_scorers (r : MatchResult) (gs : list GoalScorer)
  : MatchResult :=
  mkResult (team1 r) (team2 r) (score r) (team1_goals r) (team2_goals r)
    (winner r) (events r) gs (decided_by r) (penalty_score r) (extra_time r).

(** [match_data['result'] = result]. *)
Definition with_result (m : Match) (r : MatchResult) : Match :=
  mkMatch (m_round m) (m_team1 m) (m_team2 m) (m_status m) (m_created_at m)
    (Some r).

(** [_ensure_goal_scorers_for_match]: whether the match was changed, and
    the match as the call leaves it.  A match without a result counts as
    0-0. *)
Definition ensure_goal_scorers_for_match (m : Match) : M (bool * Match) :=
  if negb (String.eqb (m_status m) "completed") then ret (false, m)
  else
    match m_result m with
    | None => ret (false, m)
    | Some result =>
        let t1g := team1_goals result in
        let t2g := team2_goals result in
        if (t1g + t2g >? 0)
           && (Z.of_nat (List.length (goal_scorers result)) =? 0)
        then
          gs <- for_range (Z.to_nat t1g) (backfill_scorer (m_team1 m) "Player 1")
                  [] ;;
          gs <- for_range (Z.to_nat t2g) (backfill_scorer (m_team2 m) "Player 2")
                  gs ;;
          ret (true, with_result m (with_goal_scorers result (sort_scorers gs)))
        else ret (false, m)
    end.

(** The loop of [api_matches]: every document streamed is backfilled, and
    written back when the backfill changed it. *)
Fixpoint backfill_all (ms : list Match) : M (list Match) :=
  match ms with
  | [] => ret []
  | m :: ms' =>
      checked <- ensure_goal_scorers_for_match m ;;
      rest <- backfill_all ms' ;;
      ret (snd checked :: rest)
  end.

(** [api_matches]: the matches it answers with, and the store it leaves. *)
Definition api_matches (db : Store) : M (list Match * Store) :=
  ms <- backfill_all (matches db) ;;
  ret (ms, mkStore (teams db) ms (clock_reads db)).

(** A completed match that shows goals and names no scorer. *)
Definition lacks_scorers (m : Match) : bool :=
  String.eqb (m_status m) "completed"
  && match m_result m with
     | None => false
     | Some r =>
         (team1_goals r + team2_goals r >? 0)
         && (Z.of_nat (List.length (goal_scorers r)) =? 0)
     end.

(** The minutes of the scorer entries, in their order. *)
Definition scorer_minutes (l : list GoalScorer) : list Z := map gs_minute l.

(** What the backfill makes of a match: a match that lacks scorers gets a
    non-empty scorer list written into its result, any other match is left
    as it is. *)
Definition backfilled (m m' : Match) : Prop :=
  if lacks_scorers m
  then exists r gs,
         m_result m = Some r /\ gs <> []
         /\ m' = with_result m (with_goal_scorers r gs)
  else m' = m.

(** Two completed semi-finals between the winners of
    [store_quarterfinals_played], streamed after the quarter-finals. *)
Definition semifinal_played (a b : string) (created_at : string) (w : string)
  : Match :=
  mkMatch "semifinal" (sample_team a 70) (sample_team b 70) "completed"
    created_at
    (Some (mkResult a b "2-1" 2 1 w [] [] None None false)).

Definition store_semifinals_played : Store :=
  mkStore eight_teams
    (matches store_quarterfinals_played
     ++ [ semifinal_played "Niger" "Benin" "2025-11-01T10:00:01" "Benin";
          semifinal_played "Ghana" "Togo" "2025-11-01T10:00:00" "Ghana" ])
    6.

(* ------------------------------------------------------------------ *)
(** ** What the routes hand to the e-mail service *)

(** The match document as the e-mail service reads it: the round and the
    two team documents (of which it reads the country and the e-mail). *)
Definition match_dict (m : Match) : pyval :=
  PDict [("round", PStr (m_round m));
         ("team1", team_dict (m_team1 m)); ("team2", team_dict (m_team2 m));
         ("status", PStr (m_status m))].

(** The federation addresses of a match: the e-mail of the first team, then
    that of the second, each when it is there and not empty. *)
Definition address (t : Team) : list string :=
  match email t with
  | Some s => if String.eqb s "" then [] else [s]
  | None => []
  end.

Definition addresses (m : Match) : list string :=
  address (m_team1 m) ++ address (m_team2 m).

(** The server let the message through. *)
Definition delivered (o : option exn) : bool :=
  match o with
  | None => true
  | Some _ => false
  end.

(* ------------------------------------------------------------------ *)
(** ** Resetting the tournament (app.py, lines 738-745) *)

(** [api_reset_tournament]: every match document is deleted. *)
Definition api_reset_tournament (db : Store) : Response * Store :=
  (mkResponse true None 200, mkStore (teams db) [] (clock_reads db)).

(* ------------------------------------------------------------------ *)
(** ** Playing a match (app.py, lines 664-710)

    [simulate_match_route] and [play_match] have the same body but for the
    flag [detailed].  A match document is addressed by its position in the
    stream of the collection; the answer is the JSON object of the
    response.  The clock is read twice before the bracket is looked at: for
    [simulated_at] in [simulate_match] and for [completed_at] here (neither
    field is read by any code).  What the request leaves of the random
    stream is not part of the answer. *)

Record Answer : Type := mkAnswer {
  answer_success : bool;
  answer_result : option MatchResult;
  answer_error : option exn
}.

(** [match_data.get('round') in ['quarterfinal', 'semifinal', 'final']]. *)
Definition knockout_round (round : string) : bool :=
  existsb (String.eqb round) ["quarterfinal"; "semifinal"; "final"].

(** The document after [match_ref.update({'result': result, 'status':
    'completed', ...})]. *)
Definition completed (m : Match) (result : MatchResult) : Match :=
  mkMatch (m_round m) (m_team1 m) (m_team2 m) "completed" (m_created_at m)
    (Some result).

Definition record_result (match_id : nat) (result : MatchResult) (db : Store)
  : Store :=
  mkStore (teams db)
    (update_nth match_id (fun m => completed m result) (matches db))
    (2 + clock_reads db).

(** The body of both routes: [None] when the simulation does not return.
    Every exception is answered by [{'success': False, 'error': ...}]: a
    missing document has no [get], the simulation may fail to pick a player,
    and the e-mail function may raise from its handler, after the result
    was stored and before the bracket is looked at. *)
Definition match_route (detailed : bool) (fuel : nat) (env : Environment)
    (console : Console) (smtp : Smtp) (clock : Clock) (match_id : nat)
    (db : Store) (tp : Tape) (c : nat) : option (Answer * Store) :=
  match nth_error (matches db) match_id with
  | None => Some (mkAnswer false None (Some AttributeError), db)
  | Some match_data =>
      let knockout := knockout_round (m_round match_data) in
      match simulate_match fuel (m_team1 match_data) (m_team2 match_data)
              detailed knockout tp c with
      | Diverge => None
      | Raise e => Some (mkAnswer false None (Some e), db)
      | Ret result _ =>
          let db1 := record_result match_id result db in
          match send_match_completion_email env console smtp
                  (match_dict match_data) (result_dict result) with
          | inl e => Some (mkAnswer false None (Some e), db1)
          | inr _ =>
              Some (mkAnswer true (Some result) None,
                    progress_tournament_if_ready clock db1)
          end
      end
  end.

Definition simulate_match_route := match_route false.
Definition play_match := match_route true.

(* ------------------------------------------------------------------ *)
(** ** Registering a team (app.py, lines 447-484)

    The request body is whatever JSON the client sent.  [str.strip] is the
    library's: it is a parameter of the model.  Of the stored document the
    model keeps the fields of [Team]; [manager], [representative], the
    ratings of the players and the four counters are stored beside them
    and read by none of the code embedded here. *)

Inductive Registration : Type :=
| MissingFields                 (* 400 *)
| AlreadyRegistered             (* 409 *)
| Registered (t : Team)         (* 201 *)
| RegistrationFailed (e : exn)  (* 500 *).

Definition registration_status (r : Registration) : Z :=
  match r with
  | MissingFields => 400
  | AlreadyRegistered => 409
  | Registered _ => 201
  | RegistrationFailed _ => 500
  end.

(** [(payload.get(key) or '').strip()]: only a string has [strip]. *)
Definition stripped_field (strip : string -> string) (payload : pyval)
    (key : string) : E string :=
  (v <- py_get payload key PNone ;;
   match (if truthy v then v else PStr "") with
   | PStr s => inr (strip s)
   | _ => inl AttributeError
   end)%exn.

(** The four fields, in the order in which they are read. *)
Definition registration_fields (strip : string -> string) (payload : pyval)
  : E (string * string * string * string) :=
  (let payload := if truthy payload then payload else PDict [] in
   country <- stripped_field strip payload "country" ;;
   manager <- stripped_field strip payload "manager" ;;
   representative <- stripped_field strip payload "representative" ;;
   email <- stripped_field strip payload "email" ;;
   inr (country, manager, representative, email))%exn.

Definition api_create_team (strip : string -> string) (clock : Clock)
    (payload : pyval) (db : Store) : M (Registration * Store) :=
  match registration_fields strip payload with
  | inl e => ret (RegistrationFailed e, db)
  | inr (country_, manager, representative, email_) =>
      if String.eqb country_ "" || String.eqb manager ""
         || String.eqb representative "" || String.eqb email_ ""
      then ret (MissingFields, db)
      else if existsb (fun t => String.eqb (country t) country_) (teams db)
      then ret (AlreadyRegistered, db)
      else
        fun tp c =>
          match generate_squad tp c with
          | Ret squad_ c' =>
              let team_data :=
                mkTeam country_ (calculate_team_rating squad_) (players squad_)
                  (Some email_) in
              Ret (Registered team_data,
                   mkStore (teams db ++ [team_data]) (matches db)
                     (S (clock_reads db)))
                  c'
          | Raise e => Ret (RegistrationFailed e, db) c (* never: a squad has 23 players *)
          | Diverge => Diverge
          end
  end.

(* ================================================================== *)
(** * Properties *)

(** ** Rational comparisons *)

Lemma Qltb_lt (x y : Q) : Qltb x y = true <-> (x < y)%Q.
Proof.
  unfold Qltb. rewrite Qlt_alt.
  destruct (x ?= y)%Q; split; intro H; congruence.
Qed.

Lemma Qltb_ge (x y : Q) : Qltb x y = false <-> (y <= x)%Q.
Proof.
  split; intro H.
  - destruct (Qlt_le_dec x y) as [Hlt | Hle]; [| exact Hle].
    apply Qltb_lt in Hlt. congruence.
  - destruct (Qltb x y) eqn:E; [| reflexivity].
    apply Qltb_lt in E. exfalso. exact (Qlt_not_le _ _ E H).
Qed.

Lemma Qleb_gt (x y : Q) : (y < x)%Q -> Qleb x y = false.
Proof.
  unfold Qleb. rewrite Qgt_alt. intros ->. reflexivity.
Qed.

Lemma py_max_lower (a b : Q) : (a <= py_max a b)%Q.
Proof.
  unfold py_max. destruct (Qltb a b) eqn:E.
  - apply Qltb_lt in E. apply Qlt_le_weak, E.
  - apply Qle_refl.
Qed.

Lemma py_max_upper (a b hi : Q) : (a <= hi)%Q -> (b <= hi)%Q -> (py_max a b <= hi)%Q.
Proof.
  unfold py_max. destruct (Qltb a b); auto.
Qed.

Lemma py_min_upper (a b : Q) : (py_min a b <= a)%Q.
Proof.
  unfold py_min. destruct (Qltb b a) eqn:E.
  - apply Qltb_lt in E. apply Qlt_le_weak, E.
  - apply Qle_refl.
Qed.

(** ** Running computations *)

Lemma bind_Ret {A B} (m : M A) (k : A -> M B) tp c b c' :
  bind m k tp c = Ret b c' ->
  exists a c1, m tp c = Ret a c1 /\ k a tp c1 = Ret b c'.
Proof.
  unfold bind. destruct (m tp c) as [a c1| |]; intro H; try discriminate.
  exists a, c1. split; [reflexivity | exact H].
Qed.

Lemma bind_run {A B} (m : M A) (k : A -> M B) tp c a c1 :
  m tp c = Ret a c1 -> bind m k tp c = k a tp c1.
Proof.
  unfold bind. intros ->. reflexivity.
Qed.

Lemma ret_Ret {A} (a b : A) tp c c' : ret a tp c = Ret b c' -> a = b /\ c = c'.
Proof.
  unfold ret. intro H. inversion H. auto.
Qed.

(** Splits a returning computation into its successive steps. *)
Ltac split_run H :=
  repeat match type of H with
         | bind _ _ _ _ = Ret _ _ =>
             let a := fresh "v" in
             let c := fresh "c" in
             let H1 := fresh "Hstep" in
             apply bind_Ret in H; destruct H as (a & c & H1 & H)
         | ret _ _ _ = Ret _ _ =>
             apply ret_Ret in H; destruct H as [? ?]; subst
         end.

Lemma random_random_range tp c r c' :
  random_random tp c = Ret r c' -> (0 <= r)%Q /\ (r < 1)%Q /\ c' = S c.
Proof.
  unfold random_random, bind, draw, ret. intro H. inversion H; subst; clear H.
  pose proof (Qfloor_le (tp c)) as Hlo.
  pose proof (Qlt_floor (tp c)) as Hhi.
  rewrite inject_Z_plus in Hhi. change (inject_Z 1) with 1%Q in Hhi.
  repeat split; lra.
Qed.

Lemma random_randint_range a b tp c v c' :
  a <= b -> random_randint a b tp c = Ret v c' -> a <= v <= b /\ c' = S c.
Proof.
  unfold random_randint, bind, draw, ret. intros Hab H.
  inversion H; subst; clear H.
  pose proof (Z.mod_pos_bound (Qfloor (tp c)) (b - a + 1)). lia.
Qed.

Lemma random_choice_pair {A} (a b x : A) tp c c' :
  random_choice [a; b] tp c = Ret x c' -> x = a \/ x = b.
Proof.
  unfold random_choice, bind, draw, ret. intro H. inversion H; subst; clear H.
  match goal with
  | |- context [Z.to_nat ?z] => destruct (Z.to_nat z) as [| [| k]]
  end; cbn; auto.
  destruct k; auto.
Qed.

(** ** The goal-count model *)

Lemma poisson_approx_run (lambda_param : Q) tp c :
  (0 < lambda_param)%Q ->
  poisson_approx lambda_param tp c = Ret (Z.max 0 (py_round (tp c))) (S c).
Proof.
  intro Hpos. unfold poisson_approx. rewrite (Qleb_gt _ _ Hpos). reflexivity.
Qed.

Lemma poisson_approx_nonneg (lambda_param : Q) tp c g c' :
  poisson_approx lambda_param tp c = Ret g c' -> 0 <= g.
Proof.
  unfold poisson_approx. destruct (Qleb lambda_param 0).
  - intro H. apply ret_Ret in H. lia.
  - unfold random_gauss, bind, draw, ret. intro H. inversion H. lia.
Qed.

Lemma base_goals_run (d : Q) tp c :
  exists b, base_goals d tp c = Ret b (S c) /\ ((1 # 2) <= b)%Q.
Proof.
  unfold base_goals, random_uniform, random_random, bind, draw, ret.
  eexists. split; [reflexivity | apply py_max_lower].
Qed.

Lemma regulation_goals_run (base : Q) tp c :
  ((1 # 2) <= base)%Q ->
  exists g, regulation_goals base tp c = Ret g (S c) /\ 0 <= g <= 7.
Proof.
  intro Hb. unfold regulation_goals.
  rewrite (bind_run _ _ _ _ _ _ (poisson_approx_run base tp c
             (Qlt_le_trans 0 (1 # 2) base eq_refl Hb))).
  eexists. split; [reflexivity | lia].
Qed.

Lemma extra_time_goals_run (base : Q) tp c :
  exists e, extra_time_goals base tp c = Ret e (S c) /\ 0 <= e <= 3.
Proof.
  unfold extra_time_goals.
  rewrite (bind_run _ _ _ _ _ _ (poisson_approx_run _ tp c
             (Qlt_le_trans 0 (1 # 5) _ eq_refl (py_max_lower _ _)))).
  eexists. split; [reflexivity | lia].
Qed.

Lemma regulation_goals_range (base : Q) tp c g c' :
  regulation_goals base tp c = Ret g c' -> 0 <= g <= 7.
Proof.
  unfold regulation_goals. intro H. split_run H.
  apply poisson_approx_nonneg in Hstep. lia.
Qed.

Lemma extra_time_goals_range (base : Q) tp c e c' :
  extra_time_goals base tp c = Ret e c' -> 0 <= e <= 3.
Proof.
  unfold extra_time_goals. intro H. split_run H.
  apply poisson_approx_nonneg in Hstep. lia.
Qed.

(** C7. Whatever the two ratings and whatever the draws, the goal-count
    model returns, for each team, a regulation goal count that is an integer
    of 0..7, and the extra-time variant of the model, run on the same base
    expectations, returns for each team an integer of 0..3. *)
Theorem C7_goal_counts_within_caps :
  forall (rating1 rating2 : Q) (tp : Tape) (c : nat),
    let rating_diff := ((rating1 - rating2) / 20)%Q in
    exists base1 base2 g1 g2,
      base_goals rating_diff tp c = Ret base1 (1 + c)%nat
      /\ base_goals (- rating_diff)%Q tp (1 + c)%nat = Ret base2 (2 + c)%nat
      /\ regulation_goals base1 tp (2 + c)%nat = Ret g1 (3 + c)%nat
      /\ regulation_goals base2 tp (3 + c)%nat = Ret g2 (4 + c)%nat
      /\ 0 <= g1 <= 7 /\ 0 <= g2 <= 7
      /\ forall c' : nat,
          exists e1 e2,
            extra_time_goals base1 tp c' = Ret e1 (1 + c')%nat
            /\ extra_time_goals base2 tp (1 + c')%nat = Ret e2 (2 + c')%nat
            /\ 0 <= e1 <= 3 /\ 0 <= e2 <= 3.
Proof.
  intros rating1 rating2 tp c rating_diff.
  destruct (base_goals_run rating_diff tp c) as (b1 & Hb1 & Hlo1).
  destruct (base_goals_run (- rating_diff)%Q tp (1 + c)%nat) as (b2 & Hb2 & Hlo2).
  destruct (regulation_goals_run b1 tp (2 + c)%nat Hlo1) as (g1 & Hg1 & R1).
  destruct (regulation_goals_run b2 tp (3 + c)%nat Hlo2) as (g2 & Hg2 & R2).
  exists b1, b2, g1, g2. repeat (split; [assumption || lia |]).
  intro c'.
  destruct (extra_time_goals_run b1 tp c') as (e1 & He1 & Q1).
  destruct (extra_time_goals_run b2 tp (1 + c')%nat) as (e2 & He2 & Q2).
  exists e1, e2. repeat (split; [assumption || lia |]). lia.
Qed.

(** ** Integers as text *)

Lemma py_int_py_str (z : Z) : py_int (py_str z) = Some z.
Proof.
  unfold py_int, py_str. rewrite NilZero.isi.
  - simpl. f_equal. apply DecimalZ.of_to.
  - destruct z; simpl; try discriminate.
    intro H. inversion H as [H']. revert H'. apply DecimalPos.Unsigned.to_uint_nonnil.
  - destruct z; simpl; try discriminate.
    intro H. inversion H as [H']. revert H'. apply DecimalPos.Unsigned.to_uint_nonnil.
Qed.

Lemma digits_no_dash (d : Decimal.uint) :
  occurs "-" (NilEmpty.string_of_uint d) = false.
Proof.
  induction d; simpl; auto.
Qed.

Lemma py_str_no_dash (z : Z) : 0 <= z -> occurs "-" (py_str z) = false.
Proof.
  intro Hz. unfold py_str. destruct z as [| p | p]; try lia.
  - reflexivity.
  - simpl. unfold NilZero.string_of_uint.
    destruct (Pos.to_uint p) eqn:E; try (rewrite <- E; apply digits_no_dash).
    reflexivity.
Qed.

Lemma py_str_nonempty (z : Z) : py_str z <> EmptyString.
Proof.
  unfold py_str. destruct z as [| p | p]; simpl; try discriminate.
  unfold NilZero.string_of_uint.
  destruct (Pos.to_uint p) eqn:E; simpl; try discriminate.
Qed.

Lemma split_on_absent (c : ascii) (s : string) :
  occurs c s = false -> split_on c s = [s].
Proof.
  induction s as [| a s IH]; simpl; [reflexivity |].
  intro H. apply orb_false_iff in H. destruct H as [Ha Hs].
  rewrite Ha, (IH Hs). reflexivity.
Qed.

Lemma split_on_first (c : ascii) (s1 s2 : string) :
  occurs c s1 = false ->
  split_on c (s1 ++ String c s2)%string = s1 :: split_on c s2.
Proof.
  induction s1 as [| a s1 IH]; simpl.
  - intros _. rewrite Ascii.eqb_refl. reflexivity.
  - intro H. apply orb_false_iff in H. destruct H as [Ha Hs].
    rewrite Ha, (IH Hs). reflexivity.
Qed.

Lemma split_dash (a b : Z) :
  0 <= a -> 0 <= b -> split_on "-" (dash a b) = [py_str a; py_str b].
Proof.
  intros Ha Hb. unfold dash. simpl append.
  rewrite (split_on_first _ _ _ (py_str_no_dash a Ha)).
  rewrite (split_on_absent _ _ (py_str_no_dash b Hb)). reflexivity.
Qed.

Lemma dash_nonempty (a b : Z) : dash a b <> EmptyString.
Proof.
  unfold dash. pose proof (py_str_nonempty a) as H.
  destruct (py_str a); [congruence | simpl; discriminate].
Qed.

Lemma penalties_favour_team1_dash (a b : Z) tp c :
  0 <= a -> 0 <= b ->
  penalties_favour_team1 (Some (dash a b)) tp c = Ret (a >? b) c.
Proof.
  intros Ha Hb. unfold penalties_favour_team1.
  pose proof (dash_nonempty a b) as Hne.
  destruct (dash a b) eqn:E; [congruence |]. rewrite <- E.
  rewrite (split_dash a b Ha Hb).
  unfold bind, item, int_of, ret. cbn [nth_error].
  rewrite (py_int_py_str a). cbv beta iota.
  rewrite (py_int_py_str b). reflexivity.
Qed.

(** ** The shootout *)

Lemma penalty_probability_range (d : Q) :
  ((6 # 10) <= penalty_probability d)%Q /\ (penalty_probability d <= (9 # 10))%Q.
Proof.
  unfold penalty_probability. split.
  - apply py_max_lower.
  - apply py_max_upper; [discriminate | apply py_min_upper].
Qed.

Lemma scores_zero (p : Q) : ((6 # 10) <= p)%Q -> scores p 0 = true.
Proof.
  intro Hp. unfold scores. apply Qltb_lt.
  change (0 - inject_Z (Qfloor 0))%Q with (0 - 0)%Q. lra.
Qed.

Lemma scores_high (p : Q) : (p <= (9 # 10))%Q -> scores p (95 # 100) = false.
Proof.
  intro Hp. unfold scores. apply Qltb_ge.
  change (inject_Z (Qfloor (95 # 100))) with 0%Q. lra.
Qed.

Lemma goals_in_range (p : Q) (tp : Tape) (n c : nat) :
  0 <= goals_in p tp c n <= Z.of_nat n.
Proof.
  revert c. induction n as [| n IH]; intro c; simpl goals_in; [lia |].
  specialize (IH (S (S c))). destruct (scores p (tp c)); lia.
Qed.

Lemma penalty_pair_run (p1 p2 : Q) (s : Shootout) tp c :
  penalty_pair p1 p2 s tp c
  = Ret (mkShootout (if scores p1 (tp c) then t1 s + 1 else t1 s)
                    (if scores p2 (tp (S c)) then t2 s + 1 else t2 s)
                    (shots s))
        (S (S c)).
Proof. reflexivity. Qed.

Lemma rounds_run (p1 p2 : Q) (n : nat) (s : Shootout) tp c :
  for_range n
    (fun s => penalty_pair p1 p2 (mkShootout (t1 s) (t2 s) (shots s + 1))) s tp c
  = Ret (mkShootout (t1 s + goals_in p1 tp c n)
                    (t2 s + goals_in p2 tp (S c) n)
                    (shots s + Z.of_nat n))
        (2 * n + c)%nat.
Proof.
  revert s c. induction n as [| n IH]; intros s c.
  - simpl. unfold ret. destruct s; simpl. repeat f_equal; lia.
  - cbn [for_range]. rewrite (bind_run _ _ _ _ _ _ (penalty_pair_run p1 p2 _ tp c)).
    rewrite IH. cbn [t1 t2 shots goals_in].
    f_equal; [| lia].
    destruct (scores p1 (tp c)), (scores p2 (tp (S c))); f_equal; lia.
Qed.

Lemma initial_five_run (p1 p2 : Q) tp c :
  initial_five p1 p2 tp c
  = Ret (mkShootout (goals_in p1 tp c 5) (goals_in p2 tp (S c) 5) 5) (10 + c)%nat.
Proof.
  unfold initial_five. rewrite rounds_run. reflexivity.
Qed.

Lemma sudden_death_settled (fuel : nat) (p1 p2 : Q) (s : Shootout) tp c :
  t1 s <> t2 s -> sudden_death (S fuel) p1 p2 s tp c = Ret s c.
Proof.
  intro H. cbn [sudden_death]. apply Z.eqb_neq in H. rewrite H. reflexivity.
Qed.

Lemma level_after_pair (p1 p2 : Q) (s : Shootout) tp c :
  t1 s = t2 s ->
  ((if scores p1 (tp c) then t1 s + 1 else t1 s)
   =? (if scores p2 (tp (S c)) then t2 s + 1 else t2 s))
  = negb (decisive p1 p2 tp c).
Proof.
  intro H. unfold decisive.
  destruct (scores p1 (tp c)), (scores p2 (tp (S c))); simpl;
    [apply Z.eqb_eq | apply Z.eqb_neq | apply Z.eqb_neq | apply Z.eqb_eq]; lia.
Qed.

(** Whatever sudden death returns has two different tallies, none of them
    smaller than before. *)
Lemma sudden_death_Ret (fuel : nat) (p1 p2 : Q) (s s' : Shootout) tp c c' :
  sudden_death fuel p1 p2 s tp c = Ret s' c' ->
  t1 s' <> t2 s' /\ t1 s <= t1 s' /\ t2 s <= t2 s' /\ shots s' = shots s.
Proof.
  revert s c. induction fuel as [| fuel IH]; intros s c H; [discriminate |].
  cbn [sudden_death] in H. destruct (t1 s =? t2 s) eqn:E.
  - rewrite (bind_run _ _ _ _ _ _ (penalty_pair_run p1 p2 s tp c)) in H.
    apply IH in H. cbn [t1 t2 shots] in H.
    destruct (scores p1 (tp c)), (scores p2 (tp (S c))); intuition lia.
  - apply ret_Ret in H. destruct H as [<- _]. apply Z.eqb_neq in E.
    intuition lia.
Qed.

(** Sudden death stops at the first decisive round, after reading two cells
    for every round played. *)
Lemma sudden_death_stops (p1 p2 : Q) tp (k : nat) :
  forall (fuel : nat) (s : Shootout) (c : nat),
    t1 s = t2 s ->
    (forall j, (j < k)%nat -> decisive p1 p2 tp (2 * j + c)%nat = false) ->
    decisive p1 p2 tp (2 * k + c)%nat = true ->
    (k + 2 <= fuel)%nat ->
    exists s', sudden_death fuel p1 p2 s tp c = Ret s' (2 * (k + 1) + c)%nat
               /\ t1 s' <> t2 s'.
Proof.
  induction k as [| k IH]; intros fuel s c Hlevel Hbefore Hk Hfuel.
  - destruct fuel as [| [| fuel]]; try lia.
    cbn [sudden_death]. apply Z.eqb_eq in Hlevel as E. rewrite E.
    rewrite (bind_run _ _ _ _ _ _ (penalty_pair_run p1 p2 s tp c)).
    cbn [t1 t2]. rewrite (level_after_pair p1 p2 s tp c Hlevel).
    simpl in Hk. rewrite Hk. simpl negb. cbv iota.
    eexists. split; [reflexivity |]. cbn [t1 t2].
    unfold decisive in Hk.
    destruct (scores p1 (tp c)), (scores p2 (tp (S c))); simpl in Hk;
      try discriminate; lia.
  - destruct fuel as [| fuel]; try lia.
    cbn [sudden_death]. apply Z.eqb_eq in Hlevel as E. rewrite E.
    rewrite (bind_run _ _ _ _ _ _ (penalty_pair_run p1 p2 s tp c)).
    pose proof (Hbefore 0%nat ltac:(lia)) as H0. simpl in H0.
    destruct (IH fuel
                (mkShootout (if scores p1 (tp c) then t1 s + 1 else t1 s)
                            (if scores p2 (tp (S c)) then t2 s + 1 else t2 s)
                            (shots s))
                (S (S c))) as (s' & Hrun & Hdiff).
    + cbn [t1 t2]. apply Z.eqb_eq.
      rewrite (level_after_pair p1 p2 s tp c Hlevel), H0. reflexivity.
    + intros j Hj. specialize (Hbefore (S j) ltac:(lia)).
      replace (2 * j + S (S c))%nat with (2 * S j + c)%nat by lia. exact Hbefore.
    + replace (2 * k + S (S c))%nat with (2 * S k + c)%nat by lia. exact Hk.
    + lia.
    + exists s'. split; [| exact Hdiff].
      rewrite Hrun. f_equal. lia.
Qed.

(** Without a decisive round sudden death goes on for ever. *)
Lemma sudden_death_endless (p1 p2 : Q) tp :
  forall (fuel : nat) (s : Shootout) (c : nat),
    t1 s = t2 s ->
    (forall j, decisive p1 p2 tp (2 * j + c)%nat = false) ->
    sudden_death fuel p1 p2 s tp c = Diverge.
Proof.
  induction fuel as [| fuel IH]; intros s c Hlevel Hnever; [reflexivity |].
  cbn [sudden_death]. apply Z.eqb_eq in Hlevel as E. rewrite E.
  rewrite (bind_run _ _ _ _ _ _ (penalty_pair_run p1 p2 s tp c)).
  apply IH.
  - cbn [t1 t2]. apply Z.eqb_eq.
    rewrite (level_after_pair p1 p2 s tp c Hlevel).
    pose proof (Hnever 0%nat) as H0. simpl in H0. rewrite H0. reflexivity.
  - intro j. specialize (Hnever (S j)).
    replace (2 * j + S (S c))%nat with (2 * S j + c)%nat by lia. exact Hnever.
Qed.

Lemma penalty_shootout_run5 (fuel : nat) (rating1 rating2 : Q) tp c :
  penalty_shootout fuel rating1 rating2 tp c
  = sudden_death fuel
      (penalty_probability ((rating1 - rating2) / 100))
      (penalty_probability (- ((rating1 - rating2) / 100)))
      (mkShootout
         (goals_in (penalty_probability ((rating1 - rating2) / 100)) tp c 5)
         (goals_in (penalty_probability (- ((rating1 - rating2) / 100))) tp (S c) 5)
         5)
      tp (10 + c)%nat.
Proof.
  unfold penalty_shootout.
  rewrite (bind_run _ _ _ _ _ _ (initial_five_run _ _ tp c)). reflexivity.
Qed.

Lemma penalty_shootout_Ret (fuel : nat) (rating1 rating2 : Q) (s : Shootout)
    tp c c' :
  penalty_shootout fuel rating1 rating2 tp c = Ret s c' ->
  t1 s <> t2 s /\ 0 <= t1 s /\ 0 <= t2 s /\ shots s = 5.
Proof.
  unfold penalty_shootout. intro H.
  rewrite (bind_run _ _ _ _ _ _ (initial_five_run _ _ tp c)) in H.
  apply sudden_death_Ret in H. cbn [t1 t2 shots] in H.
  pose proof (goals_in_range (penalty_probability ((rating1 - rating2) / 100))
                tp 5 c).
  pose proof (goals_in_range (penalty_probability (- ((rating1 - rating2) / 100)))
                tp 5 (S c)).
  intuition lia.
Qed.

(** *** Rounds of sudden death, and how many sequences of draws leave it
    undecided *)

Lemma sudden_death_undecided (p1 p2 : Q) (tp : Tape) (n : nat) :
  forall (s : Shootout) (c : nat),
    t1 s = t2 s ->
    match sudden_death (S n) p1 p2 s tp c with
    | Ret _ _ => false
    | _ => true
    end = level_rounds p1 p2 tp c n.
Proof.
  induction n as [| n IH]; intros s c Hlevel.
  - cbn [sudden_death level_rounds]. apply Z.eqb_eq in Hlevel. rewrite Hlevel.
    rewrite (bind_run _ _ _ _ _ _ (penalty_pair_run p1 p2 s tp c)). reflexivity.
  - cbn [level_rounds]. remember (S n) as fuel eqn:Hfuel. cbn [sudden_death].
    apply Z.eqb_eq in Hlevel as E. rewrite E.
    rewrite (bind_run _ _ _ _ _ _ (penalty_pair_run p1 p2 s tp c)).
    pose proof (level_after_pair p1 p2 s tp c Hlevel) as L.
    destruct (decisive p1 p2 tp c) eqn:D; cbn [negb andb] in *.
    + subst fuel. rewrite sudden_death_settled; [reflexivity |].
      cbn [t1 t2]. apply Z.eqb_neq. exact L.
    + subst fuel. apply IH. cbn [t1 t2]. apply Z.eqb_eq. exact L.
Qed.

Lemma level_rounds_shift (p1 p2 : Q) (a b : Q) (rest : list Q) (n : nat) :
  forall c : nat,
    level_rounds p1 p2 (tape_of (a :: b :: rest)) (S (S c)) n
    = level_rounds p1 p2 (tape_of rest) c n.
Proof.
  induction n as [| n IH]; intro c; [reflexivity |].
  cbn [level_rounds]. rewrite IH. reflexivity.
Qed.

Lemma undecided_cons (p1 p2 : Q) (s : Shootout) (n : nat) (a b : Q)
    (rest : list Q) :
  t1 s = t2 s ->
  undecided p1 p2 s (S n) (a :: b :: rest)
  = negb (xorb (scores p1 a) (scores p2 b)) && undecided p1 p2 s n rest.
Proof.
  intro H. unfold undecided. rewrite !sudden_death_undecided by exact H.
  cbn [level_rounds]. rewrite level_rounds_shift. reflexivity.
Qed.

Lemma undecided_nil (p1 p2 : Q) (s : Shootout) :
  t1 s = t2 s -> undecided p1 p2 s 0%nat [] = true.
Proof.
  intro H. unfold undecided. rewrite sudden_death_undecided by exact H.
  reflexivity.
Qed.

(** *** Counting the sequences of draws *)

Lemma filter_length_map {A B} (f : B -> bool) (g : A -> B) (l : list A) :
  List.length (filter f (map g l)) = List.length (filter (fun x => f (g x)) l).
Proof.
  induction l as [| x l IH]; [reflexivity |]. cbn [map filter].
  destruct (f (g x)); cbn [List.length]; rewrite IH; reflexivity.
Qed.

Lemma filter_length_ext {A} (f g : A -> bool) (l : list A) :
  (forall x, In x l -> f x = g x) ->
  List.length (filter f l) = List.length (filter g l).
Proof.
  intro H. rewrite (filter_ext_in f g l H). reflexivity.
Qed.

Lemma filter_length_and {A} (b : bool) (h : A -> bool) (l : list A) :
  List.length (filter (fun x => b && h x) l)
  = ((if b then 1 else 0) * List.length (filter h l))%nat.
Proof.
  induction l as [| x l IH]; [destruct b; reflexivity |].
  cbn [filter]. destruct b; cbn [andb] in *; [| exact IH].
  destruct (h x); cbn [List.length]; lia.
Qed.

(** Rounds whose first two draws are judged by [g] and whose other draws
    are judged by [h]. *)
Lemma count_rounds (f h : list Q -> bool) (g : Q -> Q -> bool)
    (R : list (list Q)) (l2 : list Q) :
  (forall a b rest, f (a :: b :: rest) = g a b && h rest) ->
  forall l1 : list Q,
    List.length
      (filter f
         (flat_map
            (fun a => flat_map (fun b => map (fun rest => a :: b :: rest) R) l2)
            l1))
    = (List.length (filter (fun ab => g (fst ab) (snd ab)) (list_prod l1 l2))
       * List.length (filter h R))%nat.
Proof.
  intro Hf.
  assert (inner : forall a l,
             List.length
               (filter f
                  (flat_map (fun b => map (fun rest => a :: b :: rest) R) l))
             = (List.length (filter (fun b => g a b) l)
                * List.length (filter h R))%nat).
  { intros a l. induction l as [| b l IH]; [reflexivity |].
    cbn [flat_map]. rewrite filter_app, length_app, IH, filter_length_map.
    rewrite (filter_length_ext _ (fun rest => g a b && h rest))
      by (intros; apply Hf).
    rewrite filter_length_and. cbn [filter].
    destruct (g a b); cbn [List.length]; lia. }
  induction l1 as [| a l1 IH]; [reflexivity |].
  cbn [flat_map list_prod]. rewrite !filter_app, !length_app, IH, inner.
  rewrite filter_length_map. cbn [fst snd]. lia.
Qed.

(** Pairs on which two tests agree. *)
Lemma count_agreeing (f1 f2 : Q -> bool) (l2 : list Q) :
  forall l1 : list Q,
    Z.of_nat
      (List.length
         (filter (fun ab => negb (xorb (f1 (fst ab)) (f2 (snd ab))))
            (list_prod l1 l2)))
    = Z.of_nat (List.length (filter f1 l1)) * Z.of_nat (List.length (filter f2 l2))
      + (Z.of_nat (List.length l1) - Z.of_nat (List.length (filter f1 l1)))
        * (Z.of_nat (List.length l2) - Z.of_nat (List.length (filter f2 l2))).
Proof.
  assert (inner : forall (v : bool) l,
             Z.of_nat (List.length (filter (fun b => negb (xorb v (f2 b))) l))
             = if v then Z.of_nat (List.length (filter f2 l))
               else Z.of_nat (List.length l)
                    - Z.of_nat (List.length (filter f2 l))).
  { intros v l. induction l as [| b l IH]; [destruct v; reflexivity |].
    cbn [filter]. destruct v, (f2 b); cbn [xorb negb List.length] in *; lia. }
  induction l1 as [| a l1 IH]; [cbn; lia |].
  cbn [list_prod]. rewrite filter_app, length_app, Nat2Z.inj_add, IH.
  rewrite filter_length_map. cbn [fst snd]. rewrite inner.
  cbn [filter]. destruct (f1 a); cbn [List.length]; lia.
Qed.

Lemma filter_length_le {A} (f g : A -> bool) (l : list A) :
  (forall x, In x l -> g x = true -> f x = true) ->
  (List.length (filter g l) <= List.length (filter f l))%nat.
Proof.
  induction l as [| x l IH]; intro H; [reflexivity |].
  cbn [filter]. specialize (IH (fun y Hy => H y (or_intror Hy))).
  pose proof (H x (or_introl eq_refl)) as Hx.
  destruct (g x); [rewrite (Hx eq_refl) |]; [| destruct (f x)];
    cbn [List.length]; lia.
Qed.

(** How many of [0 .. N-1] lie below a tenth of [M]. *)
Lemma count_below (M : Z) (N : nat) :
  let count :=
    Z.of_nat (List.length (filter (fun k => 10 * Z.of_nat k <? M) (seq 0 N))) in
  count <= Z.of_nat N
  /\ Z.min (10 * Z.of_nat N) M <= 10 * count
  /\ (0 <= M -> 10 * count <= M + 9).
Proof.
  induction N as [| N IH]; [cbn; lia |].
  cbv zeta in *. rewrite seq_S, filter_app, length_app. cbn [filter Nat.add].
  destruct (10 * Z.of_nat N <? M) eqn:E; cbn [List.length].
  - apply Z.ltb_lt in E. lia.
  - apply Z.ltb_ge in E. lia.
Qed.

Lemma grid_denominator (N : nat) :
  (0 < N)%nat -> Z.pos (Pos.of_nat N) = Z.of_nat N.
Proof.
  intro H. rewrite <- positive_nat_Z, Nat2Pos.id by lia. reflexivity.
Qed.

Lemma grid_draw (p : Q) (N k : nat) :
  (k < N)%nat ->
  scores p (Z.of_nat k # Pos.of_nat N) = Qltb (Z.of_nat k # Pos.of_nat N) p.
Proof.
  intro H. unfold scores, Qltb.
  assert (F : Qfloor (Z.of_nat k # Pos.of_nat N) = 0).
  { cbn [Qfloor]. rewrite grid_denominator by lia. apply Z.div_small. lia. }
  rewrite F.
  assert (Q0 : ((Z.of_nat k # Pos.of_nat N) - inject_Z 0
                == (Z.of_nat k # Pos.of_nat N))%Q) by (unfold inject_Z; ring).
  rewrite Q0. reflexivity.
Qed.

(** With a success probability between 0.6 and 0.9, between six and about
    nine in ten of the draws of a grid score. *)
Lemma grid_scores (p : Q) (N : nat) :
  ((6 # 10) <= p)%Q -> (p <= (9 # 10))%Q ->
  let count := Z.of_nat (List.length (filter (scores p) (grid N))) in
  6 * Z.of_nat N <= 10 * count <= 9 * Z.of_nat N + 9.
Proof.
  intros Hlo Hhi. cbv zeta. unfold grid. rewrite filter_length_map.
  pose proof (count_below (6 * Z.of_nat N) N) as (_ & L & _).
  pose proof (count_below (9 * Z.of_nat N) N) as (_ & _ & U).
  cbv zeta in L, U.
  assert (A : Nat.le
                (List.length
                   (filter (fun k => 10 * Z.of_nat k <? 6 * Z.of_nat N) (seq 0 N)))
                (List.length
                   (filter (fun k => scores p (Z.of_nat k # Pos.of_nat N))
                      (seq 0 N)))).
  { apply filter_length_le. intros k Hk Hb. apply in_seq in Hk.
    rewrite grid_draw by lia. apply Qltb_lt. apply Z.ltb_lt in Hb.
    apply Qlt_le_trans with (6 # 10)%Q; [| exact Hlo].
    unfold Qlt. cbn [Qnum Qden]. rewrite grid_denominator by lia. lia. }
  assert (B : Nat.le
                (List.length
                   (filter (fun k => scores p (Z.of_nat k # Pos.of_nat N))
                      (seq 0 N)))
                (List.length
                   (filter (fun k => 10 * Z.of_nat k <? 9 * Z.of_nat N)
                      (seq 0 N)))).
  { apply filter_length_le. intros k Hk Hb. apply in_seq in Hk.
    rewrite grid_draw in Hb by lia. apply Qltb_lt in Hb. apply Z.ltb_lt.
    assert (Hq : ((Z.of_nat k # Pos.of_nat N) < 9 # 10)%Q)
      by (apply Qlt_le_trans with p; assumption).
    unfold Qlt in Hq. cbn [Qnum Qden] in Hq.
    rewrite grid_denominator in Hq by lia. lia. }
  unfold Nat.le in A, B. lia.
Qed.

Lemma grid_length (N : nat) : List.length (grid N) = N.
Proof. unfold grid. rewrite length_map, length_seq. reflexivity. Qed.

(** Of the pairs of draws of a grid of at least 100 points, at most 84 in
    100 leave a round level. *)
Lemma level_pairs (p1 p2 : Q) (N : nat) :
  ((6 # 10) <= p1)%Q -> (p1 <= (9 # 10))%Q ->
  ((6 # 10) <= p2)%Q -> (p2 <= (9 # 10))%Q ->
  (100 <= N)%nat ->
  100 * Z.of_nat
          (List.length
             (filter (fun ab => negb (xorb (scores p1 (fst ab)) (scores p2 (snd ab))))
                (list_prod (grid N) (grid N))))
  <= 84 * (Z.of_nat N * Z.of_nat N).
Proof.
  intros L1 U1 L2 U2 HN. rewrite count_agreeing, !grid_length.
  pose proof (grid_scores p1 N L1 U1) as A. pose proof (grid_scores p2 N L2 U2) as B.
  cbv zeta in A, B.
  set (a := Z.of_nat (List.length (filter (scores p1) (grid N)))) in *.
  set (b := Z.of_nat (List.length (filter (scores p2) (grid N)))) in *.
  set (n := Z.of_nat N) in *.
  assert (Hn : 100 <= n) by (unfold n; lia).
  assert (S1 : 0 <= (9 * n + 9 - 10 * a) * (2 * b - n)) by (apply Z.mul_nonneg_nonneg; lia).
  assert (S2 : 0 <= (9 * n + 9 - 10 * b) * (8 * n + 18)) by (apply Z.mul_nonneg_nonneg; lia).
  nia.
Qed.

Lemma filter_all {A} (l : list A) : filter (fun _ => true) l = l.
Proof.
  induction l as [| x l IH]; [reflexivity |]. cbn. rewrite IH. reflexivity.
Qed.

Lemma draws_for_length (N n : nat) :
  List.length (draws_for N n) = ((N * N) ^ n)%nat.
Proof.
  induction n as [| n IH]; [reflexivity |].
  pose proof (count_rounds (fun _ => true) (fun _ => true) (fun _ _ => true)
                (draws_for N n) (grid N) (fun _ _ _ => eq_refl) (grid N)) as H.
  rewrite !filter_all in H. cbn [draws_for]. rewrite H.
  rewrite length_prod, grid_length, IH. cbn [Nat.pow]. reflexivity.
Qed.

Lemma undecided_count (p1 p2 : Q) (s : Shootout) (N n : nat) :
  t1 s = t2 s ->
  List.length (filter (undecided p1 p2 s n) (draws_for N n))
  = (List.length
       (filter (fun ab => negb (xorb (scores p1 (fst ab)) (scores p2 (snd ab))))
          (list_prod (grid N) (grid N))) ^ n)%nat.
Proof.
  intro H. induction n as [| n IH].
  - cbn [draws_for filter]. rewrite (undecided_nil _ _ _ H). reflexivity.
  - cbn [draws_for].
    rewrite (count_rounds (undecided p1 p2 s (S n)) (undecided p1 p2 s n)
               (fun a b => negb (xorb (scores p1 a) (scores p2 b))))
      by (intros; apply undecided_cons; exact H).
    rewrite IH. cbn [Nat.pow fst snd]. reflexivity.
Qed.

(** Of the equally likely sequences of draws for [n] rounds of sudden
    death, at most [(84/100)^n] leave the shootout undecided. *)
Lemma undecided_share (p1 p2 : Q) (s : Shootout) (N n : nat) :
  ((6 # 10) <= p1)%Q -> (p1 <= (9 # 10))%Q ->
  ((6 # 10) <= p2)%Q -> (p2 <= (9 # 10))%Q ->
  (100 <= N)%nat -> t1 s = t2 s ->
  100 ^ Z.of_nat n
  * Z.of_nat (List.length (filter (undecided p1 p2 s n) (draws_for N n)))
  <= 84 ^ Z.of_nat n * Z.of_nat (List.length (draws_for N n)).
Proof.
  intros L1 U1 L2 U2 HN H.
  rewrite (undecided_count p1 p2 s N n H), draws_for_length, !Nat2Z.inj_pow.
  rewrite Nat2Z.inj_mul, <- !Z.pow_mul_l.
  apply Z.pow_le_mono_l. split; [lia |].
  apply level_pairs; assumption.
Qed.

(** Every four more rounds at least halve the share of the sequences that
    leave the shootout undecided. *)
Lemma undecided_halves (p1 p2 : Q) (s : Shootout) (N k : nat) :
  ((6 # 10) <= p1)%Q -> (p1 <= (9 # 10))%Q ->
  ((6 # 10) <= p2)%Q -> (p2 <= (9 # 10))%Q ->
  (100 <= N)%nat -> t1 s = t2 s ->
  2 ^ Z.of_nat k
  * Z.of_nat
      (List.length (filter (undecided p1 p2 s (4 * k)) (draws_for N (4 * k))))
  <= Z.of_nat (List.length (draws_for N (4 * k))).
Proof.
  intros L1 U1 L2 U2 HN H.
  pose proof (undecided_share p1 p2 s N (4 * k) L1 U1 L2 U2 HN H) as B.
  set (u := Z.of_nat
              (List.length
                 (filter (undecided p1 p2 s (4 * k)) (draws_for N (4 * k))))) in *.
  set (total := Z.of_nat (List.length (draws_for N (4 * k)))) in *.
  assert (Hu : 0 <= u) by (unfold u; lia).
  assert (Ht : 0 <= total) by (unfold total; lia).
  rewrite Nat2Z.inj_mul in B. change (Z.of_nat 4) with 4 in B.
  rewrite !Z.pow_mul_r in B by lia.
  change (100 ^ 4) with 100000000 in B. change (84 ^ 4) with 49787136 in B.
  assert (P : 0 < 2 ^ Z.of_nat k) by (apply Z.pow_pos_nonneg; lia).
  assert (G : 2 ^ Z.of_nat k * 49787136 ^ Z.of_nat k <= 100000000 ^ Z.of_nat k).
  { rewrite <- Z.pow_mul_l. apply Z.pow_le_mono_l. lia. }
  assert (P100 : 0 < 100000000 ^ Z.of_nat k) by (apply Z.pow_pos_nonneg; lia).
  assert (P84 : 0 <= 49787136 ^ Z.of_nat k) by (apply Z.pow_nonneg; lia).
  apply (Z.mul_le_mono_pos_l _ _ (100000000 ^ Z.of_nat k) P100).
  set (a := 100000000 ^ Z.of_nat k) in *. set (e := 49787136 ^ Z.of_nat k) in *.
  set (t := 2 ^ Z.of_nat k) in *.
  assert (S1 : t * (a * u) <= t * (e * total))
    by (apply Z.mul_le_mono_nonneg_l; lia).
  assert (S2 : t * e * total <= a * total)
    by (apply Z.mul_le_mono_nonneg_r; lia).
  lia.
Qed.

Lemma level_rounds_false (p1 p2 : Q) (tp : Tape) (n : nat) :
  forall c : nat,
    level_rounds p1 p2 tp c n = false ->
    exists k : nat,
      (k < n)%nat
      /\ (forall j, (j < k)%nat -> decisive p1 p2 tp (2 * j + c)%nat = false)
      /\ decisive p1 p2 tp (2 * k + c)%nat = true.
Proof.
  induction n as [| n IH]; intros c H; [discriminate H |].
  cbn [level_rounds] in H. destruct (decisive p1 p2 tp c) eqn:D.
  - exists 0%nat. split; [lia |]. split; [intros j Hj; lia | exact D].
  - cbn [negb andb] in H. destruct (IH _ H) as (k & Hk & Hbefore & Hat).
    exists (S k). split; [lia |]. split.
    + intros [| j] Hj; [exact D |].
      replace (2 * S j + c)%nat with (2 * j + S (S c))%nat by lia.
      apply Hbefore. lia.
    + replace (2 * S k + c)%nat with (2 * k + S (S c))%nat by lia. exact Hat.
Qed.

(** Once the draws of [n] rounds have decided the shootout, it returns
    whatever fuel is left, having read none but these draws. *)
Lemma decided_returns (p1 p2 : Q) (s : Shootout) (n : nat) (draws : list Q) :
  t1 s = t2 s ->
  undecided p1 p2 s n draws = false ->
  forall fuel : nat,
    (n < fuel)%nat ->
    exists s' c',
      sudden_death fuel p1 p2 s (tape_of draws) 0%nat = Ret s' c'
      /\ t1 s' <> t2 s' /\ (c' <= 2 * n)%nat.
Proof.
  intros H U fuel Hfuel. unfold undecided in U.
  rewrite sudden_death_undecided in U by exact H.
  destruct (level_rounds_false _ _ _ _ _ U) as (k & Hk & Hbefore & Hat).
  destruct (sudden_death_stops p1 p2 (tape_of draws) k fuel s 0%nat H Hbefore Hat
              ltac:(lia)) as (s' & Hrun & Hdiff).
  exists s', (2 * (k + 1) + 0)%nat. split; [exact Hrun |].
  split; [exact Hdiff | lia].
Qed.

Lemma goals_in_add (p : Q) (tp : Tape) (a b : nat) :
  forall c : nat,
    goals_in p tp c (a + b) = goals_in p tp c a + goals_in p tp (2 * a + c)%nat b.
Proof.
  induction a as [| a IH]; intro c; [cbn; lia |].
  cbn [Nat.add goals_in]. rewrite IH.
  replace (2 * a + S (S c))%nat with (2 * S a + c)%nat by lia. lia.
Qed.

(** What sudden death returns: after some number of rounds, each tally
    raised by the kicks of its side that went in. *)
Lemma sudden_death_rounds (p1 p2 : Q) (tp : Tape) (fuel : nat) :
  forall (s s' : Shootout) (c c' : nat),
    sudden_death fuel p1 p2 s tp c = Ret s' c' ->
    exists k : nat,
      c' = (2 * k + c)%nat
      /\ t1 s' = t1 s + goals_in p1 tp c k
      /\ t2 s' = t2 s + goals_in p2 tp (S c) k.
Proof.
  induction fuel as [| fuel IH]; intros s s' c c' H; [discriminate H |].
  cbn [sudden_death] in H. destruct (t1 s =? t2 s).
  - rewrite (bind_run _ _ _ _ _ _ (penalty_pair_run p1 p2 s tp c)) in H.
    apply IH in H. destruct H as (k & -> & H1 & H2). cbn [t1 t2] in H1, H2.
    exists (S k). split; [lia |]. cbn [goals_in].
    destruct (scores p1 (tp c)), (scores p2 (tp (S c))); lia.
  - apply ret_Ret in H. destruct H as [<- <-]. exists 0%nat. cbn. lia.
Qed.

(** ** Knockout resolution and the winner *)

Lemma knockout_resolution_Ret (fuel : nat) (team1_data team2_data : Team)
    (detailed : bool) (base1 base2 : Q) (g1 g2 : Z)
    (evs : list MatchEvent) (gs : list GoalScorer) (res : Resolution) tp c c' :
  knockout_resolution fuel team1_data team2_data detailed base1 base2 g1 g2
    evs gs tp c = Ret res c' ->
  exists e1 e2 evs' gs' cL,
    extra_time_goals base1 tp c = Ret e1 (1 + c)%nat
    /\ extra_time_goals base2 tp (1 + c)%nat = Ret e2 (2 + c)%nat
    /\ 0 <= e1 <= 3 /\ 0 <= e2 <= 3
    /\ (if detailed then
          acc <- for_range (Z.to_nat e1) (extra_time_goal team1_data) (evs, gs) ;;
          for_range (Z.to_nat e2) (extra_time_goal team2_data) acc
        else ret (evs, gs)) tp (2 + c)%nat = Ret (evs', gs') cL
    /\ r_team1_goals res = g1 + e1
    /\ r_team2_goals res = g2 + e2
    /\ r_extra_time res = true
    /\ r_scorers res = gs'
    /\ ((g1 + e1 <> g2 + e2
         /\ r_decided_by res = Some "extra_time"
         /\ r_penalty_score res = None
         /\ r_events res = evs')
        \/ (g1 + e1 = g2 + e2
            /\ r_decided_by res = Some "penalties"
            /\ exists s,
                penalty_shootout fuel (rating team1_data) (rating team2_data)
                  tp cL = Ret s c'
                /\ r_penalty_score res = Some (dash (t1 s) (t2 s))
                /\ t1 s <> t2 s /\ 0 <= t1 s /\ 0 <= t2 s
                /\ r_events res
                   = if detailed
                     then evs' ++ [mkEvent 120 penalties "Both"
                                     ("Shootout " ++ dash (t1 s) (t2 s))%string]
                     else evs')).
Proof.
  unfold knockout_resolution. intro H.
  destruct (extra_time_goals_run base1 tp c) as (e1 & He1 & R1).
  destruct (extra_time_goals_run base2 tp (1 + c)%nat) as (e2 & He2 & R2).
  rewrite (bind_run _ _ _ _ _ _ He1) in H.
  rewrite (bind_run _ _ _ _ _ _ He2) in H.
  apply bind_Ret in H. destruct H as ([evs' gs'] & cL & Hlists & H).
  exists e1, e2, evs', gs', cL.
  repeat (split; [assumption || lia |]).
  cbn [fst snd] in H.
  destruct (g1 + e1 =? g2 + e2) eqn:E; cbn [negb] in H.
  - apply Z.eqb_eq in E.
    apply bind_Ret in H. destruct H as (s & cS & Hs & H).
    apply ret_Ret in H. destruct H as [<- <-]. cbn.
    repeat (split; [reflexivity |]). right.
    repeat (split; [assumption || reflexivity |]).
    exists s. pose proof (penalty_shootout_Ret _ _ _ _ _ _ _ Hs).
    repeat (split; [tauto || reflexivity |]).
    destruct detailed; reflexivity.
  - apply Z.eqb_neq in E. apply ret_Ret in H. destruct H as [<- <-]. cbn.
    repeat (split; [reflexivity |]). left. auto.
Qed.

Lemma pick_winner_Ret (c1 c2 : string) (g1 g2 : Z) (knockout : bool)
    (ps : option string) (w : string) tp c c' :
  pick_winner c1 c2 g1 g2 knockout ps tp c = Ret w c' ->
  (g2 < g1 /\ w = c1)
  \/ (g1 < g2 /\ w = c2)
  \/ (g1 = g2 /\ knockout = false /\ w = "Draw")
  \/ (g1 = g2 /\ knockout = true
      /\ exists b, penalties_favour_team1 ps tp c = Ret b c'
                   /\ w = if b then c1 else c2).
Proof.
  unfold pick_winner. intro H.
  destruct (g1 >? g2) eqn:E1.
  - apply ret_Ret in H. destruct H as [<- _]. left. split; [lia | reflexivity].
  - destruct (g2 >? g1) eqn:E2.
    + apply ret_Ret in H. destruct H as [<- _]. right; left.
      split; [lia | reflexivity].
    + right; right. destruct knockout.
      * right. apply bind_Ret in H. destruct H as (b & cb & Hb & H).
        apply ret_Ret in H. destruct H as [<- <-].
        repeat (split; [lia || reflexivity |]). exists b. auto.
      * left. apply ret_Ret in H. destruct H as [<- _].
        repeat (split; [lia || reflexivity |]). reflexivity.
Qed.

(** ** [simulate_match], step by step *)

Lemma simulate_match_Ret (fuel : nat) (team1_data team2_data : Team)
    (detailed knockout : bool) (r : MatchResult) tp c c' :
  simulate_match fuel team1_data team2_data detailed knockout tp c = Ret r c' ->
  exists base1 base2 g1 g2 tl cT gs cS res cR,
    regulation_goals base1 tp (2 + c)%nat = Ret g1 (3 + c)%nat
    /\ regulation_goals base2 tp (3 + c)%nat = Ret g2 (4 + c)%nat
    /\ 0 <= g1 <= 7 /\ 0 <= g2 <= 7
    /\ (if detailed then
          timeline_loop fuel team1_data team2_data g1 g2
            (mkTimeline 0 (fun _ => 0) [] [])
        else ret (mkTimeline 0 (fun _ => 0) [] [])) tp (4 + c)%nat = Ret tl cT
    /\ (if negb detailed then
          acc <- for_range (Z.to_nat g1) (basic_scorer team1_data) (scorers tl) ;;
          for_range (Z.to_nat g2) (basic_scorer team2_data) acc
        else ret (scorers tl)) tp cT = Ret gs cS
    /\ (if knockout && (g1 =? g2) then
          knockout_resolution fuel team1_data team2_data detailed base1 base2
            g1 g2 (sort_events (match_events tl)) gs
        else
          ret (mkResolution g1 g2 (sort_events (match_events tl)) gs
                 None None false)) tp cS = Ret res cR
    /\ pick_winner (country team1_data) (country team2_data)
         (r_team1_goals res) (r_team2_goals res) knockout (r_penalty_score res)
         tp cR = Ret (winner r) c'
    /\ r = mkResult (country team1_data) (country team2_data)
             (dash (r_team1_goals res) (r_team2_goals res))
             (r_team1_goals res) (r_team2_goals res) (winner r)
             (r_events res) (r_scorers res)
             (r_decided_by res) (r_penalty_score res) (r_extra_time res).
Proof.
  unfold simulate_match. intro H.
  destruct (base_goals_run ((rating team1_data - rating team2_data) / 20) tp c)
    as (b1 & Hb1 & Hlo1).
  destruct (base_goals_run (- ((rating team1_data - rating team2_data) / 20))
              tp (1 + c)%nat) as (b2 & Hb2 & Hlo2).
  destruct (regulation_goals_run b1 tp (2 + c)%nat Hlo1) as (g1 & Hg1 & R1).
  destruct (regulation_goals_run b2 tp (3 + c)%nat Hlo2) as (g2 & Hg2 & R2).
  rewrite (bind_run _ _ _ _ _ _ Hb1) in H.
  rewrite (bind_run _ _ _ _ _ _ Hb2) in H.
  rewrite (bind_run _ _ _ _ _ _ Hg1) in H.
  rewrite (bind_run _ _ _ _ _ _ Hg2) in H.
  apply bind_Ret in H. destruct H as (tl & cT & Htl & H).
  apply bind_Ret in H. destruct H as (gs & cS & Hgs & H).
  apply bind_Ret in H. destruct H as (res & cR & Hres & H).
  apply bind_Ret in H. destruct H as (w & cW & Hw & H).
  apply ret_Ret in H. destruct H as [<- <-].
  exists b1, b2, g1, g2, tl, cT, gs, cS, res, cR.
  repeat (split; [assumption || lia |]).
  reflexivity.
Qed.

(** Every returned result comes from one of three paths: settled after 90
    minutes, settled by extra time, settled by the shootout. *)
Lemma simulate_match_paths (fuel : nat) (team1_data team2_data : Team)
    (detailed knockout : bool) (r : MatchResult) tp c c' :
  simulate_match fuel team1_data team2_data detailed knockout tp c = Ret r c' ->
  exists base1 base2 g1 g2,
    regulation_goals base1 tp (2 + c)%nat = Ret g1 (3 + c)%nat
    /\ regulation_goals base2 tp (3 + c)%nat = Ret g2 (4 + c)%nat
    /\ 0 <= g1 <= 7 /\ 0 <= g2 <= 7
    /\ (((knockout = false \/ g1 <> g2)
         /\ team1_goals r = g1 /\ team2_goals r = g2
         /\ decided_by r = None /\ penalty_score r = None
         /\ extra_time r = false
         /\ winner r = (if g1 >? g2 then country team1_data
                        else if g2 >? g1 then country team2_data
                        else "Draw"))
        \/ (knockout = true /\ g1 = g2
            /\ exists cE e1 e2,
                extra_time_goals base1 tp cE = Ret e1 (1 + cE)%nat
                /\ extra_time_goals base2 tp (1 + cE)%nat = Ret e2 (2 + cE)%nat
                /\ 0 <= e1 <= 3 /\ 0 <= e2 <= 3
                /\ team1_goals r = g1 + e1 /\ team2_goals r = g2 + e2
                /\ extra_time r = true
                /\ ((e1 <> e2
                     /\ decided_by r = Some "extra_time"
                     /\ penalty_score r = None
                     /\ winner r = (if e1 >? e2 then country team1_data
                                    else country team2_data))
                    \/ (e1 = e2
                        /\ decided_by r = Some "penalties"
                        /\ exists a b,
                            penalty_score r = Some (dash a b)
                            /\ 0 <= a /\ 0 <= b /\ a <> b
                            /\ winner r = (if a >? b then country team1_data
                                           else country team2_data))))).
Proof.
  intro H. apply simulate_match_Ret in H.
  destruct H as (b1 & b2 & g1 & g2 & tl & cT & gs & cS & res & cR
                 & Hg1 & Hg2 & R1 & R2 & _ & _ & Hres & Hw & Hr).
  exists b1, b2, g1, g2. repeat (split; [assumption || lia |]).
  apply pick_winner_Ret in Hw.
  destruct (knockout && (g1 =? g2)) eqn:K.
  - apply andb_true_iff in K. destruct K as [-> K]. apply Z.eqb_eq in K.
    right. repeat (split; [assumption || reflexivity |]).
    apply knockout_resolution_Ret in Hres.
    destruct Hres as (e1 & e2 & evs' & gs' & cL & He1 & He2 & Q1 & Q2 & _
                      & T1 & T2 & X & _ & Hcase).
    exists cS, e1, e2. rewrite Hr. cbn [team1_goals team2_goals extra_time
      decided_by penalty_score winner].
    repeat (split; [assumption || lia |]).
    destruct Hcase as [(Hne & D & P & _) | (Heq & D & s & Hs & P & Hd & Ha & Hb & _)].
    + left. repeat (split; [assumption || lia |]).
      destruct Hw as [(L & W) | [(L & W) | [(L & Kf & _) | (L & _)]]];
        try discriminate; try lia.
      * rewrite W. replace (e1 >? e2) with true by (symmetry; lia). reflexivity.
      * rewrite W. replace (e1 >? e2) with false by (symmetry; lia). reflexivity.
    + right. repeat (split; [assumption || lia |]).
      exists (t1 s), (t2 s). repeat (split; [assumption || lia |]).
      destruct Hw as [(L & W) | [(L & W) | [(L & Kf & _) | (L & _ & b & Hb' & W)]]];
        try discriminate; try lia.
      rewrite P in Hb'. rewrite (penalties_favour_team1_dash _ _ tp cR Ha Hb) in Hb'.
      inversion Hb'; subst b. exact W.
  - left. apply ret_Ret in Hres. destruct Hres as [<- _].
    cbn [r_team1_goals r_team2_goals r_penalty_score] in Hw.
    rewrite Hr. cbn [team1_goals team2_goals extra_time decided_by
      penalty_score winner r_team1_goals r_team2_goals r_decided_by
      r_penalty_score r_extra_time].
    split.
    + apply andb_false_iff in K. destruct K as [K | K]; [left; exact K |].
      right. apply Z.eqb_neq. exact K.
    + repeat (split; [reflexivity |]).
      destruct Hw as [(L & W) | [(L & W) | [(L & Kf & W) | (L & Kt & _)]]].
      * rewrite W. replace (g1 >? g2) with true by (symmetry; lia). reflexivity.
      * rewrite W. replace (g1 >? g2) with false by (symmetry; lia).
        replace (g2 >? g1) with true by (symmetry; lia). reflexivity.
      * rewrite W. replace (g1 >? g2) with false by (symmetry; lia).
        replace (g2 >? g1) with false by (symmetry; lia). reflexivity.
      * subst knockout. apply andb_false_iff in K. destruct K as [K | K];
          [discriminate |]. apply Z.eqb_neq in K. lia.
Qed.

(** ** Simulations that return *)

Lemma random_choice_run {A} (l : list A) tp c :
  l <> [] -> exists x, random_choice l tp c = Ret x (S c).
Proof.
  intro H. destruct l as [| a l]; [congruence |].
  unfold random_choice, bind, draw, ret. eexists. reflexivity.
Qed.

Lemma random_randint_run (a b : Z) tp c :
  random_randint a b tp c = Ret (a + Qfloor (tp c) mod (b - a + 1)) (S c).
Proof. reflexivity. Qed.

Lemma existsb_filter {A} (f : A -> bool) (l : list A) :
  existsb f l = true -> filter f l <> [].
Proof.
  induction l as [| a l IH]; cbn; [discriminate |].
  destruct (f a); [discriminate | exact IH].
Qed.

Lemma fielded_picks (t : Team) :
  fielded t = true ->
  filter is_AT_or_MD (squad t) <> [] /\ filter is_GK (squad t) <> []
  /\ squad t <> [].
Proof.
  unfold fielded. rewrite andb_true_iff. intros [H1 H2].
  repeat split; try (apply existsb_filter; assumption).
  destruct (squad t); [discriminate | discriminate].
Qed.

(** The timeline needs at most one turn of its loop for every two minutes
    left on the clock, and one more to see that it is over. *)
Lemma timeline_loop_returns (team1_data team2_data : Team) (target1 target2 : Z) :
  fielded team1_data = true -> fielded team2_data = true ->
  forall (fuel : nat) (st : Timeline) tp c,
    current_minute st <= 90 ->
    91 - current_minute st <= 2 * Z.of_nat fuel ->
    exists st' c',
      timeline_loop fuel team1_data team2_data target1 target2 st tp c
      = Ret st' c'.
Proof.
  intros F1 F2.
  destruct (fielded_picks _ F1) as (A1 & K1 & S1).
  destruct (fielded_picks _ F2) as (A2 & K2 & S2).
  induction fuel as [| fuel IH]; intros st tp c Hcm Hfuel; [lia |].
  cbn [timeline_loop].
  destruct ((current_minute st <? 90)
            && ((goals_scored st (country team1_data) <? target1)
                || (goals_scored st (country team2_data) <? target2)));
    [| eexists; eexists; reflexivity].
  rewrite (bind_run _ _ _ _ _ _ (random_randint_run 2 10 tp c)).
  pose proof (Z.mod_pos_bound (Qfloor (tp c)) (10 - 2 + 1) ltac:(lia)) as Hstep.
  set (step := 2 + Qfloor (tp c) mod (10 - 2 + 1)) in *.
  destruct (current_minute st + step >? 90) eqn:E;
    [eexists; eexists; reflexivity |].
  assert (Hnext : forall st1, current_minute st1 = current_minute st + step ->
            exists st' c',
              timeline_loop fuel team1_data team2_data target1 target2 st1 tp
                (S (S (S (S c)))) = Ret st' c').
  { intros st1 Hst1. apply IH; rewrite Hst1; subst step; lia. }
  assert (Hnext3 : forall st1, current_minute st1 = current_minute st + step ->
            exists st' c',
              timeline_loop fuel team1_data team2_data target1 target2 st1 tp
                (S (S (S c))) = Ret st' c').
  { intros st1 Hst1. apply IH; rewrite Hst1; subst step; lia. }
  destruct (random_choice_run [team1_data; team2_data] tp (S c) ltac:(discriminate))
    as (attacking & Hatt).
  rewrite (bind_run _ _ _ _ _ _ Hatt).
  apply random_choice_pair in Hatt as Hwho.
  assert (Hdef : (if Team_eqb attacking team1_data then team2_data else team1_data)
                 = team1_data
                 \/ (if Team_eqb attacking team1_data then team2_data else team1_data)
                    = team2_data)
    by (destruct (Team_eqb attacking team1_data); auto).
  assert (HA : filter is_AT_or_MD (squad attacking) <> [])
    by (destruct Hwho as [-> | ->]; assumption).
  assert (HS : squad attacking <> [])
    by (destruct Hwho as [-> | ->]; assumption).
  assert (HK : filter is_GK
                 (squad (if Team_eqb attacking team1_data
                         then team2_data else team1_data)) <> [])
    by (destruct Hdef as [-> | ->]; assumption).
  unfold random_random at 1.
  rewrite (bind_run _ _ (tp) (S (S c)) _ (S (S (S c))) eq_refl).
  match goal with
  | |- context [Qltb ?roll (1 # 10)] => set (event_roll := roll)
  end.
  destruct (Qltb event_roll (1 # 10)
            && (goals_scored st (country attacking)
                <? (if Team_eqb attacking team1_data then target1 else target2))).
  { destruct (random_choice_run _ tp (S (S (S c))) HA) as (x & Hx).
    rewrite (bind_run _ _ _ _ _ _ Hx). apply Hnext. reflexivity. }
  destruct (Qltb event_roll (2 # 10)).
  { destruct (random_choice_run _ tp (S (S (S c))) HK) as (x & Hx).
    rewrite (bind_run _ _ _ _ _ _ Hx). apply Hnext. reflexivity. }
  destruct (Qltb event_roll (3 # 10)).
  { destruct (random_choice_run _ tp (S (S (S c))) HA) as (x & Hx).
    rewrite (bind_run _ _ _ _ _ _ Hx). apply Hnext. reflexivity. }
  destruct (Qltb event_roll (4 # 10)).
  { destruct (random_choice_run _ tp (S (S (S c))) HS) as (x & Hx).
    rewrite (bind_run _ _ _ _ _ _ Hx). apply Hnext. reflexivity. }
  apply Hnext3. reflexivity.
Qed.

Lemma basic_scorers_return (t : Team) (n : nat) :
  fielded t = true ->
  forall (gs : list GoalScorer) tp c,
    exists gs' c', for_range n (basic_scorer t) gs tp c = Ret gs' c'.
Proof.
  intro F. destruct (fielded_picks _ F) as (A & _ & _).
  induction n as [| n IH]; intros gs tp c; cbn [for_range].
  - eexists. eexists. reflexivity.
  - assert (Hone : exists g, basic_scorer t gs tp c = Ret g (S (S c))).
    { unfold basic_scorer. destruct (random_choice_run _ tp c A) as (x & Hx).
      rewrite (bind_run _ _ _ _ _ _ Hx).
      rewrite (bind_run _ _ _ _ _ _ (random_randint_run 5 85 tp (S c))).
      eexists. reflexivity. }
    destruct Hone as (g & Hg). rewrite (bind_run _ _ _ _ _ _ Hg). apply IH.
Qed.

(** A non-knockout simulation between two fielded teams returns whatever
    the draws; 46 turns of the timeline loop are enough. *)
Lemma non_knockout_returns (fuel : nat) (team1_data team2_data : Team)
    (detailed : bool) tp c :
  fielded team1_data = true -> fielded team2_data = true ->
  (detailed = true -> (46 <= fuel)%nat) ->
  exists r c',
    simulate_match fuel team1_data team2_data detailed false tp c = Ret r c'.
Proof.
  intros F1 F2 Hfuel. unfold simulate_match.
  destruct (base_goals_run ((rating team1_data - rating team2_data) / 20) tp c)
    as (b1 & Hb1 & Hlo1).
  destruct (base_goals_run (- ((rating team1_data - rating team2_data) / 20))
              tp (1 + c)%nat) as (b2 & Hb2 & Hlo2).
  destruct (regulation_goals_run b1 tp (2 + c)%nat Hlo1) as (g1 & Hg1 & R1).
  destruct (regulation_goals_run b2 tp (3 + c)%nat Hlo2) as (g2 & Hg2 & R2).
  rewrite (bind_run _ _ _ _ _ _ Hb1), (bind_run _ _ _ _ _ _ Hb2).
  rewrite (bind_run _ _ _ _ _ _ Hg1), (bind_run _ _ _ _ _ _ Hg2).
  cbn [andb].
  destruct detailed; cbn [negb].
  - destruct (timeline_loop_returns team1_data team2_data g1 g2 F1 F2 fuel
                (mkTimeline 0 (fun _ => 0) [] []) tp (4 + c)%nat)
      as (tl & cT & Htl);
      [cbn [current_minute]; lia
      | cbn [current_minute]; specialize (Hfuel eq_refl); lia |].
    rewrite (bind_run _ _ _ _ _ _ Htl).
    unfold pick_winner, bind, ret. cbn [r_team1_goals r_team2_goals].
    destruct (g1 >? g2); [eexists; eexists; reflexivity |].
    destruct (g2 >? g1); eexists; eexists; reflexivity.
  - unfold ret at 1. unfold bind at 1.
    destruct (basic_scorers_return team1_data (Z.to_nat g1) F1 [] tp (4 + c)%nat)
      as (gs1 & c1 & H1).
    destruct (basic_scorers_return team2_data (Z.to_nat g2) F2 gs1 tp c1)
      as (gs2 & c2 & H2).
    cbn [scorers].
    rewrite (bind_run _ _ _ _ _ _ (eq_trans (bind_run _ _ _ _ _ _ H1) H2)).
    unfold pick_winner, bind, ret. cbn [r_team1_goals r_team2_goals].
    destruct (g1 >? g2); [eexists; eexists; reflexivity |].
    destruct (g2 >? g1); eexists; eexists; reflexivity.
Qed.





(** ** The winner *)

(** C8. A non-knockout simulation between two fielded teams returns a
    result whatever the draws, and in every result it returns level goal
    counts give the winner ["Draw"] and different goal counts give the team
    with more goals; so, ["Draw"] being no team's own name, the winner is
    ["Draw"] if and only if [team1_goals = team2_goals]. *)
Theorem C8_non_knockout_draw_iff_level :
  forall (fuel : nat) (team1_data team2_data : Team) (detailed : bool)
         (tp : Tape) (c : nat),
    (fielded team1_data = true -> fielded team2_data = true ->
     (detailed = true -> (46 <= fuel)%nat) ->
     exists r c',
       simulate_match fuel team1_data team2_data detailed false tp c = Ret r c')
    /\ forall (r : MatchResult) (c' : nat),
        simulate_match fuel team1_data team2_data detailed false tp c = Ret r c' ->
        (team1_goals r = team2_goals r -> winner r = "Draw")
        /\ (team2_goals r < team1_goals r -> winner r = country team1_data)
        /\ (team1_goals r < team2_goals r -> winner r = country team2_data)
        /\ (country team1_data <> "Draw" -> country team2_data <> "Draw" ->
            (winner r = "Draw" <-> team1_goals r = team2_goals r)).
Proof.
  intros fuel team1_data team2_data detailed tp c.
  split; [apply non_knockout_returns |].
  intros r c' H.
  apply simulate_match_paths in H.
  destruct H as (b1 & b2 & g1 & g2 & _ & _ & _ & _ & Hpath).
  destruct Hpath as [(_ & T1 & T2 & _ & _ & _ & W) | (K & _)]; [| discriminate].
  rewrite T1, T2, W.
  destruct (g1 >? g2) eqn:E1; [| destruct (g2 >? g1) eqn:E2].
  - repeat split; try (intros; lia); try reflexivity.
    + intro Hd; congruence.
  - repeat split; try (intros; lia); try reflexivity.
    + intro Hd; congruence.
  - repeat split; try (intros; lia); try reflexivity.
Qed.

Lemma C8_non_knockout_draw_iff_level_witness :
  (exists r c',
      simulate_match 46 ghana mali true false tape_alternating 0%nat = Ret r c')
  /\ exists r c',
      simulate_match 1 ghana mali false false tape_one_all 0%nat = Ret r c'
      /\ team1_goals r = 1 /\ team2_goals r = 1
      /\ (winner r = "Draw" <-> team1_goals r = team2_goals r).
Proof.
  split.
  - destruct (C8_non_knockout_draw_iff_level 46%nat ghana mali true
                tape_alternating 0%nat) as [H _].
    apply H; [reflexivity | reflexivity | intros _; lia].
  - eexists. eexists. split; [vm_compute; reflexivity |].
    split; [reflexivity |]. split; [reflexivity |].
    destruct (C8_non_knockout_draw_iff_level 1%nat ghana mali false
                tape_one_all 0%nat) as [_ H].
    apply (H _ 8%nat); [vm_compute; reflexivity | discriminate | discriminate].
Defined.



(** ** The decision mode *)

(** C5, as amended. The returned [decided_by] is never ["regulation"]: it
    is [None] for a match settled after 90 minutes, that is for every
    non-knockout match and for every knockout match whose regulation goal
    counts differ; it is ["extra_time"] when extra time was played and left
    the totals different, and ["penalties"] when extra time was played and
    left them level. *)
Theorem C5_decision_mode :
  forall (fuel : nat) (team1_data team2_data : Team) (detailed knockout : bool)
         (r : MatchResult) (tp : Tape) (c c' : nat),
    simulate_match fuel team1_data team2_data detailed knockout tp c = Ret r c' ->
    decided_by r <> Some "regulation"
    /\ ((extra_time r = false /\ decided_by r = None)
        \/ (extra_time r = true /\ team1_goals r <> team2_goals r
            /\ decided_by r = Some "extra_time")
        \/ (extra_time r = true /\ team1_goals r = team2_goals r
            /\ decided_by r = Some "penalties"))
    /\ (knockout = false -> decided_by r = None)
    /\ exists base1 base2 g1 g2,
        regulation_goals base1 tp (2 + c)%nat = Ret g1 (3 + c)%nat
        /\ regulation_goals base2 tp (3 + c)%nat = Ret g2 (4 + c)%nat
        /\ (g1 <> g2 ->
            decided_by r = None /\ team1_goals r = g1 /\ team2_goals r = g2)
        /\ (knockout = true -> g1 = g2 -> extra_time r = true).
Proof.
  intros fuel team1_data team2_data detailed knockout r tp c c' H.
  apply simulate_match_paths in H.
  destruct H as (b1 & b2 & g1 & g2 & Hg1 & Hg2 & _ & _ & Hpath).
  destruct Hpath as [(K & T1 & T2 & D & _ & X & _)
                    | (K & G & cE & e1 & e2 & _ & _ & _ & _ & T1 & T2 & X
                       & [(Hne & D & _) | (Heq & D & _)])].
  - split; [rewrite D; discriminate |].
    split; [left; tauto |]. split; [intro; exact D |].
    exists b1, b2, g1, g2. repeat (split; [assumption |]).
    split; [tauto |]. intros -> G. destruct K; [discriminate | contradiction].
  - split; [rewrite D; discriminate |].
    split; [right; left; repeat split; [assumption | lia | assumption] |].
    split; [intro; congruence |].
    exists b1, b2, g1, g2. repeat (split; [assumption |]).
    split; [intro; contradiction | tauto].
  - split; [rewrite D; discriminate |].
    split; [right; right; repeat split; [assumption | lia | assumption] |].
    split; [intro; congruence |].
    exists b1, b2, g1, g2. repeat (split; [assumption |]).
    split; [intro; contradiction | tauto].
Qed.

Lemma C5_decision_mode_witness :
  exists r c',
    simulate_match 1%nat ghana mali false true tape_extra_time 0%nat = Ret r c'
    /\ decided_by r = Some "extra_time"
    /\ decided_by r <> Some "regulation".
Proof.
  eexists. eexists. split; [vm_compute; reflexivity |].
  split; [reflexivity |].
  apply (C5_decision_mode 1%nat ghana mali false true _ tape_extra_time 0%nat 6%nat).
  vm_compute. reflexivity.
Defined.

(** Ghana beat Mali 1-0 after 90 minutes of a non-knockout match: the
    result carries no decision mode at all. *)
Lemma C5_counterexample :
  exists r c',
    simulate_match 1%nat ghana mali false false tape_one_nil 0%nat = Ret r c'
    /\ winner r = "Ghana" /\ team1_goals r = 1 /\ team2_goals r = 0
    /\ extra_time r = false
    /\ decided_by r = None
    /\ ~ In (decided_by r)
         [Some "regulation"; Some "extra_time"; Some "penalties"].
Proof.
  eexists. eexists. split; [vm_compute; reflexivity |].
  repeat (split; [reflexivity |]).
  cbn. intros [H | [H | [H | []]]]; discriminate.
Qed.

(** ** Rounds of the shootout *)

(** C9. The shootout first takes exactly five kicks per side, ten draws in
    all, and only then plays sudden-death rounds of one kick per side, as
    long as the tallies are level: it returns at the first round in which
    exactly one kick goes in, and what it returns has different tallies,
    each side having taken the same number of kicks, five and one per
    round of sudden death.  Both success probabilities lie in [0.6, 0.9],
    and this is why it ends: on a grid of [N >= 100] equally likely values
    of a draw (the floats of [random.random()] are the grid of
    [N = 2^53]), among all sequences of draws for [n] rounds at most
    [(84/100)^n] leave the shootout undecided, so that every four more
    rounds at least halve their share; a sequence that decides it makes
    the loop return, whatever is drawn afterwards. *)
Theorem C9_shootout_rounds :
  forall (fuel : nat) (rating1 rating2 : Q) (tp : Tape) (c : nat),
    let diff := ((rating1 - rating2) / 100)%Q in
    let p1 := penalty_probability diff in
    let p2 := penalty_probability (- diff)%Q in
    let s5 := mkShootout (goals_in p1 tp c 5) (goals_in p2 tp (S c) 5) 5 in
    ((6 # 10) <= p1 <= (9 # 10))%Q /\ ((6 # 10) <= p2 <= (9 # 10))%Q
    /\ initial_five p1 p2 tp c = Ret s5 (10 + c)%nat
    /\ (t1 s5 <> t2 s5 ->
        penalty_shootout (S fuel) rating1 rating2 tp c = Ret s5 (10 + c)%nat)
    /\ (t1 s5 = t2 s5 ->
        forall k : nat,
          (forall j, (j < k)%nat ->
                     decisive p1 p2 tp (2 * j + (10 + c))%nat = false) ->
          decisive p1 p2 tp (2 * k + (10 + c))%nat = true ->
          (k + 2 <= fuel)%nat ->
          exists s,
            penalty_shootout fuel rating1 rating2 tp c
            = Ret s (2 * (k + 1) + (10 + c))%nat
            /\ t1 s <> t2 s)
    /\ (forall s c',
          penalty_shootout fuel rating1 rating2 tp c = Ret s c' ->
          t1 s <> t2 s /\ shots s = 5
          /\ exists k : nat,
               c' = (2 * (5 + k) + c)%nat
               /\ t1 s = goals_in p1 tp c (5 + k)
               /\ t2 s = goals_in p2 tp (S c) (5 + k))
    /\ (forall (N n : nat) (s : Shootout),
          (100 <= N)%nat -> t1 s = t2 s ->
          100 ^ Z.of_nat n
          * Z.of_nat (List.length (filter (undecided p1 p2 s n) (draws_for N n)))
          <= 84 ^ Z.of_nat n * Z.of_nat (List.length (draws_for N n)))
    /\ (forall (N k : nat) (s : Shootout),
          (100 <= N)%nat -> t1 s = t2 s ->
          2 ^ Z.of_nat k
          * Z.of_nat
              (List.length
                 (filter (undecided p1 p2 s (4 * k)) (draws_for N (4 * k))))
          <= Z.of_nat (List.length (draws_for N (4 * k))))
    /\ (forall (n : nat) (s : Shootout) (draws : list Q),
          t1 s = t2 s ->
          undecided p1 p2 s n draws = false ->
          forall fuel' : nat,
            (n < fuel')%nat ->
            exists s' c',
              sudden_death fuel' p1 p2 s (tape_of draws) 0%nat = Ret s' c'
              /\ t1 s' <> t2 s' /\ (c' <= 2 * n)%nat).
Proof.
  intros fuel rating1 rating2 tp c diff p1 p2 s5.
  pose proof (penalty_probability_range diff) as [L1 U1].
  pose proof (penalty_probability_range (- diff)%Q) as [L2 U2].
  fold p1 in L1, U1. fold p2 in L2, U2.
  split; [split; assumption |]. split; [split; assumption |].
  split; [apply initial_five_run |].
  split.
  { intro Hd. rewrite penalty_shootout_run5. apply sudden_death_settled. exact Hd. }
  split.
  { intros Hl k Hbefore Hk Hfuel. rewrite penalty_shootout_run5.
    apply sudden_death_stops; assumption. }
  split.
  { intros s c' H. pose proof (penalty_shootout_Ret _ _ _ _ _ _ _ H) as (D & _ & _ & S).
    split; [exact D |]. split; [exact S |].
    rewrite penalty_shootout_run5 in H. apply sudden_death_rounds in H.
    destruct H as (k & -> & H1 & H2). cbn [t1 t2] in H1, H2.
    exists k. split; [lia |].
    rewrite !goals_in_add. split; [exact H1 | exact H2]. }
  split.
  { intros N n s HN Hs. apply undecided_share; assumption. }
  split.
  { intros N k s HN Hs. apply undecided_halves; assumption. }
  intros n s draws Hs Hu fuel' Hf. apply decided_returns; assumption.
Qed.

Lemma C9_shootout_rounds_witness :
  (exists s,
     penalty_shootout 3 80 80 tape_sudden_death 0%nat = Ret s 14%nat
     /\ t1 s <> t2 s)
  /\ 2 ^ 1
     * Z.of_nat
         (List.length
            (filter
               (undecided (penalty_probability ((80 - 80) / 100))
                  (penalty_probability (- ((80 - 80) / 100))) (mkShootout 5 5 5)
                  (4 * 1))
               (draws_for 128 (4 * 1))))
     <= Z.of_nat (List.length (draws_for 128 (4 * 1))).
Proof.
  pose proof (C9_shootout_rounds 3 80 80 tape_sudden_death 0%nat) as H.
  cbv zeta in H.
  destruct H as (_ & _ & _ & _ & Hstop & _ & _ & Hhalf & _).
  split.
  - apply (Hstop eq_refl 1%nat).
    + intros j Hj. assert (j = 0%nat) as -> by lia. vm_compute. reflexivity.
    + vm_compute. reflexivity.
    + lia.
  - apply (Hhalf 128%nat 1%nat (mkShootout 5 5 5)); [lia | reflexivity].
Defined.

(** ** Order of the events *)

Lemma insert_event_head (e : MatchEvent) (l : list MatchEvent) (lo : Z) :
  lo <= ev_minute e ->
  (forall x l', l = x :: l' -> lo <= ev_minute x) ->
  forall y l'', insert_event e l = y :: l'' -> lo <= ev_minute y.
Proof.
  intros He Hl y l'' H. destruct l as [| x l']; simpl in H.
  - inversion H; subst. exact He.
  - destruct (ev_minute e <=? ev_minute x); inversion H; subst;
      [exact He | eapply Hl; reflexivity].
Qed.

Lemma nondecreasing_cons (x : Z) (l : list Z) :
  nondecreasing (x :: l) = true <->
  (forall y l', l = y :: l' -> x <= y) /\ nondecreasing l = true.
Proof.
  destruct l as [| y l']; cbn [nondecreasing].
  - split; [intros _; split; [intros ? ? [=] | reflexivity] | reflexivity].
  - rewrite andb_true_iff, Z.leb_le. split.
    + intros [H1 H2]. split; [| exact H2]. intros ? ? [= <- _]. exact H1.
    + intros [H1 H2]. split; [| exact H2]. eapply H1. reflexivity.
Qed.

Lemma insert_event_sorted (e : MatchEvent) (l : list MatchEvent) :
  nondecreasing (minutes l) = true ->
  nondecreasing (minutes (insert_event e l)) = true.
Proof.
  induction l as [| x l IH]; intro H; [reflexivity |].
  cbn [insert_event]. destruct (ev_minute e <=? ev_minute x) eqn:E.
  - change (minutes (e :: x :: l)) with (ev_minute e :: minutes (x :: l)).
    apply nondecreasing_cons. split; [| exact H].
    intros y l' [= <- _]. apply Z.leb_le in E. lia.
  - change (minutes (x :: insert_event e l))
      with (ev_minute x :: minutes (insert_event e l)).
    change (minutes (x :: l)) with (ev_minute x :: minutes l) in H.
    apply nondecreasing_cons in H. destruct H as [Hhead Htail].
    apply nondecreasing_cons. split; [| apply IH; exact Htail].
    intros y l' Hy. unfold minutes in Hy.
    destruct (insert_event e l) as [| z l''] eqn:Hi; [discriminate |].
    cbn [map] in Hy. inversion Hy; subst y l'.
    apply (insert_event_head e l (ev_minute x)) with (l'' := l'').
    + apply Z.leb_gt in E. lia.
    + intros x0 l0 ->. eapply Hhead. reflexivity.
    + exact Hi.
Qed.

Lemma sort_events_sorted (l : list MatchEvent) :
  nondecreasing (minutes (sort_events l)) = true.
Proof.
  induction l as [| e l IH]; [reflexivity |].
  cbn [sort_events fold_right]. apply insert_event_sorted. exact IH.
Qed.

Lemma insert_event_same_minute (e : MatchEvent) (l : list MatchEvent) (m : Z) :
  filter (fun x => ev_minute x =? m) (insert_event e l)
  = if ev_minute e =? m
    then e :: filter (fun x => ev_minute x =? m) l
    else filter (fun x => ev_minute x =? m) l.
Proof.
  induction l as [| x l IH]; cbn [insert_event filter].
  - destruct (ev_minute e =? m); reflexivity.
  - destruct (ev_minute e <=? ev_minute x) eqn:E; cbn [filter].
    + destruct (ev_minute e =? m); reflexivity.
    + rewrite IH. apply Z.leb_gt in E.
      destruct (ev_minute e =? m) eqn:Em; [| reflexivity].
      apply Z.eqb_eq in Em.
      replace (ev_minute x =? m) with false by (symmetry; apply Z.eqb_neq; lia).
      reflexivity.
Qed.

(** The sort is stable: the events of any one minute keep the order in
    which they were appended. *)
Lemma sort_events_stable (l : list MatchEvent) (m : Z) :
  filter (fun x => ev_minute x =? m) (sort_events l)
  = filter (fun x => ev_minute x =? m) l.
Proof.
  induction l as [| e l IH]; [reflexivity |].
  cbn [sort_events fold_right]. rewrite insert_event_same_minute.
  fold (sort_events l). rewrite IH. reflexivity.
Qed.

(** A result reached without extra time carries its events in order. *)
Lemma events_sorted_without_extra_time (fuel : nat) (team1_data team2_data : Team)
    (detailed knockout : bool) (r : MatchResult) tp c c' :
  simulate_match fuel team1_data team2_data detailed knockout tp c = Ret r c' ->
  extra_time r = false ->
  nondecreasing (minutes (events r)) = true.
Proof.
  intros H Hx. apply simulate_match_Ret in H.
  destruct H as (b1 & b2 & g1 & g2 & tl & cT & gs & cS & res & cR
                 & _ & _ & _ & _ & _ & _ & Hres & _ & Hr).
  rewrite Hr in Hx |- *. cbn [events extra_time] in Hx |- *.
  destruct (knockout && (g1 =? g2)).
  - apply knockout_resolution_Ret in Hres.
    destruct Hres as (? & ? & ? & ? & ? & _ & _ & _ & _ & _ & _ & _ & X & _).
    congruence.
  - apply ret_Ret in Hres. destruct Hres as [<- _]. cbn [r_events].
    apply sort_events_sorted.
Qed.

(** C1, at the input on which the code departs from it.  A detailed
    knockout match, level at 0-0 after 90 minutes, in which Ghana scores
    twice in extra time, first at minute 110 and then at minute 95: the
    sort has run before the two goals are appended, and the returned events
    are not ordered by minute. *)
Theorem C1_extra_time_events_out_of_order :
  exists r c',
    simulate_match 1 ghana mali true true tape_extra_time 0%nat = Ret r c'
    /\ extra_time r = true
    /\ minutes (events r) = [110; 95]
    /\ nondecreasing (minutes (events r)) = false.
Proof.
  eexists. eexists. split; [vm_compute; reflexivity |].
  repeat split.
Qed.

(** ** Goal-scorer entries *)

Lemma scorer_entries_snoc (k : string) (l : list GoalScorer) (g : GoalScorer) :
  scorer_entries k (l ++ [g])
  = scorer_entries k l + (if String.eqb (gs_team g) k then 1 else 0).
Proof.
  unfold scorer_entries. rewrite filter_app, length_app. cbn [filter].
  destruct (String.eqb (gs_team g) k); cbn [List.length]; lia.
Qed.

Lemma basic_scorers_entries (t : Team) (k : string) (n : nat) :
  forall (gs gs' : list GoalScorer) tp c c',
    for_range n (basic_scorer t) gs tp c = Ret gs' c' ->
    scorer_entries k gs'
    = scorer_entries k gs + (if String.eqb (country t) k then Z.of_nat n else 0).
Proof.
  induction n as [| n IH]; intros gs gs' tp c c' H.
  - cbn [for_range] in H. apply ret_Ret in H. destruct H as [<- _].
    destruct (String.eqb (country t) k); lia.
  - cbn [for_range] in H. apply bind_Ret in H.
    destruct H as (gs1 & c1 & Hone & H). apply IH in H. rewrite H.
    unfold basic_scorer in Hone. split_run Hone.
    rewrite scorer_entries_snoc. cbn [gs_team].
    destruct (String.eqb (country t) k); lia.
Qed.

Lemma extra_time_goals_entries (t : Team) (k : string) (n : nat) :
  forall (acc acc' : list MatchEvent * list GoalScorer) tp c c',
    for_range n (extra_time_goal t) acc tp c = Ret acc' c' ->
    scorer_entries k (snd acc')
    = scorer_entries k (snd acc)
      + (if String.eqb (country t) k then Z.of_nat n else 0).
Proof.
  induction n as [| n IH]; intros acc acc' tp c c' H.
  - cbn [for_range] in H. apply ret_Ret in H. destruct H as [<- _].
    destruct (String.eqb (country t) k); lia.
  - cbn [for_range] in H. apply bind_Ret in H.
    destruct H as (acc1 & c1 & Hone & H). apply IH in H. rewrite H.
    unfold extra_time_goal in Hone. split_run Hone. cbn [snd].
    rewrite scorer_entries_snoc. cbn [gs_team].
    destruct (String.eqb (country t) k); lia.
Qed.

Lemma Player_eqb_refl (p : Player) : Player_eqb p p = true.
Proof.
  unfold Player_eqb. rewrite !String.eqb_refl, Z.eqb_refl, Bool.eqb_reflx.
  destruct (natural_position p); reflexivity.
Qed.

Lemma Team_eqb_refl (t : Team) : Team_eqb t t = true.
Proof.
  unfold Team_eqb. rewrite String.eqb_refl.
  rewrite (Qeq_eq_bool _ _ (Qeq_refl (rating t))).
  assert (Hs : list_eqb Player_eqb (squad t) (squad t) = true).
  { induction (squad t) as [| p l IH]; [reflexivity |].
    cbn [list_eqb]. rewrite Player_eqb_refl, IH. reflexivity. }
  rewrite Hs. destruct (email t); cbn; [apply String.eqb_refl | reflexivity].
Qed.

Lemma Team_eqb_countries (a b : Team) :
  country a <> country b -> Team_eqb a b = false.
Proof.
  intro H. unfold Team_eqb. apply String.eqb_neq in H. rewrite H. reflexivity.
Qed.

Section TimelineTallies.

Variables team1_data team2_data : Team.
Variables target1 target2 : Z.
Hypothesis distinct : country team1_data <> country team2_data.

Lemma tallied_add_goal (st : Timeline) (m : Z) (attacking : Team) (who : string) :
  attacking = team1_data \/ attacking = team2_data ->
  (goals_scored st (country attacking)
   <? (if Team_eqb attacking team1_data then target1 else target2)) = true ->
  tallied team1_data team2_data target1 target2 st ->
  tallied team1_data team2_data target1 target2
    (add_goal st m (country attacking) who).
Proof.
  intros Hatt Hbelow (E1 & E2 & B1 & B2).
  assert (N12 : String.eqb (country team1_data) (country team2_data) = false)
    by (apply String.eqb_neq; exact distinct).
  assert (N21 : String.eqb (country team2_data) (country team1_data) = false)
    by (apply String.eqb_neq; intro; apply distinct; congruence).
  unfold tallied, add_goal. cbn [scorers goals_scored].
  rewrite !scorer_entries_snoc. cbn [gs_team]. unfold tally_set.
  destruct Hatt as [-> | ->].
  - rewrite Team_eqb_refl in Hbelow. apply Z.ltb_lt in Hbelow.
    rewrite !String.eqb_refl, ?N21, ?N12. lia.
  - rewrite (Team_eqb_countries team2_data team1_data) in Hbelow
      by (intro; apply distinct; congruence).
    apply Z.ltb_lt in Hbelow. rewrite !String.eqb_refl, ?N21, ?N12. lia.
Qed.

Lemma timeline_loop_tallied (fuel : nat) :
  forall (st st' : Timeline) tp c c',
    timeline_loop fuel team1_data team2_data target1 target2 st tp c
    = Ret st' c' ->
    tallied team1_data team2_data target1 target2 st ->
    tallied team1_data team2_data target1 target2 st'.
Proof.
  induction fuel as [| fuel IH]; intros st st' tp c c' H Hst; [discriminate |].
  cbn [timeline_loop] in H.
  destruct ((current_minute st <? 90)
            && ((goals_scored st (country team1_data) <? target1)
                || (goals_scored st (country team2_data) <? target2)));
    [| apply ret_Ret in H; destruct H as [<- _]; exact Hst].
  apply bind_Ret in H. destruct H as (step & c1 & _ & H).
  destruct (current_minute st + step >? 90);
    [apply ret_Ret in H; destruct H as [<- _]; exact Hst |].
  apply bind_Ret in H. destruct H as (attacking & c2 & Hatt & H).
  apply random_choice_pair in Hatt.
  apply bind_Ret in H. destruct H as (roll & c3 & _ & H).
  destruct (Qltb roll (1 # 10)
            && (goals_scored st (country attacking)
                <? (if Team_eqb attacking team1_data then target1 else target2)))
    eqn:G.
  - apply andb_true_iff in G. destruct G as [_ G].
    apply bind_Ret in H. destruct H as (scorer & c4 & _ & H).
    apply IH in H; [exact H |]. apply tallied_add_goal; assumption.
  - destruct (Qltb roll (2 # 10)).
    { apply bind_Ret in H. destruct H as (? & ? & _ & H).
      apply IH in H; [exact H | exact Hst]. }
    destruct (Qltb roll (3 # 10)).
    { apply bind_Ret in H. destruct H as (? & ? & _ & H).
      apply IH in H; [exact H | exact Hst]. }
    destruct (Qltb roll (4 # 10)).
    { apply bind_Ret in H. destruct H as (? & ? & _ & H).
      apply IH in H; [exact H | exact Hst]. }
    apply IH in H; [exact H | exact Hst].
Qed.

End TimelineTallies.

Lemma simulate_match_scorers (fuel : nat) (team1_data team2_data : Team)
    (detailed knockout : bool) (r : MatchResult) tp c c' :
  country team1_data <> country team2_data ->
  simulate_match fuel team1_data team2_data detailed knockout tp c = Ret r c' ->
  exists g1 g2 e1 e2 n1 n2,
    team1_goals r = g1 + e1 /\ team2_goals r = g2 + e2
    /\ 0 <= e1 /\ 0 <= e2
    /\ (extra_time r = false -> e1 = 0 /\ e2 = 0)
    /\ scorer_entries (country team1_data) (goal_scorers r)
       = n1 + (if detailed then e1 else 0)
    /\ scorer_entries (country team2_data) (goal_scorers r)
       = n2 + (if detailed then e2 else 0)
    /\ (if detailed then n1 <= g1 /\ n2 <= g2 else n1 = g1 /\ n2 = g2).
Proof.
  intros Hd H. apply simulate_match_Ret in H.
  destruct H as (b1 & b2 & g1 & g2 & tl & cT & gs & cS & res & cR
                 & _ & _ & R1 & R2 & Htl & Hgs & Hres & _ & Hr).
  assert (N12 : String.eqb (country team1_data) (country team2_data) = false)
    by (apply String.eqb_neq; exact Hd).
  assert (N21 : String.eqb (country team2_data) (country team1_data) = false)
    by (apply String.eqb_neq; intro; apply Hd; congruence).
  assert (Hreg : exists n1 n2,
             scorer_entries (country team1_data) gs = n1
             /\ scorer_entries (country team2_data) gs = n2
             /\ (if detailed then n1 <= g1 /\ n2 <= g2 else n1 = g1 /\ n2 = g2)).
  { destruct detailed; cbn [negb] in Hgs.
    - apply ret_Ret in Hgs. destruct Hgs as [<- _].
      apply (timeline_loop_tallied team1_data team2_data g1 g2 Hd) in Htl.
      + destruct Htl as (E1 & E2 & B1 & B2). eexists. eexists.
        split; [reflexivity |]. split; [reflexivity |]. lia.
      + unfold tallied. cbn. lia.
    - apply ret_Ret in Htl. destruct Htl as [<- _]. cbn [scorers] in Hgs.
      apply bind_Ret in Hgs. destruct Hgs as (gs1 & c1 & H1 & H2).
      eexists. eexists. split; [reflexivity |]. split; [reflexivity |].
      rewrite (basic_scorers_entries _ (country team1_data) _ _ _ _ _ _ H2).
      rewrite (basic_scorers_entries _ (country team2_data) _ _ _ _ _ _ H2).
      rewrite (basic_scorers_entries _ (country team1_data) _ _ _ _ _ _ H1).
      rewrite (basic_scorers_entries _ (country team2_data) _ _ _ _ _ _ H1).
      rewrite !String.eqb_refl, N12, N21. unfold scorer_entries. cbn. lia. }
  destruct Hreg as (n1 & n2 & E1 & E2 & Hn).
  destruct (knockout && (g1 =? g2)).
  - apply knockout_resolution_Ret in Hres.
    destruct Hres as (e1 & e2 & evs' & gs' & cL & _ & _ & Q1 & Q2 & Hlists
                      & T1 & T2 & X & S & _).
    exists g1, g2, e1, e2, n1, n2. rewrite Hr.
    cbn [team1_goals team2_goals extra_time goal_scorers].
    repeat (split; [assumption || lia |]).
    split; [rewrite X; discriminate |].
    rewrite S. destruct detailed.
    + apply bind_Ret in Hlists. destruct Hlists as (acc & c1 & H1 & H2).
      pose proof (extra_time_goals_entries _ (country team1_data) _ _ _ _ _ _ H2) as A1.
      pose proof (extra_time_goals_entries _ (country team2_data) _ _ _ _ _ _ H2) as A2.
      rewrite (extra_time_goals_entries _ (country team1_data) _ _ _ _ _ _ H1) in A1.
      rewrite (extra_time_goals_entries _ (country team2_data) _ _ _ _ _ _ H1) in A2.
      cbn [snd] in A1, A2.
      rewrite String.eqb_refl, N21 in A1. rewrite String.eqb_refl, N12 in A2.
      split; [| split; [| exact Hn]]; lia.
    + apply ret_Ret in Hlists. destruct Hlists as [Hl _].
      injection Hl as _ <-.
      split; [| split; [| exact Hn]]; lia.
  - apply ret_Ret in Hres. destruct Hres as [<- _].
    exists g1, g2, 0, 0, n1, n2. rewrite Hr.
    cbn [team1_goals team2_goals extra_time goal_scorers r_team1_goals
           r_team2_goals r_scorers r_extra_time].
    repeat (split; [assumption || lia |]).
    destruct detailed; lia.
Qed.

(** C4, as amended. For two teams of different countries: in a
    non-detailed simulation in which no extra time is played, each team has
    exactly as many goal-scorer entries as goals in the final score; in a
    detailed simulation each team has at most as many, since the timeline
    can reach minute 90 before every goal has been placed. *)
Theorem C4_goal_scorer_entries :
  forall (fuel : nat) (team1_data team2_data : Team) (detailed knockout : bool)
         (r : MatchResult) (tp : Tape) (c c' : nat),
    country team1_data <> country team2_data ->
    simulate_match fuel team1_data team2_data detailed knockout tp c = Ret r c' ->
    (detailed = false -> extra_time r = false ->
     scorer_entries (country team1_data) (goal_scorers r) = team1_goals r
     /\ scorer_entries (country team2_data) (goal_scorers r) = team2_goals r)
    /\ (detailed = true ->
        scorer_entries (country team1_data) (goal_scorers r) <= team1_goals r
        /\ scorer_entries (country team2_data) (goal_scorers r) <= team2_goals r).
Proof.
  intros fuel team1_data team2_data detailed knockout r tp c c' Hd H.
  destruct (simulate_match_scorers _ _ _ _ _ _ _ _ _ Hd H)
    as (g1 & g2 & e1 & e2 & n1 & n2 & T1 & T2 & P1 & P2 & X & S1 & S2 & Hn).
  split.
  - intros -> Hx. destruct (X Hx) as [-> ->]. lia.
  - intros ->. lia.
Qed.

Lemma C4_goal_scorer_entries_witness :
  exists r c',
    country ghana <> country mali
    /\ simulate_match 1 ghana mali false false tape_one_all 0%nat = Ret r c'
    /\ scorer_entries (country ghana) (goal_scorers r) = team1_goals r
    /\ scorer_entries (country mali) (goal_scorers r) = team2_goals r.
Proof.
  eexists. eexists. split; [discriminate |].
  split; [vm_compute; reflexivity |].
  apply (C4_goal_scorer_entries 1 ghana mali false false _ tape_one_all 0%nat 8%nat);
    [discriminate | vm_compute; reflexivity | reflexivity | reflexivity].
Defined.

(** A detailed match with targets 1-0 in which nine quiet phases take the
    clock to minute 90: Ghana is credited with one goal and no scorer. *)
Lemma C4_counterexample :
  exists r c',
    simulate_match 46 ghana mali true false tape_quiet_match 0%nat = Ret r c'
    /\ team1_goals r = 1
    /\ scorer_entries "Ghana" (goal_scorers r) = 0
    /\ scorer_entries "Ghana" (goal_scorers r) <> team1_goals r.
Proof.
  eexists. eexists. split; [vm_compute; reflexivity |].
  repeat split. discriminate.
Qed.

(** The non-detailed knockout match of [tape_extra_time]: Ghana wins 2-0 in
    extra time and the result names no scorer. *)
Lemma extra_time_goals_without_scorers :
  exists r c',
    simulate_match 1 ghana mali false true tape_extra_time 0%nat = Ret r c'
    /\ team1_goals r = 2 /\ extra_time r = true /\ goal_scorers r = [].
Proof.
  eexists. eexists. split; [vm_compute; reflexivity |]. repeat split.
Qed.

(** ** Creating the tournament *)

Lemma create_tournament_rejects_fewer (clock : Clock) (db : Store) :
  (List.length (teams db) < 8)%nat ->
  api_create_tournament clock db
  = (mkResponse false (Some "Need exactly 8 teams to create tournament") 400, db).
Proof.
  intro H. unfold api_create_tournament.
  replace (Z.of_nat (List.length (teams db)) <? 8) with true
    by (symmetry; apply Z.ltb_lt; lia).
  reflexivity.
Qed.

(** With eight teams or more the request succeeds: the old matches are gone
    and the first eight teams streamed are paired into four quarter-finals. *)
Lemma create_tournament_accepts_eight_or_more (clock : Clock) (db : Store)
    (a b c d e f g h : Team) (rest : list Team) :
  teams db = a :: b :: c :: d :: e :: f :: g :: h :: rest ->
  api_create_tournament clock db
  = (mkResponse true None 200,
     mkStore (teams db)
       [ fixture "quarterfinal" a b (clock (clock_reads db));
         fixture "quarterfinal" c d (clock (1 + clock_reads db)%nat);
         fixture "quarterfinal" e f (clock (2 + clock_reads db)%nat);
         fixture "quarterfinal" g h (clock (3 + clock_reads db)%nat) ]
       (4 + clock_reads db)%nat).
Proof.
  intro H. unfold api_create_tournament. rewrite H.
  replace (Z.of_nat (List.length (a :: b :: c :: d :: e :: f :: g :: h :: rest)) <? 8)
    with false by (symmetry; apply Z.ltb_ge; cbn [List.length]; lia).
  reflexivity.
Qed.

(** C3, at the input on which the code departs from it.  With nine
    registered teams the request is not rejected: it answers success with
    status 200 and stores four quarter-finals made of the first eight teams;
    with seven teams it is rejected and nothing is stored. *)
Theorem C3_nine_teams_are_accepted :
  success (fst (api_create_tournament sample_clock store_nine_teams)) = true
  /\ http_status (fst (api_create_tournament sample_clock store_nine_teams)) = 200
  /\ map (fun m => (m_round m, country (m_team1 m), country (m_team2 m)))
       (matches (snd (api_create_tournament sample_clock store_nine_teams)))
     = [ ("quarterfinal", "Ghana", "Mali"); ("quarterfinal", "Kenya", "Togo");
         ("quarterfinal", "Chad", "Niger"); ("quarterfinal", "Benin", "Gabon") ]
  /\ api_create_tournament sample_clock store_seven_teams
     = (mkResponse false (Some "Need exactly 8 teams to create tournament") 400,
        store_seven_teams).
Proof.
  repeat split.
Qed.

(** ** Bracket progression *)

Lemma insert_match_forallb (f : Match -> bool) (m : Match) (l : list Match) :
  forallb f (insert_match m l) = f m && forallb f l.
Proof.
  induction l as [| x l IH]; cbn [insert_match forallb]; [reflexivity |].
  destruct (String.leb (m_created_at m) (m_created_at x)); cbn [forallb].
  - reflexivity.
  - rewrite IH. destruct (f m), (f x); reflexivity.
Qed.

Lemma sort_by_created_at_forallb (f : Match -> bool) (l : list Match) :
  forallb f (sort_by_created_at l) = forallb f l.
Proof.
  induction l as [| x l IH]; [reflexivity |].
  cbn [sort_by_created_at fold_right forallb].
  rewrite insert_match_forallb. f_equal. exact IH.
Qed.

Lemma insert_match_length (m : Match) (l : list Match) :
  List.length (insert_match m l) = S (List.length l).
Proof.
  induction l as [| x l IH]; cbn [insert_match]; [reflexivity |].
  destruct (String.leb (m_created_at m) (m_created_at x)); cbn [List.length];
    [reflexivity | rewrite IH; reflexivity].
Qed.

Lemma sort_by_created_at_length (l : list Match) :
  List.length (sort_by_created_at l) = List.length l.
Proof.
  induction l as [| x l IH]; [reflexivity |].
  cbn [sort_by_created_at fold_right]. rewrite insert_match_length.
  cbn [List.length]. f_equal. exact IH.
Qed.

Lemma not_leb_leb (a b : string) : String.leb a b = false -> String.leb b a = true.
Proof.
  intro H. destruct (String.leb_total a b) as [H' | H']; congruence.
Qed.

Lemma by_creation_time_cons (x : Match) (l : list Match) :
  by_creation_time (x :: l) = true <->
  (forall y l', l = y :: l' -> String.leb (m_created_at x) (m_created_at y) = true)
  /\ by_creation_time l = true.
Proof.
  destruct l as [| y l']; cbn [by_creation_time].
  - split; [intros _; split; [intros ? ? [=] | reflexivity] | reflexivity].
  - rewrite andb_true_iff. split.
    + intros [H1 H2]. split; [| exact H2]. intros ? ? [= <- _]. exact H1.
    + intros [H1 H2]. split; [| exact H2]. eapply H1. reflexivity.
Qed.

Lemma insert_match_sorted (m : Match) (l : list Match) :
  by_creation_time l = true -> by_creation_time (insert_match m l) = true.
Proof.
  induction l as [| x l IH]; intro H; [reflexivity |].
  cbn [insert_match].
  destruct (String.leb (m_created_at m) (m_created_at x)) eqn:E.
  - apply by_creation_time_cons. split; [| exact H].
    intros y l' [= <- _]. exact E.
  - apply by_creation_time_cons in H. destruct H as [Hhead Htail].
    apply by_creation_time_cons. split; [| apply IH; exact Htail].
    intros y l' Hy. destruct l as [| z l'']; cbn [insert_match] in Hy.
    + injection Hy as <- _. apply not_leb_leb. exact E.
    + destruct (String.leb (m_created_at m) (m_created_at z));
        injection Hy as <- _.
      * apply not_leb_leb. exact E.
      * eapply Hhead. reflexivity.
Qed.

(** The quarter-finals are taken by creation time. *)
Lemma sort_by_created_at_sorted (l : list Match) :
  by_creation_time (sort_by_created_at l) = true.
Proof.
  induction l as [| x l IH]; [reflexivity |].
  cbn [sort_by_created_at fold_right]. apply insert_match_sorted. exact IH.
Qed.

Lemma leb_same (a : string) : String.leb a a = true.
Proof.
  destruct (String.leb_total a a); assumption.
Qed.

Lemma insert_match_same_time (m : Match) (l : list Match) (k : string) :
  filter (fun x => String.eqb (m_created_at x) k) (insert_match m l)
  = if String.eqb (m_created_at m) k
    then m :: filter (fun x => String.eqb (m_created_at x) k) l
    else filter (fun x => String.eqb (m_created_at x) k) l.
Proof.
  induction l as [| x l IH]; cbn [insert_match filter].
  - destruct (String.eqb (m_created_at m) k); reflexivity.
  - destruct (String.leb (m_created_at m) (m_created_at x)) eqn:E; cbn [filter].
    + destruct (String.eqb (m_created_at m) k); reflexivity.
    + rewrite IH.
      destruct (String.eqb (m_created_at m) k) eqn:Em; [| reflexivity].
      apply String.eqb_eq in Em.
      destruct (String.eqb (m_created_at x) k) eqn:Ex; [| reflexivity].
      apply String.eqb_eq in Ex. rewrite Em, Ex, leb_same in E. discriminate.
Qed.

(** Quarter-finals created at the same instant keep the order of the
    stream. *)
Lemma sort_by_created_at_stable (l : list Match) (k : string) :
  filter (fun x => String.eqb (m_created_at x) k) (sort_by_created_at l)
  = filter (fun x => String.eqb (m_created_at x) k) l.
Proof.
  induction l as [| m l IH]; [reflexivity |].
  cbn [sort_by_created_at fold_right]. rewrite insert_match_same_time.
  fold (sort_by_created_at l). rewrite IH. reflexivity.
Qed.

Lemma in_round_app (r : string) (l1 l2 : list Match) :
  in_round r (l1 ++ l2) = in_round r l1 ++ in_round r l2.
Proof. apply filter_app. Qed.

Lemma all_completed_nil : all_completed [] = false.
Proof. reflexivity. Qed.

Lemma all_completed_scheduled (l : list Match) (round : string) (a b : Team)
    (created_at : string) :
  all_completed (l ++ [fixture round a b created_at]) = false.
Proof.
  unfold all_completed. rewrite forallb_app. cbn. rewrite !andb_false_r.
  reflexivity.
Qed.

(** When neither round is due the store is left as it is. *)
Lemma progress_nothing_due (clock : Clock) (db : Store) :
  all_completed (in_round "quarterfinal" (matches db))
  && (Z.of_nat (List.length (in_round "semifinal" (matches db))) =? 0) = false ->
  all_completed (in_round "semifinal" (matches db))
  && (Z.of_nat (List.length (in_round "final" (matches db))) =? 0) = false ->
  progress_tournament_if_ready clock db = db.
Proof.
  intros HQ HF. unfold progress_tournament_if_ready. rewrite HQ, HF. reflexivity.
Qed.

Lemma semifinal_not_due_when_due_quarterfinals (l : list Match) :
  (Z.of_nat (List.length l) =? 0) = true -> all_completed l = false.
Proof.
  intro H. apply Z.eqb_eq in H. destruct l; [reflexivity | cbn in H; lia].
Qed.

Lemma progress_idempotent (clock : Clock) (db : Store) :
  progress_tournament_if_ready clock (progress_tournament_if_ready clock db)
  = progress_tournament_if_ready clock db.
Proof.
  remember (progress_tournament_if_ready clock db) as db' eqn:E.
  pose proof E as E0.
  unfold progress_tournament_if_ready in E.
  destruct (all_completed (in_round "quarterfinal" (matches db))
            && (Z.of_nat (List.length (in_round "semifinal" (matches db))) =? 0))
    eqn:HQ.
  - apply andb_true_iff in HQ as HQ'. destruct HQ' as [_ Hsf].
    rewrite (semifinal_not_due_when_due_quarterfinals _ Hsf) in E.
    cbn [andb] in E.
    destruct (winners_of db
                (sort_by_created_at (in_round "quarterfinal" (matches db))))
      as [| w0 [| w1 [| w2 [| w3 ws]]]];
      try (subst db'; symmetry; exact E0).
    clear E0. subst db'.
    apply progress_nothing_due; cbn [add_fixture matches].
    + rewrite <- !app_assoc, !in_round_app. cbn.
      rewrite length_app. cbn [List.length].
      replace (Z.of_nat (List.length (in_round "semifinal" (matches db)) + 2) =? 0)
        with false by (symmetry; apply Z.eqb_neq; lia).
      apply andb_false_r.
    + rewrite <- !app_assoc, !in_round_app. cbn.
      apply Z.eqb_eq in Hsf.
      destruct (in_round "semifinal" (matches db)); [| cbn in Hsf; lia].
      reflexivity.
  - destruct (all_completed (in_round "semifinal" (matches db))
              && (Z.of_nat (List.length (in_round "final" (matches db))) =? 0))
      eqn:HF.
    + destruct (winners_of db
                  (sort_by_created_at (in_round "semifinal" (matches db))))
        as [| w0 [| w1 ws]];
        try (subst db'; symmetry; exact E0).
      clear E0. subst db'.
      apply progress_nothing_due; cbn [add_fixture matches].
      * rewrite !in_round_app. cbn. rewrite !app_nil_r. exact HQ.
      * rewrite !in_round_app. cbn. rewrite app_nil_r, length_app.
        cbn [List.length].
        replace (Z.of_nat (List.length (in_round "final" (matches db)) + 1) =? 0)
          with false by (symmetry; apply Z.eqb_neq; lia).
        apply andb_false_r.
    + subst db'. symmetry. exact E0.
Qed.

(** Once a semi-final exists, a run adds no semi-final. *)
Lemma semifinals_kept (clock : Clock) (db : Store) :
  in_round "semifinal" (matches db) <> [] ->
  in_round "semifinal" (matches (progress_tournament_if_ready clock db))
  = in_round "semifinal" (matches db).
Proof.
  intro H. unfold progress_tournament_if_ready.
  replace (Z.of_nat (List.length (in_round "semifinal" (matches db))) =? 0)
    with false
    by (symmetry; apply Z.eqb_neq;
        destruct (in_round "semifinal" (matches db)); [congruence | cbn; lia]).
  rewrite andb_false_r.
  destruct (all_completed (in_round "semifinal" (matches db))
            && (Z.of_nat (List.length (in_round "final" (matches db))) =? 0));
    [| reflexivity].
  destruct (winners_of db (sort_by_created_at (in_round "semifinal" (matches db))))
    as [| w0 [| w1 ws]]; try reflexivity.
  cbn [add_fixture matches]. rewrite in_round_app. cbn. apply app_nil_r.
Qed.

(** C6. When the four quarter-finals, taken by creation time, are completed
    and their recorded winners are registered teams, and no semi-final
    exists, a run of the progression adds exactly two scheduled semi-finals,
    winner of the first against winner of the second and winner of the third
    against winner of the fourth; a second run changes nothing, and more
    generally no run adds a semi-final to a store that has one, and running
    twice is the same as running once. *)
Theorem C6_semifinals_from_quarterfinals :
  forall (clock : Clock) (db : Store) (q1 q2 q3 q4 : Match)
         (w1 w2 w3 w4 : Team),
    sort_by_created_at (in_round "quarterfinal" (matches db)) = [q1; q2; q3; q4] ->
    forallb (fun m => String.eqb (m_status m) "completed") [q1; q2; q3; q4] = true ->
    in_round "semifinal" (matches db) = [] ->
    get_team_by_country db (recorded_winner q1) = Some w1 ->
    get_team_by_country db (recorded_winner q2) = Some w2 ->
    get_team_by_country db (recorded_winner q3) = Some w3 ->
    get_team_by_country db (recorded_winner q4) = Some w4 ->
    by_creation_time [q1; q2; q3; q4] = true
    /\ matches (progress_tournament_if_ready clock db)
       = matches db
         ++ [ fixture "semifinal" w1 w2 (clock (clock_reads db));
              fixture "semifinal" w3 w4 (clock (S (clock_reads db))) ]
    /\ progress_tournament_if_ready clock (progress_tournament_if_ready clock db)
       = progress_tournament_if_ready clock db
    /\ (forall db0 : Store,
          in_round "semifinal" (matches db0) <> [] ->
          in_round "semifinal" (matches (progress_tournament_if_ready clock db0))
          = in_round "semifinal" (matches db0))
    /\ (forall db0 : Store,
          progress_tournament_if_ready clock
            (progress_tournament_if_ready clock db0)
          = progress_tournament_if_ready clock db0).
Proof.
  intros clock db q1 q2 q3 q4 w1 w2 w3 w4 Hsort Hdone Hnone H1 H2 H3 H4.
  split; [rewrite <- Hsort; apply sort_by_created_at_sorted |].
  split.
  - unfold progress_tournament_if_ready.
    assert (HQ : all_completed (in_round "quarterfinal" (matches db)) = true).
    { unfold all_completed.
      rewrite <- (sort_by_created_at_length (in_round "quarterfinal" (matches db))).
      rewrite <- (sort_by_created_at_forallb _ (in_round "quarterfinal" (matches db))).
      rewrite Hsort, Hdone. reflexivity. }
    rewrite HQ, Hnone, Hsort. cbn [List.length Z.of_nat Z.eqb andb all_completed].
    unfold winners_of. cbn [flat_map]. rewrite H1, H2, H3, H4.
    rewrite all_completed_nil. cbn [andb app add_fixture matches clock_reads].
    rewrite <- app_assoc. reflexivity.
  - split; [apply progress_idempotent |].
    split; [intros db0; apply semifinals_kept | intros db0; apply progress_idempotent].
Qed.

Lemma C6_semifinals_from_quarterfinals_witness :
  sort_by_created_at (in_round "quarterfinal" (matches store_quarterfinals_played))
  = [ played "Ghana" "Mali" "2025-11-01T09:00:00" "Ghana";
      played "Kenya" "Togo" "2025-11-01T09:00:01" "Togo";
      played "Chad" "Niger" "2025-11-01T09:00:02" "Niger";
      played "Benin" "Gabon" "2025-11-01T09:00:03" "Benin" ]
  /\ in_round "semifinal" (matches store_quarterfinals_played) = []
  /\ map (fun m => (m_round m, country (m_team1 m), country (m_team2 m), m_status m))
       (matches (progress_tournament_if_ready sample_clock store_quarterfinals_played))
     = map (fun m => (m_round m, country (m_team1 m), country (m_team2 m), m_status m))
         (matches store_quarterfinals_played)
       ++ [ ("semifinal", "Ghana", "Togo", "scheduled");
            ("semifinal", "Niger", "Benin", "scheduled") ].
Proof.
  split; [reflexivity |]. split; [reflexivity |].
  destruct (C6_semifinals_from_quarterfinals sample_clock store_quarterfinals_played
              (played "Ghana" "Mali" "2025-11-01T09:00:00" "Ghana")
              (played "Kenya" "Togo" "2025-11-01T09:00:01" "Togo")
              (played "Chad" "Niger" "2025-11-01T09:00:02" "Niger")
              (played "Benin" "Gabon" "2025-11-01T09:00:03" "Benin")
              (sample_team "Ghana" 70) (sample_team "Togo" 70)
              (sample_team "Niger" 70) (sample_team "Benin" 70)
              eq_refl eq_refl eq_refl eq_refl eq_refl eq_refl eq_refl)
    as (_ & Hadd & _).
  rewrite Hadd. rewrite map_app. reflexivity.
Defined.

(** ** The completion e-mail *)

Lemma ebind_not_sent {A} (m : E A) (k : A -> E bool) :
  (forall a, k a <> inr true) -> ebind m k <> inr true.
Proof.
  intro H. destruct m as [e | a]; cbn; [discriminate | apply H].
Qed.

Lemma py_get_decided_by (r : MatchResult) :
  py_get (result_dict r) "decided_by" PNone
  = inr (optional_string (decided_by r)).
Proof. reflexivity. Qed.

Lemma py_get_penalty_score (r : MatchResult) :
  py_get (result_dict r) "penalty_score" (PDict [])
  = inr (optional_string (penalty_score r)).
Proof. reflexivity. Qed.

(** Neither a string nor [None] has a [get] method. *)
Lemma py_get_optional_string (o : option string) (key : string) (d : pyval) :
  py_get (optional_string o) key d = inl AttributeError.
Proof. destruct o; reflexivity. Qed.

Lemma body_after_penalties (env : Environment) (console : Console)
    (smtp : Smtp) (match_data : pyval) (r : MatchResult) :
  decided_by r = Some "penalties" ->
  send_match_completion_email_body env console smtp match_data (result_dict r)
  <> inr true.
Proof.
  intro Hd. unfold send_match_completion_email_body.
  destruct (unset (EMAIL_USER env) || unset (EMAIL_PASSWORD env));
    [apply ebind_not_sent; discriminate |].
  do 12 (apply ebind_not_sent; intro).
  match goal with
  | |- context [match ?l with [] => _ | _ :: _ => _ end] =>
      destruct l; [apply ebind_not_sent; discriminate |]
  end.
  apply ebind_not_sent; intro.
  rewrite py_get_decided_by, Hd. cbn [ebind optional_string].
  rewrite py_get_penalty_score. cbn [ebind].
  rewrite py_get_optional_string. cbn [ebind]. discriminate.
Qed.

(** What [simulate_match] records after a shootout is a string. *)
Lemma penalties_score_is_text (fuel : nat) (team1_data team2_data : Team)
    (detailed knockout : bool) (r : MatchResult) tp c c' :
  simulate_match fuel team1_data team2_data detailed knockout tp c = Ret r c' ->
  decided_by r = Some "penalties" ->
  exists a b, penalty_score r = Some (dash a b) /\ a <> b.
Proof.
  intros H Hd. apply simulate_match_paths in H.
  destruct H as (b1 & b2 & g1 & g2 & _ & _ & _ & _ & Hpath).
  destruct Hpath as [(_ & _ & _ & D & _)
                    | (_ & _ & cE & e1 & e2 & _ & _ & _ & _ & _ & _ & _
                       & [(_ & D & _) | (_ & _ & a & b & P & _ & _ & Hab & _)])];
    try congruence.
  exists a, b. auto.
Qed.

Lemma ebind_ext {A B} (m : E A) (k k' : A -> E B) :
  (forall a, k a = k' a) -> ebind m k = ebind m k'.
Proof.
  intro H. destruct m as [e | a]; cbn; [reflexivity | apply H].
Qed.

(** After penalties the body ends before the SMTP session is opened: the
    server has no say in what it does. *)
Lemma smtp_not_reached_after_penalties (env : Environment) (console : Console)
    (smtp smtp' : Smtp) (match_data : pyval) (r : MatchResult) :
  decided_by r = Some "penalties" ->
  send_match_completion_email_body env console smtp match_data (result_dict r)
  = send_match_completion_email_body env console smtp' match_data (result_dict r).
Proof.
  intro Hd. unfold send_match_completion_email_body.
  destruct (unset (EMAIL_USER env) || unset (EMAIL_PASSWORD env));
    [reflexivity |].
  do 12 (apply ebind_ext; intro).
  match goal with
  | |- context [match ?l with [] => _ | _ :: _ => _ end] =>
      destruct l; [reflexivity |]
  end.
  apply ebind_ext; intro.
  rewrite py_get_decided_by, Hd. cbn [ebind optional_string].
  rewrite py_get_penalty_score. cbn [ebind].
  rewrite py_get_optional_string. reflexivity.
Qed.

(** What the function does with what its body did: a boolean of the body
    is returned as it is; an exception of the body is reported on the
    console and answered by [False], unless the report itself raises. *)
Lemma handler_outcomes (env : Environment) (console : Console) (smtp : Smtp)
    (match_data result : pyval) :
  (exists sent,
     send_match_completion_email_body env console smtp match_data result
     = inr sent
     /\ send_match_completion_email env console smtp match_data result
        = inr sent)
  \/ (exists e,
        send_match_completion_email_body env console smtp match_data result
        = inl e
        /\ console (Failed e) = None
        /\ send_match_completion_email env console smtp match_data result
           = inr false)
  \/ (exists e x,
        send_match_completion_email_body env console smtp match_data result
        = inl e
        /\ console (Failed e) = Some x
        /\ send_match_completion_email env console smtp match_data result
           = inl x).
Proof.
  unfold send_match_completion_email, print.
  destruct (send_match_completion_email_body env console smtp match_data result)
    as [e | sent]; [| left; eauto].
  right. destruct (console (Failed e)) as [x |] eqn:C; cbn [ebind].
  - right. exists e, x. auto.
  - left. exists e. auto.
Qed.

(** C10, as amended. For a result whose [decided_by] is ["penalties"], the
    e-mail function hands no message to the server and never returns
    [True]: the result holds its penalty score as a string (or as
    nothing), which has no [get], so the body raises before the SMTP
    session and the handler takes over.  The function returns [False]
    unless the handler's own [print] raises, and then the exception of
    that [print] leaves the function.  For every input the function
    returns a boolean unless the handler's [print] raises, and then it
    raises what that [print] raised. *)
Theorem C10_no_email_after_penalties :
  forall (env : Environment) (console : Console) (smtp : Smtp)
         (match_data : pyval) (r : MatchResult),
    decided_by r = Some "penalties" ->
    (forall smtp' : Smtp,
       send_match_completion_email_body env console smtp' match_data
         (result_dict r)
       = send_match_completion_email_body env console smtp match_data
           (result_dict r))
    /\ py_get (optional_string (penalty_score r)) "team1" (PInt 0)
       = inl AttributeError
    /\ (send_match_completion_email env console smtp match_data (result_dict r)
        = inr false
        \/ exists e x : exn,
             send_match_completion_email_body env console smtp match_data
               (result_dict r) = inl e
             /\ console (Failed e) = Some x
             /\ send_match_completion_email env console smtp match_data
                  (result_dict r) = inl x)
    /\ (forall result : pyval,
          (exists sent : bool,
             send_match_completion_email env console smtp match_data result
             = inr sent)
          \/ exists e x : exn,
               send_match_completion_email_body env console smtp match_data
                 result = inl e
               /\ console (Failed e) = Some x
               /\ send_match_completion_email env console smtp match_data result
                  = inl x).
Proof.
  intros env console smtp match_data r Hd.
  pose proof (body_after_penalties env console smtp match_data r Hd) as Hb.
  split; [| split; [| split]].
  - intro smtp'. apply smtp_not_reached_after_penalties. exact Hd.
  - apply py_get_optional_string.
  - destruct (handler_outcomes env console smtp match_data (result_dict r))
      as [(sent & B & S) | [(e & _ & _ & S) | (e & x & B & C & S)]].
    + left. rewrite S. destruct sent; [congruence | reflexivity].
    + left. exact S.
    + right. exists e, x. auto.
  - intro result.
    destruct (handler_outcomes env console smtp match_data result)
      as [(sent & _ & S) | [(e & _ & _ & S) | (e & x & B & C & S)]].
    + left. exists sent. exact S.
    + left. exists false. exact S.
    + right. exists e, x. auto.
Qed.

Lemma C10_no_email_after_penalties_witness :
  exists r c',
    simulate_match 1 ghana mali false true tape_shootout 0%nat = Ret r c'
    /\ decided_by r = Some "penalties"
    /\ penalty_score r = Some "3-2"
    /\ send_match_completion_email sample_environment console_utf8 smtp_delivers
         sample_match_data (result_dict r) = inr false.
Proof.
  eexists. eexists. split; [vm_compute; reflexivity |].
  split; [reflexivity |]. split; [reflexivity |].
  lazymatch goal with
  | |- send_match_completion_email _ _ _ _ (result_dict ?r) = _ =>
      destruct (C10_no_email_after_penalties sample_environment console_utf8
                  smtp_delivers sample_match_data r eq_refl)
        as (_ & _ & [H | (e & x & _ & C & _)] & _)
  end.
  - exact H.
  - discriminate C.
Defined.

(** The quarter-final Ghana - Mali settled on penalties, with a standard
    output that cannot encode the cross mark of the handler's message: the
    function does not return [False], it raises [UnicodeEncodeError]. *)
Lemma C10_counterexample :
  exists r c',
    simulate_match 1 ghana mali false true tape_shootout 0%nat = Ret r c'
    /\ decided_by r = Some "penalties"
    /\ send_match_completion_email_body sample_environment console_ascii
         smtp_delivers sample_match_data (result_dict r) = inl AttributeError
    /\ console_ascii (Failed AttributeError) = Some UnicodeEncodeError
    /\ send_match_completion_email sample_environment console_ascii smtp_delivers
         sample_match_data (result_dict r) = inl UnicodeEncodeError
    /\ send_match_completion_email sample_environment console_ascii smtp_delivers
         sample_match_data (result_dict r) <> inr false.
Proof.
  eexists. eexists. split; [vm_compute; reflexivity |].
  repeat (split; [reflexivity |]). discriminate.
Qed.

(** The same quarter-final settled in extra time: the message goes out. *)
Lemma email_sent_after_extra_time :
  exists r c',
    simulate_match 1 ghana mali false true tape_extra_time 0%nat = Ret r c'
    /\ decided_by r = Some "extra_time"
    /\ send_match_completion_email sample_environment console_utf8 smtp_delivers
         sample_match_data (result_dict r) = inr true.
Proof.
  eexists. eexists. split; [vm_compute; reflexivity |].
  split; reflexivity.
Qed.

(** Settled on penalties, with the sender configured and both federations
    reachable: the body raises [AttributeError]. *)
Lemma email_raises_after_penalties :
  exists r c',
    simulate_match 1 ghana mali false true tape_shootout 0%nat = Ret r c'
    /\ send_match_completion_email_body sample_environment console_utf8
         smtp_delivers sample_match_data (result_dict r) = inl AttributeError.
Proof.
  eexists. eexists. split; [vm_compute; reflexivity |]. reflexivity.
Qed.

(* ================================================================== *)
(** * Further properties of the code *)

(** ** Generated squads *)

Lemma random_choice_by_index {A} (a : A) (l : list A) tp c :
  random_choice (a :: l) tp c
  = (i <- random_index (List.length (a :: l)) ;; ret (List.nth i (a :: l) a)) tp c.
Proof. reflexivity. Qed.

Lemma random_index_run (n : nat) tp c :
  (0 < n)%nat ->
  exists i, random_index n tp c = Ret i (S c) /\ (i < n)%nat.
Proof.
  intro Hn. unfold random_index, bind, draw, ret. eexists. split; [reflexivity |].
  pose proof (Z.mod_pos_bound (Qfloor (tp c)) (Z.of_nat n) ltac:(lia)). lia.
Qed.

Lemma position_rating_run (natural_position position : Position) tp c :
  exists v,
    position_rating natural_position position tp c = Ret v (S c)
    /\ (if Position_eqb position natural_position
        then 70 <= v <= 95 else 15 <= v <= 65).
Proof.
  unfold position_rating.
  destruct (Position_eqb position natural_position);
    rewrite random_randint_run; eexists; (split; [reflexivity |]).
  - pose proof (Z.mod_pos_bound (Qfloor (tp c)) (95 - 70 + 1) ltac:(lia)). lia.
  - pose proof (Z.mod_pos_bound (Qfloor (tp c)) (65 - 15 + 1) ltac:(lia)). lia.
Qed.

Lemma generate_player_ratings_run (natural_position : Position) tp c :
  exists r,
    generate_player_ratings natural_position tp c = Ret r (4 + c)%nat
    /\ forall position,
        if Position_eqb position natural_position
        then 70 <= rating_at r position <= 95
        else 15 <= rating_at r position <= 65.
Proof.
  unfold generate_player_ratings.
  destruct (position_rating_run natural_position GK tp c) as (gk & Hgk & Rgk).
  destruct (position_rating_run natural_position DF tp (S c)) as (df & Hdf & Rdf).
  destruct (position_rating_run natural_position MD tp (S (S c)))
    as (md & Hmd & Rmd).
  destruct (position_rating_run natural_position AT tp (S (S (S c))))
    as (at_ & Hat & Rat).
  rewrite (bind_run _ _ _ _ _ _ Hgk), (bind_run _ _ _ _ _ _ Hdf).
  rewrite (bind_run _ _ _ _ _ _ Hmd), (bind_run _ _ _ _ _ _ Hat).
  eexists. split; [reflexivity |].
  intros [| | |]; cbn [rating_at rating_GK rating_DF rating_MD rating_AT];
    assumption.
Qed.

Lemma generate_player_name_run tp c :
  exists name, generate_player_name tp c = Ret name (2 + c)%nat.
Proof.
  unfold generate_player_name.
  destruct (random_choice_run first_names tp c ltac:(discriminate)) as (f & Hf).
  destruct (random_choice_run last_names tp (S c) ltac:(discriminate)) as (l & Hl).
  rewrite (bind_run _ _ _ _ _ _ Hf), (bind_run _ _ _ _ _ _ Hl).
  eexists. reflexivity.
Qed.

Lemma new_player_run (position : Position) (squad : list SquadPlayer) tp c :
  exists p,
    new_player position squad tp c = Ret (squad ++ [p]) (6 + c)%nat
    /\ natural_position (sp_player p) = position
    /\ jersey_number (sp_player p) = Z.of_nat (List.length squad) + 1
    /\ p_id (sp_player p)
       = ("player_" ++ py_str (Z.of_nat (List.length squad) + 1))%string
    /\ is_captain (sp_player p) = false
    /\ well_rated p.
Proof.
  unfold new_player.
  destruct (generate_player_name_run tp c) as (name & Hname).
  destruct (generate_player_ratings_run position tp (2 + c)%nat) as (r & Hr & Rr).
  rewrite (bind_run _ _ _ _ _ _ Hname), (bind_run _ _ _ _ _ _ Hr).
  eexists. split; [reflexivity |]. cbn.
  repeat (split; [reflexivity |]). exact Rr.
Qed.

(** What a run of the inner loop appends. *)
Lemma players_of_one_position (position : Position) (n : nat) :
  forall (squad : list SquadPlayer) tp c,
    exists added,
      for_range n (new_player position) squad tp c
      = Ret (squad ++ added) (6 * n + c)%nat
      /\ map natural_position (players added) = repeat position n
      /\ map jersey_number (players added)
         = map Z.of_nat (seq (S (List.length squad)) n)
      /\ map p_id (players added)
         = map (fun k => ("player_" ++ py_str (Z.of_nat k))%string)
             (seq (S (List.length squad)) n)
      /\ Forall (fun p => is_captain (sp_player p) = false) added
      /\ Forall well_rated added.
Proof.
  induction n as [| n IH]; intros squad tp c.
  - exists []. rewrite app_nil_r. repeat split; constructor.
  - cbn [for_range].
    destruct (new_player_run position squad tp c)
      as (p & Hp & Hpos & Hnum & Hid & Hcap & Hrat).
    rewrite (bind_run _ _ _ _ _ _ Hp).
    destruct (IH (squad ++ [p]) tp (6 + c)%nat)
      as (added & Hrun & Apos & Anum & Aid & Acap & Arat).
    exists (p :: added). rewrite Hrun, <- app_assoc.
    rewrite length_app in Anum, Aid. cbn [List.length] in Anum, Aid.
    rewrite Nat.add_1_r in Anum, Aid.
    split; [f_equal; lia |].
    unfold players in *. cbn [map repeat seq].
    rewrite Apos, Anum, Aid, Hpos, Hnum, Hid.
    repeat split; try (constructor; assumption).
    + f_equal. lia.
    + do 3 f_equal. lia.
Qed.

Lemma update_nth_map {A B} (f : A -> B) (g : A -> A) (i : nat) (l : list A) :
  (forall x, f (g x) = f x) -> map f (update_nth i g l) = map f l.
Proof.
  intro H. revert i. induction l as [| x l IH]; intros [| i]; cbn;
    try reflexivity; [rewrite H | rewrite IH]; reflexivity.
Qed.

Lemma update_nth_Forall {A} (P : A -> Prop) (g : A -> A) (i : nat) (l : list A) :
  (forall x, P x -> P (g x)) -> Forall P l -> Forall P (update_nth i g l).
Proof.
  intros H Hl. revert i. induction Hl as [| x l Hx Hl IH]; intros [| i]; cbn;
    constructor; auto.
Qed.

Lemma one_captain (l : list SquadPlayer) (i : nat) :
  Forall (fun p => is_captain (sp_player p) = false) l ->
  (i < List.length l)%nat ->
  List.length (filter is_captain (players (update_nth i make_captain l))) = 1%nat.
Proof.
  intro Hl. revert i. induction Hl as [| x l Hx Hl IH]; intros i Hi.
  - cbn in Hi. lia.
  - destruct i as [| i]; cbn [update_nth players map filter].
    + cbn [make_captain sp_player is_captain List.length]. f_equal.
      clear IH Hi. induction Hl as [| y l Hy Hl IH]; [reflexivity |].
      cbn [map filter]. rewrite Hy. exact IH.
    + rewrite Hx. apply IH. cbn in Hi. lia.
Qed.

Lemma block_length (position : Position) (n : nat) (b : list SquadPlayer) :
  map natural_position (players b) = repeat position n -> List.length b = n.
Proof.
  intro H. apply (f_equal (@List.length Position)) in H.
  unfold players in H. rewrite !length_map, repeat_length in H. exact H.
Qed.

(** The 23 players, before the captain is drawn. *)
Lemma all_players_run tp c :
  exists squad,
    for_each positions_distribution
      (fun entry squad => for_range (snd entry) (new_player (fst entry)) squad)
      [] tp c = Ret squad (138 + c)%nat
    /\ map natural_position (players squad)
       = repeat GK 3 ++ repeat DF 8 ++ repeat MD 8 ++ repeat AT 4
    /\ map jersey_number (players squad) = map Z.of_nat (seq 1 23)
    /\ map p_id (players squad)
       = map (fun k => ("player_" ++ py_str (Z.of_nat k))%string) (seq 1 23)
    /\ Forall (fun p => is_captain (sp_player p) = false) squad
    /\ Forall well_rated squad.
Proof.
  cbn [for_each positions_distribution fst snd].
  destruct (players_of_one_position GK 3 [] tp c)
    as (b1 & H1 & P1 & N1 & I1 & C1 & W1).
  rewrite (bind_run _ _ _ _ _ _ H1).
  destruct (players_of_one_position DF 8 ([] ++ b1) tp (6 * 3 + c)%nat)
    as (b2 & H2 & P2 & N2 & I2 & C2 & W2).
  rewrite (bind_run _ _ _ _ _ _ H2).
  destruct (players_of_one_position MD 8 (([] ++ b1) ++ b2) tp
              (6 * 8 + (6 * 3 + c))%nat)
    as (b3 & H3 & P3 & N3 & I3 & C3 & W3).
  rewrite (bind_run _ _ _ _ _ _ H3).
  destruct (players_of_one_position AT 4 ((([] ++ b1) ++ b2) ++ b3) tp
              (6 * 8 + (6 * 8 + (6 * 3 + c)))%nat)
    as (b4 & H4 & P4 & N4 & I4 & C4 & W4).
  rewrite (bind_run _ _ _ _ _ _ H4).
  pose proof (block_length _ _ _ P1) as L1.
  pose proof (block_length _ _ _ P2) as L2.
  pose proof (block_length _ _ _ P3) as L3.
  cbn [app] in *. rewrite !length_app, ?L1, ?L2, ?L3 in *.
  cbn [List.length Nat.add] in *.
  eexists. split; [unfold ret; f_equal; lia |].
  unfold players in *. rewrite !map_app.
  rewrite P1, P2, P3, P4, N1, N2, N3, N4, I1, I2, I3, I4.
  repeat split; try reflexivity.
  - repeat (apply Forall_app; split); assumption.
  - repeat (apply Forall_app; split); assumption.
Qed.

(** Everything a call of [generate_squad] settles, whatever the draws. *)
Lemma generate_squad_run tp c :
  exists squad,
    generate_squad tp c = Ret squad (139 + c)%nat
    /\ map natural_position (players squad)
       = repeat GK 3 ++ repeat DF 8 ++ repeat MD 8 ++ repeat AT 4
    /\ map jersey_number (players squad) = map Z.of_nat (seq 1 23)
    /\ map p_id (players squad)
       = map (fun k => ("player_" ++ py_str (Z.of_nat k))%string) (seq 1 23)
    /\ List.length (filter is_captain (players squad)) = 1%nat
    /\ Forall well_rated squad.
Proof.
  unfold generate_squad.
  destruct (all_players_run tp c) as (squad & Hrun & P & N & I & C & W).
  rewrite (bind_run _ _ _ _ _ _ Hrun).
  assert (L : List.length squad = 23%nat).
  { apply (f_equal (@List.length Position)) in P. unfold players in P.
    rewrite !length_map in P. exact P. }
  destruct squad as [| p0 rest] eqn:Esq; [discriminate |]. rewrite <- Esq in *.
  destruct (random_index_run (List.length squad) tp (138 + c)%nat ltac:(lia))
    as (i & Hi & Hlt).
  rewrite (bind_run _ _ _ _ _ _ Hi).
  eexists. split; [reflexivity |].
  unfold players in *.
  split; [rewrite <- P, !map_map; apply update_nth_map; reflexivity |].
  split; [rewrite <- N, !map_map; apply update_nth_map; reflexivity |].
  split; [rewrite <- I, !map_map; apply update_nth_map; reflexivity |].
  split; [apply (one_captain squad i C Hlt) |].
  apply update_nth_Forall; [| exact W].
  intros x Hx position. exact (Hx position).
Qed.

(** X1. Whatever the draws, [generate_squad] returns 23 players after 139
    draws: three goalkeepers, eight defenders, eight midfielders and four
    attackers in that order, numbered 1 to 23 by jersey and by id. *)
Theorem generate_squad_shape :
  forall (tp : Tape) (c : nat),
    exists squad,
      generate_squad tp c = Ret squad (139 + c)%nat
      /\ List.length squad = 23%nat
      /\ map natural_position (players squad)
         = repeat GK 3 ++ repeat DF 8 ++ repeat MD 8 ++ repeat AT 4
      /\ map jersey_number (players squad) = map Z.of_nat (seq 1 23)
      /\ map p_id (players squad)
         = map (fun k => ("player_" ++ py_str (Z.of_nat k))%string) (seq 1 23).
Proof.
  intros tp c. destruct (generate_squad_run tp c) as (squad & H & P & N & I & _).
  exists squad. repeat (split; [assumption |]).
  split; [| auto].
  apply (f_equal (@List.length Position)) in P. unfold players in P.
  rewrite !length_map in P. exact P.
Qed.

(** X2. Every player of a generated squad is rated 70 to 95 in the
    natural position and 15 to 65 in each of the three other positions. *)
Theorem generate_squad_ratings :
  forall (tp : Tape) (c : nat),
    exists squad c',
      generate_squad tp c = Ret squad c'
      /\ forall p position,
          In p squad ->
          (position = natural_position (sp_player p) ->
           70 <= rating_at (sp_ratings p) position <= 95)
          /\ (position <> natural_position (sp_player p) ->
              15 <= rating_at (sp_ratings p) position <= 65).
Proof.
  intros tp c. destruct (generate_squad_run tp c) as (squad & H & _ & _ & _ & _ & W).
  exists squad, (139 + c)%nat. split; [exact H |].
  intros p position Hin. rewrite Forall_forall in W.
  specialize (W p Hin position).
  destruct (Position_eqb position (natural_position (sp_player p))) eqn:E.
  - split; [intros _; exact W |].
    intro Hne. exfalso. apply Hne. clear - E.
    destruct position, (natural_position (sp_player p)); try discriminate E;
      reflexivity.
  - split; [| intros _; exact W].
    intros ->. clear - E.
    destruct (natural_position (sp_player p)); discriminate E.
Qed.

Lemma generate_squad_ratings_witness :
  exists squad c' p,
    generate_squad (tape_of []) 0%nat = Ret squad c'
    /\ nth_error squad 0 = Some p
    /\ natural_position (sp_player p) = GK
    /\ 70 <= rating_at (sp_ratings p) GK <= 95
    /\ 15 <= rating_at (sp_ratings p) AT <= 65.
Proof.
  destruct (generate_squad_ratings (tape_of []) 0%nat) as (squad & c' & H & R).
  assert (E : exists p rest, squad = p :: rest /\ natural_position (sp_player p) = GK).
  { vm_compute in H. injection H as <- _. eexists. eexists. split; reflexivity. }
  destruct E as (p & rest & -> & G).
  exists (p :: rest), c', p. split; [exact H |]. split; [reflexivity |].
  split; [exact G |].
  destruct (R p GK (or_introl eq_refl)) as [R1 _].
  destruct (R p AT (or_introl eq_refl)) as [_ R2].
  split; [apply R1; symmetry; exact G | apply R2; rewrite G; discriminate].
Defined.

(** X3. A generated squad has exactly one captain. *)
Theorem generate_squad_one_captain :
  forall (tp : Tape) (c : nat),
    exists squad c',
      generate_squad tp c = Ret squad c'
      /\ List.length (filter is_captain (players squad)) = 1%nat.
Proof.
  intros tp c. destruct (generate_squad_run tp c) as (squad & H & _ & _ & _ & C & _).
  exists squad, (139 + c)%nat. auto.
Qed.

(** ** Team ratings *)

Lemma py_round_floor (x : Q) : py_round x = Qfloor x \/ py_round x = Qfloor x + 1.
Proof.
  unfold py_round. destruct (x - inject_Z (Qfloor x) ?= 1 # 2)%Q; auto.
  destruct (Z.even (Qfloor x)); auto.
Qed.

Lemma py_round_lower (x : Q) (n : Z) : (inject_Z n <= x)%Q -> n <= py_round x.
Proof.
  intro H. apply Qfloor_resp_le in H. rewrite Qfloor_Z in H.
  destruct (py_round_floor x) as [-> | ->]; lia.
Qed.

Lemma py_round_upper (x : Q) (n : Z) : (x <= inject_Z n)%Q -> py_round x <= n.
Proof.
  intro H. pose proof (Qfloor_resp_le _ _ H) as Hf. rewrite Qfloor_Z in Hf.
  assert (Hint : (x - inject_Z (Qfloor x) < 1 # 2)%Q \/ Qfloor x < n).
  { destruct (Z.eq_dec (Qfloor x) n) as [E | E]; [left | right; lia].
    rewrite E. lra. }
  unfold py_round. destruct (x - inject_Z (Qfloor x) ?= 1 # 2)%Q eqn:C.
  - destruct Hint as [Hlt | Hlt].
    + rewrite Qlt_alt in Hlt. congruence.
    + destruct (Z.even (Qfloor x)); lia.
  - exact Hf.
  - destruct Hint as [Hlt | Hlt]; [| lia].
    rewrite Qlt_alt in Hlt. congruence.
Qed.

Lemma py_round2_bounds (x : Q) (lo hi : Z) :
  (inject_Z lo <= x)%Q -> (x <= inject_Z hi)%Q ->
  (inject_Z lo <= py_round2 x)%Q /\ (py_round2 x <= inject_Z hi)%Q.
Proof.
  intros Hlo Hhi. unfold py_round2.
  assert (L : lo * 100 <= py_round (x * 100)).
  { apply py_round_lower. rewrite inject_Z_mult. change (inject_Z 100) with 100%Q.
    apply Qmult_le_compat_r; [exact Hlo | discriminate]. }
  assert (U : py_round (x * 100) <= hi * 100).
  { apply py_round_upper. rewrite inject_Z_mult. change (inject_Z 100) with 100%Q.
    apply Qmult_le_compat_r; [exact Hhi | discriminate]. }
  split.
  - apply Qle_shift_div_l; [reflexivity |].
    change 100%Q with (inject_Z 100). rewrite <- inject_Z_mult.
    rewrite <- Zle_Qle. exact L.
  - apply Qle_shift_div_r; [reflexivity |].
    change 100%Q with (inject_Z 100). rewrite <- inject_Z_mult.
    rewrite <- Zle_Qle. exact U.
Qed.

Lemma total_rating_bounds (lo hi : Z) (squad : list SquadPlayer) (acc : Z) :
  Forall (fun p => lo <= own_rating p <= hi) squad ->
  acc + lo * Z.of_nat (List.length squad)
  <= fold_left (fun acc p => acc + own_rating p) squad acc
  <= acc + hi * Z.of_nat (List.length squad).
Proof.
  intro H. revert acc. induction H as [| p l Hp Hl IH]; intro acc.
  - cbn. lia.
  - cbn [fold_left List.length]. specialize (IH (acc + own_rating p)). lia.
Qed.

Lemma team_rating_between (squad : list SquadPlayer) (lo hi : Z) :
  squad <> [] ->
  Forall (fun p => lo <= own_rating p <= hi) squad ->
  (inject_Z lo <= calculate_team_rating squad)%Q
  /\ (calculate_team_rating squad <= inject_Z hi)%Q.
Proof.
  intros Hne H. destruct squad as [| p l]; [congruence |].
  unfold calculate_team_rating.
  pose proof (total_rating_bounds lo hi (p :: l) 0 H) as T.
  set (n := Z.of_nat (List.length (p :: l))) in *.
  assert (Hn : 0 < n) by (unfold n; cbn [List.length]; lia).
  set (total := fold_left (fun acc q => acc + own_rating q) (p :: l) 0) in *.
  assert (Hq : (0 < inject_Z n)%Q)
    by (change 0%Q with (inject_Z 0); rewrite <- Zlt_Qlt; exact Hn).
  apply py_round2_bounds.
  - apply Qle_shift_div_l; [exact Hq |].
    rewrite <- inject_Z_mult, <- Zle_Qle. lia.
  - apply Qle_shift_div_r; [exact Hq |].
    rewrite <- inject_Z_mult, <- Zle_Qle. lia.
Qed.

(** X4. The rating of a team is 0 for an empty squad; for any other squad
    whose players are all rated between [lo] and [hi] in their natural
    position, it lies between [lo] and [hi] as well. *)
Theorem calculate_team_rating_bounds :
  forall (squad : list SquadPlayer) (lo hi : Z),
    calculate_team_rating [] = 0%Q
    /\ (squad <> [] ->
        Forall (fun p => lo <= own_rating p <= hi) squad ->
        (inject_Z lo <= calculate_team_rating squad)%Q
        /\ (calculate_team_rating squad <= inject_Z hi)%Q).
Proof.
  intros squad lo hi. split; [reflexivity |]. apply team_rating_between.
Qed.

Lemma calculate_team_rating_bounds_witness :
  (inject_Z 70 <= calculate_team_rating
                    [mkSquadPlayer (mkPlayer "player_1" "Kofi Mensah" GK 1 true)
                       (mkRatings 83 20 31 44);
                     mkSquadPlayer (mkPlayer "player_2" "Musa Diop" AT 2 false)
                       (mkRatings 15 65 40 78)])%Q
  /\ (calculate_team_rating
        [mkSquadPlayer (mkPlayer "player_1" "Kofi Mensah" GK 1 true)
           (mkRatings 83 20 31 44);
         mkSquadPlayer (mkPlayer "player_2" "Musa Diop" AT 2 false)
           (mkRatings 15 65 40 78)] <= inject_Z 95)%Q.
Proof.
  apply (calculate_team_rating_bounds _ 70 95).
  - discriminate.
  - repeat constructor; cbn; lia.
Defined.

(** X5. The rating computed for a generated squad lies between 70 and
    95. *)
Theorem generated_squad_rating :
  forall (tp : Tape) (c : nat),
    exists squad c',
      generate_squad tp c = Ret squad c'
      /\ (70 <= calculate_team_rating squad)%Q
      /\ (calculate_team_rating squad <= 95)%Q.
Proof.
  intros tp c.
  destruct (generate_squad_run tp c) as (squad & H & P & _ & _ & _ & W).
  exists squad, (139 + c)%nat. split; [exact H |].
  apply (team_rating_between squad 70 95).
  - clear H. intro E. rewrite E in P. discriminate P.
  - eapply Forall_impl; [| exact W]. intros p Hp. unfold own_rating.
    specialize (Hp (natural_position (sp_player p))).
    destruct (natural_position (sp_player p)); exact Hp.
Qed.

Lemma existsb_through {A B} (f : B -> bool) (g : A -> B) (l : list A) :
  existsb (fun x => f (g x)) l = existsb f (map g l).
Proof.
  induction l as [| x l IH]; [reflexivity |]. cbn. rewrite IH. reflexivity.
Qed.

Lemma squad_positions_fielded (name : string) (r : Q) (l : list Player)
    (e : option string) :
  map natural_position l
  = repeat GK 3 ++ repeat DF 8 ++ repeat MD 8 ++ repeat AT 4 ->
  fielded (mkTeam name r l e) = true.
Proof.
  intro P. unfold fielded. cbn [squad].
  pose proof (existsb_through
                (fun q => match q with AT | MD => true | _ => false end)
                natural_position l) as A.
  change (existsb is_AT_or_MD l
          = existsb (fun q => match q with AT | MD => true | _ => false end)
              (map natural_position l)) in A.
  pose proof (existsb_through (fun q => Position_eqb q GK) natural_position l)
    as B.
  change (existsb is_GK l
          = existsb (fun q => Position_eqb q GK) (map natural_position l)) in B.
  rewrite A, B, P. reflexivity.
Qed.

(** X6. Two teams that play with generated squads can always be
    simulated: every pick of a scorer, a goalkeeper or a fouling player finds
    somebody, and the non-knockout simulation returns whatever the draws. *)
Theorem generated_squads_can_play :
  forall (tp : Tape) (c : nat),
    exists squad1 squad2,
      generate_squad tp c = Ret squad1 (139 + c)%nat
      /\ generate_squad tp (139 + c)%nat = Ret squad2 (278 + c)%nat
      /\ forall (name1 name2 : string) (email1 email2 : option string)
                (detailed : bool) (fuel : nat) (tp' : Tape) (c' : nat),
          (46 <= fuel)%nat ->
          exists r c'',
            simulate_match fuel
              (mkTeam name1 (calculate_team_rating squad1) (players squad1) email1)
              (mkTeam name2 (calculate_team_rating squad2) (players squad2) email2)
              detailed false tp' c' = Ret r c''.
Proof.
  intros tp c.
  destruct (generate_squad_run tp c) as (s1 & H1 & P1 & _).
  destruct (generate_squad_run tp (139 + c)%nat) as (s2 & H2 & P2 & _).
  exists s1, s2. split; [exact H1 |].
  split; [rewrite H2; f_equal; lia |].
  intros name1 name2 email1 email2 detailed fuel tp' c' Hfuel.
  apply non_knockout_returns; try (intros _; exact Hfuel);
    apply squad_positions_fielded; assumption.
Qed.

Lemma generated_squads_can_play_witness :
  exists squad1 squad2 r c'',
    generate_squad (tape_of []) 0%nat = Ret squad1 139%nat
    /\ generate_squad (tape_of []) 139%nat = Ret squad2 278%nat
    /\ simulate_match 46
         (mkTeam "Ghana" (calculate_team_rating squad1) (players squad1) None)
         (mkTeam "Mali" (calculate_team_rating squad2) (players squad2) None)
         true false tape_one_all 0%nat = Ret r c''.
Proof.
  destruct (generated_squads_can_play (tape_of []) 0%nat)
    as (squad1 & squad2 & H1 & H2 & P).
  destruct (P "Ghana" "Mali" None None true 46%nat tape_one_all 0%nat
              ltac:(lia)) as (r & c'' & H).
  exists squad1, squad2, r, c''. auto.
Defined.

(** ** Backfilling goal scorers *)

Lemma backfill_candidates_nonempty (t : Team) (placeholder : string) :
  backfill_candidates t placeholder <> [].
Proof.
  unfold backfill_candidates.
  destruct (filter is_AT_or_MD (squad t)); [| cbn; discriminate].
  destruct (squad t); cbn; discriminate.
Qed.

Lemma backfill_scorer_run (t : Team) (placeholder : string)
    (gs : list GoalScorer) tp c :
  exists g,
    backfill_scorer t placeholder gs tp c = Ret (gs ++ [g]) (2 + c)%nat
    /\ 5 <= gs_minute g <= 120 /\ gs_team g = country t.
Proof.
  unfold backfill_scorer.
  destruct (random_choice_run _ tp c (backfill_candidates_nonempty t placeholder))
    as (name & Hname).
  rewrite (bind_run _ _ _ _ _ _ Hname).
  rewrite (bind_run _ _ _ _ _ _ (random_randint_run 5 120 tp (S c))).
  eexists. split; [reflexivity |]. cbn [gs_minute gs_team].
  pose proof (Z.mod_pos_bound (Qfloor (tp (S c))) (120 - 5 + 1) ltac:(lia)).
  split; [lia | reflexivity].
Qed.

Lemma backfill_loop_run (t : Team) (placeholder : string) (n : nat) :
  forall (gs : list GoalScorer) tp c,
    exists added,
      for_range n (backfill_scorer t placeholder) gs tp c
      = Ret (gs ++ added) (2 * n + c)%nat
      /\ List.length added = n
      /\ Forall (fun g => 5 <= gs_minute g <= 120 /\ gs_team g = country t) added.
Proof.
  induction n as [| n IH]; intros gs tp c.
  - exists []. rewrite app_nil_r. repeat split. constructor.
  - cbn [for_range].
    destruct (backfill_scorer_run t placeholder gs tp c) as (g & Hg & Hm & Ht).
    rewrite (bind_run _ _ _ _ _ _ Hg).
    destruct (IH (gs ++ [g]) tp (2 + c)%nat) as (added & Hrun & Hlen & Hall).
    exists (g :: added). rewrite Hrun, <- app_assoc.
    split; [f_equal; lia |].
    split; [cbn; lia |]. constructor; auto.
Qed.

Lemma insert_scorer_filter (f : GoalScorer -> bool) (g : GoalScorer)
    (l : list GoalScorer) :
  List.length (filter f (insert_scorer g l)) = List.length (filter f (g :: l)).
Proof.
  induction l as [| x l IH]; [reflexivity |].
  cbn [insert_scorer]. destruct (gs_minute g <=? gs_minute x); [reflexivity |].
  cbn [filter] in *. destruct (f x), (f g); cbn [List.length] in *; lia.
Qed.

Lemma sort_scorers_filter (f : GoalScorer -> bool) (l : list GoalScorer) :
  List.length (filter f (sort_scorers l)) = List.length (filter f l).
Proof.
  induction l as [| g l IH]; [reflexivity |].
  cbn [sort_scorers fold_right]. rewrite insert_scorer_filter.
  fold (sort_scorers l). cbn [filter]. destruct (f g); cbn [List.length]; lia.
Qed.

Lemma sort_scorers_length (l : list GoalScorer) :
  List.length (sort_scorers l) = List.length l.
Proof.
  pose proof (sort_scorers_filter (fun _ => true) l) as H.
  rewrite !filter_all in H. exact H.
Qed.

Lemma insert_scorer_Forall (P : GoalScorer -> Prop) (g : GoalScorer)
    (l : list GoalScorer) :
  P g -> Forall P l -> Forall P (insert_scorer g l).
Proof.
  intros Hg Hl. induction Hl as [| x l Hx Hl IH]; cbn [insert_scorer].
  - constructor; auto.
  - destruct (gs_minute g <=? gs_minute x); repeat constructor; auto.
Qed.

Lemma sort_scorers_Forall (P : GoalScorer -> Prop) (l : list GoalScorer) :
  Forall P l -> Forall P (sort_scorers l).
Proof.
  intro H. induction H as [| g l Hg Hl IH]; [constructor |].
  cbn [sort_scorers fold_right]. apply insert_scorer_Forall; assumption.
Qed.

Lemma insert_scorer_sorted (g : GoalScorer) (l : list GoalScorer) :
  nondecreasing (scorer_minutes l) = true ->
  nondecreasing (scorer_minutes (insert_scorer g l)) = true.
Proof.
  induction l as [| x l IH]; intro H; [reflexivity |].
  cbn [insert_scorer]. destruct (gs_minute g <=? gs_minute x) eqn:E.
  - change (scorer_minutes (g :: x :: l))
      with (gs_minute g :: scorer_minutes (x :: l)).
    apply nondecreasing_cons. split; [| exact H].
    intros y l' [= <- _]. apply Z.leb_le in E. lia.
  - change (scorer_minutes (x :: insert_scorer g l))
      with (gs_minute x :: scorer_minutes (insert_scorer g l)).
    change (scorer_minutes (x :: l)) with (gs_minute x :: scorer_minutes l) in H.
    apply nondecreasing_cons in H. destruct H as [Hhead Htail].
    apply nondecreasing_cons. split; [| apply IH; exact Htail].
    intros y l' Hy. apply Z.leb_gt in E.
    destruct l as [| z l'']; cbn [insert_scorer scorer_minutes map] in Hy.
    + injection Hy as <- _. lia.
    + destruct (gs_minute g <=? gs_minute z); cbn [map] in Hy;
        injection Hy as <- _; [lia |].
      eapply Hhead. reflexivity.
Qed.

Lemma sort_scorers_sorted (l : list GoalScorer) :
  nondecreasing (scorer_minutes (sort_scorers l)) = true.
Proof.
  induction l as [| g l IH]; [reflexivity |].
  cbn [sort_scorers fold_right]. apply insert_scorer_sorted. exact IH.
Qed.

Lemma entries_of_team (c : string) (l : list GoalScorer) :
  Forall (fun g => gs_team g = c) l -> scorer_entries c l = Z.of_nat (List.length l).
Proof.
  intro H. unfold scorer_entries. f_equal.
  induction H as [| g l Hg Hl IH]; [reflexivity |].
  cbn [filter]. rewrite Hg, String.eqb_refl. cbn [List.length]. f_equal. exact IH.
Qed.

Lemma entries_of_other_team (c d : string) (l : list GoalScorer) :
  c <> d -> Forall (fun g => gs_team g = d) l -> scorer_entries c l = 0.
Proof.
  intros Hne H. unfold scorer_entries.
  induction H as [| g l Hg Hl IH]; [reflexivity |].
  cbn [filter]. rewrite Hg.
  replace (String.eqb d c) with false
    by (symmetry; apply String.eqb_neq; congruence).
  exact IH.
Qed.

Lemma scorer_entries_app (c : string) (l1 l2 : list GoalScorer) :
  scorer_entries c (l1 ++ l2) = scorer_entries c l1 + scorer_entries c l2.
Proof.
  unfold scorer_entries. rewrite filter_app, length_app. lia.
Qed.

Lemma scorer_entries_sorted (c : string) (l : list GoalScorer) :
  scorer_entries c (sort_scorers l) = scorer_entries c l.
Proof. unfold scorer_entries. rewrite sort_scorers_filter. reflexivity. Qed.

(** What a backfill that reports a change has done. *)
Lemma ensure_goal_scorers_changed (m m' : Match) tp c c' :
  ensure_goal_scorers_for_match m tp c = Ret (true, m') c' ->
  exists r added1 added2,
    m_status m = "completed" /\ m_result m = Some r /\ goal_scorers r = []
    /\ 0 < team1_goals r + team2_goals r
    /\ m' = with_result m (with_goal_scorers r (sort_scorers (added1 ++ added2)))
    /\ List.length added1 = Z.to_nat (team1_goals r)
    /\ List.length added2 = Z.to_nat (team2_goals r)
    /\ Forall (fun g => 5 <= gs_minute g <= 120
                        /\ gs_team g = country (m_team1 m)) added1
    /\ Forall (fun g => 5 <= gs_minute g <= 120
                        /\ gs_team g = country (m_team2 m)) added2
    /\ c' = (2 * (Z.to_nat (team1_goals r) + Z.to_nat (team2_goals r)) + c)%nat.
Proof.
  unfold ensure_goal_scorers_for_match. intro H.
  destruct (String.eqb (m_status m) "completed") eqn:S; cbn [negb] in H;
    [| apply ret_Ret in H; destruct H as [[=] _]].
  destruct (m_result m) as [r |] eqn:R;
    [| apply ret_Ret in H; destruct H as [[=] _]].
  destruct ((team1_goals r + team2_goals r >? 0)
            && (Z.of_nat (List.length (goal_scorers r)) =? 0)) eqn:G;
    [| apply ret_Ret in H; destruct H as [[=] _]].
  apply andb_true_iff in G. destruct G as [G1 G2].
  destruct (backfill_loop_run (m_team1 m) "Player 1" (Z.to_nat (team1_goals r))
              [] tp c) as (a1 & H1 & L1 & F1).
  rewrite (bind_run _ _ _ _ _ _ H1) in H.
  destruct (backfill_loop_run (m_team2 m) "Player 2" (Z.to_nat (team2_goals r))
              ([] ++ a1) tp (2 * Z.to_nat (team1_goals r) + c)%nat)
    as (a2 & H2 & L2 & F2).
  rewrite (bind_run _ _ _ _ _ _ H2) in H.
  apply ret_Ret in H. destruct H as [H Hc]. injection H as <-.
  exists r, a1, a2. apply String.eqb_eq in S.
  split; [exact S |]. split; [reflexivity |].
  split; [destruct (goal_scorers r); [reflexivity | cbn in G2; lia] |].
  split; [lia |]. split; [reflexivity |].
  repeat (split; [assumption |]). lia.
Qed.

(** X7. When the backfill reports a change, the match was completed with
    goals and without scorers, and it now names [t1g + t2g] scorers, in
    non-decreasing order of minutes that all lie in 5..120, [t1g] of them
    for the first team and [t2g] for the second when the two countries
    differ; nothing else of the match or of its result is changed. *)
Theorem backfill_names_every_goal :
  forall (m m' : Match) (tp : Tape) (c c' : nat),
    ensure_goal_scorers_for_match m tp c = Ret (true, m') c' ->
    exists r gs,
      m_status m = "completed" /\ m_result m = Some r /\ goal_scorers r = []
      /\ m' = with_result m (with_goal_scorers r gs)
      /\ List.length gs
         = (Z.to_nat (team1_goals r) + Z.to_nat (team2_goals r))%nat
      /\ nondecreasing (scorer_minutes gs) = true
      /\ Forall (fun g => 5 <= gs_minute g <= 120) gs
      /\ (country (m_team1 m) <> country (m_team2 m) ->
          scorer_entries (country (m_team1 m)) gs
          = Z.of_nat (Z.to_nat (team1_goals r))
          /\ scorer_entries (country (m_team2 m)) gs
             = Z.of_nat (Z.to_nat (team2_goals r))).
Proof.
  intros m m' tp c c' H. apply ensure_goal_scorers_changed in H.
  destruct H as (r & a1 & a2 & S & R & E & G & Hm & L1 & L2 & F1 & F2 & _).
  exists r, (sort_scorers (a1 ++ a2)).
  repeat (split; [assumption |]).
  split; [rewrite sort_scorers_length, length_app; lia |].
  split; [apply sort_scorers_sorted |].
  split.
  { apply sort_scorers_Forall. apply Forall_app. split.
    - eapply Forall_impl; [| exact F1]. cbn. tauto.
    - eapply Forall_impl; [| exact F2]. cbn. tauto. }
  intro Hd. rewrite !scorer_entries_sorted, !scorer_entries_app.
  assert (T1 : Forall (fun g => gs_team g = country (m_team1 m)) a1)
    by (eapply Forall_impl; [| exact F1]; cbn; tauto).
  assert (T2 : Forall (fun g => gs_team g = country (m_team2 m)) a2)
    by (eapply Forall_impl; [| exact F2]; cbn; tauto).
  assert (Hd' : country (m_team2 m) <> country (m_team1 m)) by congruence.
  rewrite (entries_of_team _ _ T1), (entries_of_team _ _ T2).
  rewrite (entries_of_other_team _ _ _ Hd T2).
  rewrite (entries_of_other_team _ _ _ Hd' T1).
  lia.
Qed.

Lemma backfill_names_every_goal_witness :
  exists m' c',
    ensure_goal_scorers_for_match
      (played "Ghana" "Mali" "2025-11-01T09:00:00" "Ghana")
      (tape_of [2; 33]%Q) 0%nat = Ret (true, m') c'
    /\ exists r gs,
         m_result (played "Ghana" "Mali" "2025-11-01T09:00:00" "Ghana") = Some r
         /\ m' = with_result (played "Ghana" "Mali" "2025-11-01T09:00:00" "Ghana")
                   (with_goal_scorers r gs)
         /\ List.length gs
            = (Z.to_nat (team1_goals r) + Z.to_nat (team2_goals r))%nat.
Proof.
  eexists. eexists. split; [vm_compute; reflexivity |].
  lazymatch goal with
  | |- exists r gs, _ /\ ?m' = _ /\ _ =>
      destruct (backfill_names_every_goal
                  (played "Ghana" "Mali" "2025-11-01T09:00:00" "Ghana") m'
                  (tape_of [2; 33]%Q) 0%nat 2%nat)
        as (r & gs & _ & R & _ & Hm & L & _);
        [vm_compute; reflexivity |]
  end.
  exists r, gs. repeat split; assumption.
Defined.

Lemma lacks_scorers_backfilled (m : Match) (r : MatchResult)
    (gs : list GoalScorer) :
  gs <> [] -> lacks_scorers (with_result m (with_goal_scorers r gs)) = false.
Proof.
  intro H. unfold lacks_scorers. cbn.
  destruct gs as [| g gs]; [contradiction |].
  cbn [List.length]. rewrite Nat2Z.inj_succ.
  replace (Z.succ (Z.of_nat (List.length gs)) =? 0) with false
    by (symmetry; apply Z.eqb_neq; lia).
  rewrite !andb_false_r. reflexivity.
Qed.

Lemma ensure_goal_scorers_unchanged (m : Match) tp c :
  lacks_scorers m = false ->
  ensure_goal_scorers_for_match m tp c = Ret (false, m) c.
Proof.
  unfold lacks_scorers, ensure_goal_scorers_for_match. intro H.
  destruct (String.eqb (m_status m) "completed"); cbn [negb andb] in *;
    [| reflexivity].
  destruct (m_result m) as [r |]; [| reflexivity].
  rewrite H. reflexivity.
Qed.

Lemma ensure_goal_scorers_lacking (m : Match) tp c :
  lacks_scorers m = true ->
  exists m' c', ensure_goal_scorers_for_match m tp c = Ret (true, m') c'.
Proof.
  unfold lacks_scorers, ensure_goal_scorers_for_match. intro H.
  apply andb_true_iff in H. destruct H as [S H]. rewrite S. cbn [negb].
  destruct (m_result m) as [r |]; [| discriminate]. rewrite H.
  destruct (backfill_loop_run (m_team1 m) "Player 1" (Z.to_nat (team1_goals r))
              [] tp c) as (a1 & H1 & _).
  rewrite (bind_run _ _ _ _ _ _ H1).
  destruct (backfill_loop_run (m_team2 m) "Player 2" (Z.to_nat (team2_goals r))
              ([] ++ a1) tp (2 * Z.to_nat (team1_goals r) + c)%nat)
    as (a2 & H2 & _).
  rewrite (bind_run _ _ _ _ _ _ H2).
  eexists. eexists. reflexivity.
Qed.

(** X8. The backfill returns for every match and every draw; it reports a
    change exactly for a completed match that shows goals and names no
    scorer, leaves every other match as it is without drawing, and after
    it the match names a scorer, so that a second backfill changes nothing
    and draws nothing. *)
Theorem backfill_settles :
  forall (m : Match) (tp : Tape) (c : nat),
    exists m' c',
      ensure_goal_scorers_for_match m tp c = Ret (lacks_scorers m, m') c'
      /\ (lacks_scorers m = false -> m' = m /\ c' = c)
      /\ lacks_scorers m' = false
      /\ forall (tp2 : Tape) (c2 : nat),
           ensure_goal_scorers_for_match m' tp2 c2 = Ret (false, m') c2.
Proof.
  intros m tp c. destruct (lacks_scorers m) eqn:L.
  - destruct (ensure_goal_scorers_lacking m tp c L) as (m' & c' & H).
    exists m', c'. split; [exact H |]. split; [discriminate |].
    assert (L' : lacks_scorers m' = false).
    { apply ensure_goal_scorers_changed in H.
      destruct H as (r & a1 & a2 & _ & _ & _ & G & -> & L1 & L2 & _).
      apply lacks_scorers_backfilled. intro E.
      apply (f_equal (@List.length GoalScorer)) in E.
      rewrite sort_scorers_length, length_app in E. cbn in E. lia. }
    split; [exact L' |].
    intros tp2 c2. apply ensure_goal_scorers_unchanged. exact L'.
  - exists m, c. rewrite (ensure_goal_scorers_unchanged m tp c L).
    split; [reflexivity |]. split; [auto |]. split; [exact L |].
    intros tp2 c2. apply ensure_goal_scorers_unchanged. exact L.
Qed.

Lemma backfill_settles_witness :
  lacks_scorers (fixture "quarterfinal" ghana mali "2025-11-01T09:00:00") = false
  /\ ensure_goal_scorers_for_match
       (fixture "quarterfinal" ghana mali "2025-11-01T09:00:00")
       (tape_of []) 0%nat
     = Ret (false, fixture "quarterfinal" ghana mali "2025-11-01T09:00:00") 0%nat.
Proof.
  split; [reflexivity |].
  destruct (backfill_settles
              (fixture "quarterfinal" ghana mali "2025-11-01T09:00:00")
              (tape_of []) 0%nat) as (m' & c' & H & U & _).
  destruct (U eq_refl) as [-> ->]. exact H.
Defined.

(** ** Listing the matches *)

Lemma ensure_goal_scorers_backfilled (m : Match) tp c :
  exists m' c',
    ensure_goal_scorers_for_match m tp c = Ret (lacks_scorers m, m') c'
    /\ backfilled m m' /\ lacks_scorers m' = false.
Proof.
  unfold backfilled. destruct (lacks_scorers m) eqn:L.
  - destruct (ensure_goal_scorers_lacking m tp c L) as (m' & c' & H).
    exists m', c'. split; [exact H |].
    apply ensure_goal_scorers_changed in H.
    destruct H as (r & a1 & a2 & _ & R & _ & G & -> & L1 & L2 & _).
    assert (N : sort_scorers (a1 ++ a2) <> []).
    { intro E. apply (f_equal (@List.length GoalScorer)) in E.
      rewrite sort_scorers_length, length_app in E. cbn in E. lia. }
    split; [| apply lacks_scorers_backfilled; exact N].
    exists r, (sort_scorers (a1 ++ a2)). auto.
  - exists m, c. rewrite (ensure_goal_scorers_unchanged m tp c L). auto.
Qed.

Lemma backfill_all_run (ms : list Match) :
  forall tp c,
    exists ms' c',
      backfill_all ms tp c = Ret ms' c'
      /\ Forall2 backfilled ms ms'
      /\ Forall (fun m => lacks_scorers m = false) ms'.
Proof.
  induction ms as [| m ms IH]; intros tp c.
  - exists [], c. repeat split; constructor.
  - cbn [backfill_all].
    destruct (ensure_goal_scorers_backfilled m tp c) as (m' & c1 & H & B & L).
    rewrite (bind_run _ _ _ _ _ _ H).
    destruct (IH tp c1) as (ms' & c2 & Hrest & F2 & FL).
    rewrite (bind_run _ _ _ _ _ _ Hrest).
    exists (m' :: ms'), c2. repeat split; constructor; assumption.
Qed.

Lemma backfill_all_fixed (ms : list Match) :
  Forall (fun m => lacks_scorers m = false) ms ->
  forall tp c, backfill_all ms tp c = Ret ms c.
Proof.
  intro H. induction H as [| m ms L F IH]; intros tp c; [reflexivity |].
  cbn [backfill_all].
  rewrite (bind_run _ _ _ _ _ _ (ensure_goal_scorers_unchanged m tp c L)).
  rewrite (bind_run _ _ _ _ _ _ (IH tp c)). reflexivity.
Qed.

(** X9. Listing the matches returns for every store and every draw.  The
    matches answered are the matches stored afterwards; each is the stored
    match itself, or, for a completed match that showed goals and named no
    scorer, that match with a non-empty scorer list written into its
    result; teams and clock are not touched.  No match listed lacks
    scorers, so listing again answers the same matches, leaves the store
    as it is and draws nothing. *)
Theorem api_matches_backfills_once :
  forall (db : Store) (tp : Tape) (c : nat),
    exists ms c',
      api_matches db tp c = Ret (ms, mkStore (teams db) ms (clock_reads db)) c'
      /\ Forall2 backfilled (matches db) ms
      /\ Forall (fun m => lacks_scorers m = false) ms
      /\ forall (tp2 : Tape) (c2 : nat),
           api_matches (mkStore (teams db) ms (clock_reads db)) tp2 c2
           = Ret (ms, mkStore (teams db) ms (clock_reads db)) c2.
Proof.
  intros db tp c. unfold api_matches.
  destruct (backfill_all_run (matches db) tp c) as (ms & c' & H & F2 & FL).
  exists ms, c'. rewrite (bind_run _ _ _ _ _ _ H).
  split; [reflexivity |]. split; [exact F2 |]. split; [exact FL |].
  intros tp2 c2. cbn [matches teams clock_reads].
  rewrite (bind_run _ _ _ _ _ _ (backfill_all_fixed ms FL tp2 c2)).
  reflexivity.
Qed.

(** ** The final, and what a run of the progression may do *)

Lemma get_team_by_country_registered (db : Store) (c : option string) (t : Team) :
  get_team_by_country db c = Some t -> In t (teams db).
Proof.
  unfold get_team_by_country. destruct c as [[| a s] |]; try discriminate.
  intro H. apply find_some in H. tauto.
Qed.

Lemma winners_of_registered (db : Store) (ms : list Match) :
  Forall (fun t => In t (teams db)) (winners_of db ms).
Proof.
  unfold winners_of. induction ms as [| m ms IH]; [constructor |].
  cbn [flat_map].
  destruct (get_team_by_country db (recorded_winner m)) as [t |] eqn:E;
    [| exact IH].
  constructor; [| exact IH].
  eapply get_team_by_country_registered. exact E.
Qed.

Lemma store_eta (db : Store) :
  db = mkStore (teams db) (matches db ++ []) (0 + clock_reads db).
Proof. destruct db. cbn. rewrite app_nil_r. reflexivity. Qed.

(** X10. A run of the progression only appends: the teams are kept, every
    match stored before is still there, unchanged and in its place, and
    what is added is nothing, or two scheduled semi-finals when there was
    no semi-final, or one scheduled final when there was no final; the
    clock is read once per fixture, and every fixture pairs registered
    teams. *)
Theorem progress_only_appends :
  forall (clock : Clock) (db : Store),
    exists added,
      progress_tournament_if_ready clock db
      = mkStore (teams db) (matches db ++ added)
          (List.length added + clock_reads db)
      /\ Forall (fun m => In (m_team1 m) (teams db) /\ In (m_team2 m) (teams db))
           added
      /\ (added = []
          \/ (in_round "semifinal" (matches db) = []
              /\ exists w0 w1 w2 w3,
                   added = [ fixture "semifinal" w0 w1 (clock (clock_reads db));
                             fixture "semifinal" w2 w3
                               (clock (S (clock_reads db))) ])
          \/ (in_round "final" (matches db) = []
              /\ exists w0 w1,
                   added = [ fixture "final" w0 w1 (clock (clock_reads db)) ])).
Proof.
  intros clock db. unfold progress_tournament_if_ready.
  destruct (all_completed (in_round "quarterfinal" (matches db))
            && (Z.of_nat (List.length (in_round "semifinal" (matches db))) =? 0))
    eqn:HQ.
  - apply andb_true_iff in HQ. destruct HQ as [_ Hsf].
    rewrite (semifinal_not_due_when_due_quarterfinals _ Hsf). cbn [andb].
    pose proof (winners_of_registered db
                  (sort_by_created_at (in_round "quarterfinal" (matches db))))
      as R.
    destruct (winners_of db
                (sort_by_created_at (in_round "quarterfinal" (matches db))))
      as [| w0 [| w1 [| w2 [| w3 ws]]]];
      try (exists []; split; [apply store_eta | split; [constructor | auto]]).
    exists [ fixture "semifinal" w0 w1 (clock (clock_reads db));
             fixture "semifinal" w2 w3 (clock (S (clock_reads db))) ].
    split; [unfold add_fixture; cbn [teams matches clock_reads];
            rewrite <- app_assoc; reflexivity |].
    inversion R as [| ? ? R0 R']; subst. inversion R' as [| ? ? R1 R'']; subst.
    inversion R'' as [| ? ? R2 R3']; subst. inversion R3' as [| ? ? R3 _]; subst.
    split; [repeat constructor; assumption |].
    right. left. split.
    + apply Z.eqb_eq in Hsf.
      destruct (in_round "semifinal" (matches db)); [reflexivity | cbn in Hsf; lia].
    + eauto.
  - destruct (all_completed (in_round "semifinal" (matches db))
              && (Z.of_nat (List.length (in_round "final" (matches db))) =? 0))
      eqn:HF.
    + apply andb_true_iff in HF. destruct HF as [_ Hf].
      pose proof (winners_of_registered db
                    (sort_by_created_at (in_round "semifinal" (matches db))))
        as R.
      destruct (winners_of db
                  (sort_by_created_at (in_round "semifinal" (matches db))))
        as [| w0 [| w1 ws]];
        try (exists []; split; [apply store_eta | split; [constructor | auto]]).
      exists [ fixture "final" w0 w1 (clock (clock_reads db)) ].
      split; [reflexivity |].
      inversion R as [| ? ? R0 R']; subst. inversion R' as [| ? ? R1 _]; subst.
      split; [repeat constructor; assumption |].
      right. right. split.
      * apply Z.eqb_eq in Hf.
        destruct (in_round "final" (matches db)); [reflexivity | cbn in Hf; lia].
      * eauto.
    + exists []. split; [apply store_eta | split; [constructor | auto]].
Qed.

(** X11. When the semi-finals are all completed, the recorded winners of
    the first two by creation time are registered teams and no final
    exists, a run of the progression adds exactly one scheduled final,
    first winner against second winner, and nothing else; no run adds a
    final to a store that has one. *)
Theorem final_from_semifinals :
  forall (clock : Clock) (db : Store) (s1 s2 : Match) (others : list Match)
         (w1 w2 : Team),
    sort_by_created_at (in_round "semifinal" (matches db)) = s1 :: s2 :: others ->
    forallb (fun m => String.eqb (m_status m) "completed") (s1 :: s2 :: others)
    = true ->
    in_round "final" (matches db) = [] ->
    get_team_by_country db (recorded_winner s1) = Some w1 ->
    get_team_by_country db (recorded_winner s2) = Some w2 ->
    progress_tournament_if_ready clock db
    = mkStore (teams db)
        (matches db ++ [fixture "final" w1 w2 (clock (clock_reads db))])
        (S (clock_reads db))
    /\ forall db0 : Store,
         in_round "final" (matches db0) <> [] ->
         in_round "final" (matches (progress_tournament_if_ready clock db0))
         = in_round "final" (matches db0).
Proof.
  intros clock db s1 s2 others w1 w2 Hsort Hdone Hnone H1 H2. split.
  - unfold progress_tournament_if_ready.
    assert (HS : all_completed (in_round "semifinal" (matches db)) = true).
    { unfold all_completed.
      rewrite <- (sort_by_created_at_length (in_round "semifinal" (matches db))).
      rewrite <- (sort_by_created_at_forallb _ (in_round "semifinal" (matches db))).
      rewrite Hsort, Hdone. reflexivity. }
    assert (HN : (Z.of_nat (List.length (in_round "semifinal" (matches db))) =? 0)
                 = false).
    { rewrite <- (sort_by_created_at_length (in_round "semifinal" (matches db))).
      rewrite Hsort. reflexivity. }
    rewrite HS, HN, Hnone, Hsort, andb_false_r. cbn [List.length Z.of_nat Z.eqb andb].
    unfold winners_of. cbn [flat_map]. rewrite H1, H2. reflexivity.
  - intros db0 H. unfold progress_tournament_if_ready.
    replace (Z.of_nat (List.length (in_round "final" (matches db0))) =? 0)
      with false
      by (symmetry; apply Z.eqb_neq;
          destruct (in_round "final" (matches db0)); [congruence | cbn; lia]).
    rewrite andb_false_r.
    destruct (all_completed (in_round "quarterfinal" (matches db0))
              && (Z.of_nat (List.length (in_round "semifinal" (matches db0))) =? 0));
      [| reflexivity].
    destruct (winners_of db0
                (sort_by_created_at (in_round "quarterfinal" (matches db0))))
      as [| w0' [| w1' [| w2' [| w3' ws]]]]; try reflexivity.
    cbn [add_fixture matches]. rewrite !in_round_app. cbn. rewrite !app_nil_r.
    reflexivity.
Qed.

Lemma final_from_semifinals_witness :
  sort_by_created_at (in_round "semifinal" (matches store_semifinals_played))
  = [ semifinal_played "Ghana" "Togo" "2025-11-01T10:00:00" "Ghana";
      semifinal_played "Niger" "Benin" "2025-11-01T10:00:01" "Benin" ]
  /\ in_round "final" (matches store_semifinals_played) = []
  /\ map (fun m => (m_round m, country (m_team1 m), country (m_team2 m), m_status m))
       (matches (progress_tournament_if_ready sample_clock store_semifinals_played))
     = map (fun m => (m_round m, country (m_team1 m), country (m_team2 m), m_status m))
         (matches store_semifinals_played)
       ++ [ ("final", "Ghana", "Benin", "scheduled") ].
Proof.
  split; [reflexivity |]. split; [reflexivity |].
  destruct (final_from_semifinals sample_clock store_semifinals_played
              (semifinal_played "Ghana" "Togo" "2025-11-01T10:00:00" "Ghana")
              (semifinal_played "Niger" "Benin" "2025-11-01T10:00:01" "Benin")
              [] (sample_team "Ghana" 70) (sample_team "Benin" 70)
              eq_refl eq_refl eq_refl eq_refl eq_refl)
    as (Hadd & _).
  rewrite Hadd. cbn [matches]. rewrite map_app. reflexivity.
Defined.

(** ** When the completion e-mail goes out *)

Lemma scorer_lines_of_scorers (gs : list GoalScorer) :
  forall acc, exists text, scorer_lines (map scorer_dict gs) acc = inr text.
Proof.
  induction gs as [| g gs IH]; intro acc; cbn [map scorer_lines].
  - eauto.
  - cbn [scorer_line scorer_dict py_get lookup String.eqb Ascii.eqb Bool.eqb
           ebind].
    apply IH.
Qed.

Lemma unset_configured (s : string) : s <> "" -> unset (Some s) = false.
Proof. intro H. cbn. apply String.eqb_neq. exact H. Qed.

(** The test [result.get('decided_by') == 'penalties']. *)
Lemma other_than_penalties {A} (s : string) (a b : A) :
  s <> "penalties" ->
  match PStr s with
  | PStr "penalties" => a
  | _ => b
  end = b.
Proof.
  intro H.
  repeat (destruct s as [| [[] [] [] [] [] [] [] []] s]; try reflexivity).
  contradiction.
Qed.

Lemma federation_emails_of (t : Team) :
  (if truthy (optional_string (email t)) then [optional_string (email t)] else [])
  = map PStr (address t).
Proof.
  unfold address. destruct (email t) as [s |]; [| reflexivity].
  cbn [optional_string truthy]. destruct (String.eqb s ""); reflexivity.
Qed.

Lemma all_strings_of (l : list string) : all_strings (map PStr l) = inr l.
Proof.
  induction l as [| s l IH]; [reflexivity |]. cbn [map all_strings].
  rewrite IH. reflexivity.
Qed.

Lemma match_nonempty {A B C} (f : A -> B) (l : list A) (x y : C) :
  l <> [] ->
  match map f l with
  | [] => x
  | _ :: _ => y
  end = y.
Proof. destruct l; [congruence | reflexivity]. Qed.

Lemma print_written (console : Console) (l : Line) :
  (forall l', console l' = None) -> print console l = inr tt.
Proof. intro H. unfold print. rewrite H. reflexivity. Qed.

(** The handler around the SMTP session, on a console that writes every
    line. *)
Lemma handler_delivered (console : Console) (o : option exn) :
  (forall l, console l = None) ->
  match (match o with Some e => inl e | None => inr true end : E bool) with
  | inr sent => inr sent
  | inl e => ebind (print console (Failed e)) (fun _ => inr false)
  end = (inr (delivered o) : E bool).
Proof.
  intro H. destruct o as [e |]; [| reflexivity].
  rewrite (print_written _ _ H). reflexivity.
Qed.

Lemma py_capitalize_text (s : string) :
  exists t, py_capitalize (PStr s) = inr t.
Proof. destruct s; cbn; eauto. Qed.

Lemma scorers_text_of (gs : list GoalScorer) :
  exists text,
    (if truthy (PList (map scorer_dict gs))
     then ebind (py_iter (PList (map scorer_dict gs)))
            (fun items =>
               scorer_lines items (nl ++ nl ++ "Goal Scorers:" ++ nl)%string)
     else inr "") = inr text.
Proof.
  destruct gs as [| g gs]; [cbn; eauto |].
  change (truthy (PList (map scorer_dict (g :: gs)))) with true.
  cbn [py_iter ebind]. apply scorer_lines_of_scorers.
Qed.

Lemma penalty_info_empty {A} (o : option string) (a : A) (b : A) :
  o <> Some "penalties" ->
  match optional_string o with
  | PStr "penalties" => a
  | _ => b
  end = b.
Proof.
  intro H. destruct o as [s |]; [| reflexivity].
  apply other_than_penalties. congruence.
Qed.

(** X12. With the sender configured, a result not decided on penalties
    and a standard output that writes every line: when neither team has
    an address the function returns [False] without a message; otherwise
    one message goes to the server, from the configured sender, to the
    addresses of the two teams joined by a comma, under the subject
    [Match Result: A vs B - Round], and the function returns [True] when
    the server lets it through and [False] when the server raises. *)
Theorem email_follows_the_server :
  forall (env : Environment) (user password : string) (m : Match)
         (r : MatchResult),
    EMAIL_USER env = Some user -> user <> "" ->
    EMAIL_PASSWORD env = Some password -> password <> "" ->
    decided_by r <> Some "penalties" ->
    (addresses m = [] ->
     forall (console : Console) (smtp : Smtp),
       (forall l, console l = None) ->
       send_match_completion_email env console smtp (match_dict m) (result_dict r)
       = inr false)
    /\ (addresses m <> [] ->
        exists (round_name : string) (msg : Message),
          py_capitalize (PStr (m_round m)) = inr round_name
          /\ msg_from msg = user
          /\ msg_to msg = join ", " (addresses m)
          /\ msg_subject msg
             = ("Match Result: " ++ country (m_team1 m) ++ " vs "
                ++ country (m_team2 m) ++ " - " ++ round_name)%string
          /\ forall (console : Console) (smtp : Smtp),
               (forall l, console l = None) ->
               send_match_completion_email env console smtp (match_dict m)
                 (result_dict r)
               = inr (delivered (smtp user password msg))).
Proof.
  intros env user password m r Hu Hun Hp Hpn Hd.
  unfold send_match_completion_email, send_match_completion_email_body.
  rewrite Hu, Hp, (unset_configured _ Hun), (unset_configured _ Hpn).
  cbn [orb].
  cbn [match_dict team_dict result_dict py_get lookup String.eqb Ascii.eqb Bool.eqb
         ebind].
  rewrite !federation_emails_of, <- map_app. fold (addresses m).
  destruct (py_capitalize_text (m_round m)) as (round_name & ->). cbn [ebind].
  split.
  - intros -> console smtp Hc. cbn [map]. rewrite (print_written _ _ Hc).
    reflexivity.
  - intro Hne. destruct (scorers_text_of (goal_scorers r)) as (text & Ht).
    exists round_name. eexists (mkMessage user _ _ _).
    split; [reflexivity |]. split; [reflexivity |]. split; [reflexivity |].
    split; [reflexivity |].
    intros console smtp Hc. rewrite (match_nonempty PStr _ _ _ Hne), Ht.
    rewrite (penalty_info_empty _ _ _ Hd), all_strings_of.
    cbn [ebind py_format]. rewrite (print_written _ _ Hc). cbn [ebind].
    rewrite (handler_delivered _ _ Hc). reflexivity.
Qed.

Lemma unset_false (o : option string) :
  unset o = false -> exists s, o = Some s /\ s <> "".
Proof.
  destruct o as [s |]; [| discriminate]. cbn. intro H.
  exists s. split; [reflexivity |]. apply String.eqb_neq. exact H.
Qed.

Lemma join_nonempty (sep x : string) (l : list string) :
  x <> "" -> join sep (x :: l) <> "".
Proof.
  cbn [join]. revert x. induction l as [| y l IH]; intros x Hx; [exact Hx |].
  cbn [fold_left]. apply IH. destruct x; [congruence | discriminate].
Qed.

Lemma first_recipient (v w : pyval) (a b : pyval) (l : list pyval) :
  (if truthy a then [a] else []) ++ (if truthy b then [b] else []) = v :: l ->
  truthy v = true.
Proof.
  destruct (truthy a) eqn:Ta; [intros [= <- _]; exact Ta |].
  destruct (truthy b) eqn:Tb; [intros [= <- _]; exact Tb | discriminate].
Qed.

Lemma all_strings_first (v : pyval) (l : list pyval) (rs : list string) :
  truthy v = true -> all_strings (v :: l) = inr rs ->
  exists s rs', rs = s :: rs' /\ s <> "".
Proof.
  intros T H. destruct v; try discriminate H. cbn [all_strings] in H.
  destruct (all_strings l) as [e | rs']; [discriminate H |].
  injection H as <-. exists s, rs'. split; [reflexivity |].
  cbn in T. apply String.eqb_neq. destruct (String.eqb s ""); [discriminate | reflexivity].
Qed.

(** X13. Whatever the arguments, the configuration, the console and the
    server: the function returns [True] only after the server has accepted
    a message that comes from the configured sender, both credentials
    being set, and that names at least one recipient. *)
Theorem email_true_means_delivered :
  forall (env : Environment) (console : Console) (smtp : Smtp)
         (match_data result : pyval),
    send_match_completion_email env console smtp match_data result = inr true ->
    exists (user password : string) (msg : Message),
      EMAIL_USER env = Some user /\ user <> ""
      /\ EMAIL_PASSWORD env = Some password /\ password <> ""
      /\ msg_from msg = user /\ msg_to msg <> ""
      /\ smtp user password msg = None.
Proof.
  intros env console smtp match_data result H.
  unfold send_match_completion_email in H.
  destruct (send_match_completion_email_body env console smtp match_data result)
    as [e | sent] eqn:B;
    [destruct (print console (Failed e)); discriminate H |].
  injection H as ->. rename B into H.
  unfold send_match_completion_email_body in H.
  destruct (unset (EMAIL_USER env)) eqn:Hu;
    [destruct (print console NotConfigured); discriminate H |].
  destruct (unset (EMAIL_PASSWORD env)) eqn:Hp;
    [destruct (print console NotConfigured); discriminate H |].
  cbn [orb] in H.
  destruct (unset_false _ Hu) as (user & Eu & Hun).
  destruct (unset_false _ Hp) as (password & Ep & Hpn).
  rewrite Eu, Ep in H.
  repeat match type of H with
         | context [ebind ?x _] =>
             destruct x eqn:?; cbn [ebind] in H; [discriminate H |]
         end.
  match type of H with
  | context [match ?l with [] => _ | _ :: _ => _ end] =>
      destruct l as [| v fe] eqn:Hfe;
        [destruct (print console NoFederationEmails); discriminate H |]
  end.
  repeat match type of H with
         | context [ebind ?x _] =>
             destruct x eqn:?; cbn [ebind] in H; [discriminate H |]
         end.
  match type of H with
  | context [smtp user password ?msg] =>
      destruct (smtp user password msg) eqn:S; [discriminate H |];
        exists user, password, msg
  end.
  repeat (split; [assumption || reflexivity |]).
  split; [| exact S]. cbn [msg_to].
  apply (first_recipient v v) in Hfe.
  match goal with
  | Hr : all_strings _ = inr ?rs |- _ =>
      destruct (all_strings_first _ _ _ Hfe Hr) as (first & others & -> & Hs)
  end.
  apply join_nonempty. exact Hs.
Qed.

Lemma email_true_means_delivered_witness :
  send_match_completion_email sample_environment console_utf8 smtp_delivers
    sample_match_data
    (result_dict (mkResult "Ghana" "Mali" "1-0" 1 0 "Ghana" [] [] None None false))
  = inr true
  /\ exists (user password : string) (msg : Message),
       EMAIL_USER sample_environment = Some user /\ user <> ""
       /\ EMAIL_PASSWORD sample_environment = Some password /\ password <> ""
       /\ msg_from msg = user /\ msg_to msg <> ""
       /\ smtp_delivers user password msg = None.
Proof.
  split; [reflexivity |].
  apply (email_true_means_delivered sample_environment console_utf8
           smtp_delivers sample_match_data
           (result_dict
              (mkResult "Ghana" "Mali" "1-0" 1 0 "Ghana" [] [] None None false))).
  reflexivity.
Defined.

Lemma email_follows_the_server_witness :
  addresses (played "Ghana" "Mali" "2025-11-01T09:00:00" "Ghana")
  = ["Ghana@example.org"; "Mali@example.org"]
  /\ send_match_completion_email sample_environment console_utf8 smtp_delivers
       (match_dict (played "Ghana" "Mali" "2025-11-01T09:00:00" "Ghana"))
       (result_dict (mkResult "Ghana" "Mali" "1-0" 1 0 "Ghana" [] [] None None false))
     = inr true
  /\ send_match_completion_email sample_environment console_utf8
       (fun _ _ _ => Some SMTPException)
       (match_dict (played "Ghana" "Mali" "2025-11-01T09:00:00" "Ghana"))
       (result_dict (mkResult "Ghana" "Mali" "1-0" 1 0 "Ghana" [] [] None None false))
     = inr false.
Proof.
  split; [reflexivity |].
  destruct (email_follows_the_server sample_environment
              "league@example.org" "app-password"
              (played "Ghana" "Mali" "2025-11-01T09:00:00" "Ghana")
              (mkResult "Ghana" "Mali" "1-0" 1 0 "Ghana" [] [] None None false)
              eq_refl ltac:(discriminate) eq_refl ltac:(discriminate)
              ltac:(discriminate)) as [_ H].
  destruct (H ltac:(discriminate)) as (round_name & msg & _ & _ & _ & _ & Hs).
  split; rewrite Hs by reflexivity; reflexivity.
Defined.

(** ** A new tournament *)

Lemma eight_or_more (l : list Team) :
  (8 <= List.length l)%nat ->
  exists a b c d e f g h rest, l = a :: b :: c :: d :: e :: f :: g :: h :: rest.
Proof.
  intro H.
  do 8 (destruct l as [| ? l]; [cbn in H; lia |]).
  repeat eexists.
Qed.

(** X14. With eight teams or more, creating a tournament answers success
    and leaves exactly four matches, whatever was stored before: scheduled
    quarter-finals without a result, pairing the first eight teams streamed
    two by two in their order; the teams are kept; resetting first makes no
    difference; and the bracket then waits: a run of the progression adds
    nothing to it. *)
Theorem tournament_starts_with_quarterfinals :
  forall (clock : Clock) (db : Store),
    (8 <= List.length (teams db))%nat ->
    success (fst (api_create_tournament clock db)) = true
    /\ teams (snd (api_create_tournament clock db)) = teams db
    /\ List.length (matches (snd (api_create_tournament clock db))) = 4%nat
    /\ Forall (fun m => m_round m = "quarterfinal" /\ m_status m = "scheduled"
                        /\ m_result m = None)
         (matches (snd (api_create_tournament clock db)))
    /\ flat_map (fun m => [m_team1 m; m_team2 m])
         (matches (snd (api_create_tournament clock db)))
       = firstn 8 (teams db)
    /\ snd (api_create_tournament clock (snd (api_reset_tournament db)))
       = snd (api_create_tournament clock db)
    /\ progress_tournament_if_ready clock (snd (api_create_tournament clock db))
       = snd (api_create_tournament clock db).
Proof.
  intros clock db H.
  destruct (eight_or_more _ H) as (a & b & c & d & e & f & g & h & rest & E).
  assert (E' : teams (snd (api_reset_tournament db))
               = a :: b :: c :: d :: e :: f :: g :: h :: rest) by exact E.
  rewrite (create_tournament_accepts_eight_or_more clock _ _ _ _ _ _ _ _ _ _ E').
  rewrite (create_tournament_accepts_eight_or_more clock db _ _ _ _ _ _ _ _ _ E).
  cbn [fst snd success teams matches clock_reads api_reset_tournament].
  split; [reflexivity |]. split; [reflexivity |]. split; [reflexivity |].
  split; [repeat constructor |].
  split; [rewrite E; reflexivity |].
  split; [reflexivity |].
  apply progress_nothing_due; reflexivity.
Qed.

Lemma tournament_starts_with_quarterfinals_witness :
  map (fun m => (m_round m, country (m_team1 m), country (m_team2 m), m_status m))
    (matches (snd (api_create_tournament sample_clock store_quarterfinals_played)))
  = [ ("quarterfinal", "Ghana", "Mali", "scheduled");
      ("quarterfinal", "Kenya", "Togo", "scheduled");
      ("quarterfinal", "Chad", "Niger", "scheduled");
      ("quarterfinal", "Benin", "Gabon", "scheduled") ]
  /\ progress_tournament_if_ready sample_clock
       (snd (api_create_tournament sample_clock store_quarterfinals_played))
     = snd (api_create_tournament sample_clock store_quarterfinals_played).
Proof.
  split; [reflexivity |].
  apply (tournament_starts_with_quarterfinals sample_clock
           store_quarterfinals_played).
  cbn. lia.
Defined.

(** ** Playing a match *)

Lemma knockout_winner (fuel : nat) (team1_data team2_data : Team)
    (detailed : bool) (r : MatchResult) tp c c' :
  simulate_match fuel team1_data team2_data detailed true tp c = Ret r c' ->
  winner r = country team1_data \/ winner r = country team2_data.
Proof.
  intro H. apply simulate_match_Ret in H.
  destruct H as (b1 & b2 & g1 & g2 & tl & cT & gs & cS & res & cR
                 & _ & _ & _ & _ & _ & _ & _ & W & _).
  apply pick_winner_Ret in W.
  destruct W as [(_ & W) | [(_ & W) | [(_ & K & _) | (_ & _ & b & _ & W)]]];
    try (rewrite W; auto; fail); [discriminate K |].
  rewrite W. destruct b; auto.
Qed.

Lemma update_nth_length {A} (f : A -> A) (l : list A) :
  forall i, List.length (update_nth i f l) = List.length l.
Proof.
  induction l as [| x l IH]; intros [| i]; cbn; try rewrite IH; reflexivity.
Qed.

Lemma update_nth_same {A} (f : A -> A) (l : list A) :
  forall i x, nth_error l i = Some x ->
              nth_error (update_nth i f l) i = Some (f x).
Proof.
  induction l as [| y l IH]; intros [| i] x H; cbn in *; try discriminate.
  - congruence.
  - apply IH. exact H.
Qed.

Lemma update_nth_other {A} (f : A -> A) (l : list A) :
  forall i j, i <> j -> nth_error (update_nth i f l) j = nth_error l j.
Proof.
  induction l as [| y l IH]; intros [| i] [| j] H; cbn; try reflexivity;
    try congruence.
  apply IH. congruence.
Qed.

(** What a run of the progression does to the matches: at most two are
    appended. *)
Lemma progress_appends (clock : Clock) (db : Store) :
  exists added,
    matches (progress_tournament_if_ready clock db) = matches db ++ added
    /\ (List.length added <= 2)%nat
    /\ teams (progress_tournament_if_ready clock db) = teams db.
Proof.
  unfold progress_tournament_if_ready.
  destruct (all_completed (in_round "quarterfinal" (matches db))
            && (Z.of_nat (List.length (in_round "semifinal" (matches db))) =? 0))
    eqn:HQ.
  - apply andb_true_iff in HQ. destruct HQ as [_ Hsf].
    rewrite (semifinal_not_due_when_due_quarterfinals _ Hsf). cbn [andb].
    destruct (winners_of db
                (sort_by_created_at (in_round "quarterfinal" (matches db))))
      as [| w0 [| w1 [| w2 [| w3 ws]]]];
      try (exists []; rewrite app_nil_r; cbn; auto; fail).
    eexists. unfold add_fixture. cbn [teams matches clock_reads].
    rewrite <- app_assoc. split; [reflexivity |]. cbn. auto.
  - destruct (all_completed (in_round "semifinal" (matches db))
              && (Z.of_nat (List.length (in_round "final" (matches db))) =? 0)).
    + destruct (winners_of db
                  (sort_by_created_at (in_round "semifinal" (matches db))))
        as [| w0 [| w1 ws]];
        try (exists []; rewrite app_nil_r; cbn; auto; fail).
      eexists. unfold add_fixture. cbn [teams matches clock_reads].
      split; [reflexivity |]. cbn. auto.
    + exists []. rewrite app_nil_r. cbn. auto.
Qed.

(** X15. When one of the two routes answers success, the match addressed
    has been simulated, as a knock-out match exactly when its round is a
    quarter-final, a semi-final or the final, and is now stored as
    completed with the result that is answered; no other match stored
    before is touched, the teams are kept and at most two fixtures have been
    added behind; in a knock-out round the winner recorded is the country
    of one of the two teams.  Nothing is asked of the match beforehand: a
    match already completed is played again and its result replaced. *)
Theorem route_completes_the_match :
  forall (detailed : bool) (fuel : nat) (env : Environment) (console : Console)
         (smtp : Smtp) (clock : Clock) (match_id : nat) (db db' : Store)
         (tp : Tape) (c : nat) (a : Answer),
    match_route detailed fuel env console smtp clock match_id db tp c
    = Some (a, db') ->
    answer_success a = true ->
    exists (m : Match) (r : MatchResult) (c' : nat),
      nth_error (matches db) match_id = Some m
      /\ simulate_match fuel (m_team1 m) (m_team2 m) detailed
           (knockout_round (m_round m)) tp c = Ret r c'
      /\ a = mkAnswer true (Some r) None
      /\ db' = progress_tournament_if_ready clock (record_result match_id r db)
      /\ teams db' = teams db
      /\ nth_error (matches db') match_id = Some (completed m r)
      /\ (forall j : nat,
            j <> match_id -> (j < List.length (matches db))%nat ->
            nth_error (matches db') j = nth_error (matches db) j)
      /\ (List.length (matches db) <= List.length (matches db')
          <= 2 + List.length (matches db))%nat
      /\ (knockout_round (m_round m) = true ->
          winner r = country (m_team1 m) \/ winner r = country (m_team2 m)).
Proof.
  intros detailed fuel env console smtp clock match_id db db' tp c a H S.
  unfold match_route in H.
  destruct (nth_error (matches db) match_id) as [m |] eqn:Hm;
    [| injection H as <- _; discriminate S].
  destruct (simulate_match fuel (m_team1 m) (m_team2 m) detailed
              (knockout_round (m_round m)) tp c) as [r c' | e |] eqn:Hr;
    [| injection H as <- _; discriminate S | discriminate H].
  cbv zeta in H.
  destruct (send_match_completion_email env console smtp (match_dict m)
              (result_dict r)) as [e | sent];
    [injection H as <- _; discriminate S |].
  injection H as <- <-.
  destruct (progress_appends clock (record_result match_id r db))
    as (added & Hadd & Hlen & Hteams).
  exists m, r, c'. split; [reflexivity |]. split; [exact Hr |].
  split; [reflexivity |]. split; [reflexivity |].
  split; [rewrite Hteams; reflexivity |].
  assert (L : List.length (matches (record_result match_id r db))
              = List.length (matches db))
    by (cbn [record_result matches]; apply update_nth_length).
  split.
  { rewrite Hadd, nth_error_app1
      by (rewrite L; apply nth_error_Some; congruence).
    cbn [record_result matches].
    apply (update_nth_same (fun m0 => completed m0 r)). exact Hm. }
  split.
  { intros j Hj Hlt. rewrite Hadd, nth_error_app1 by (rewrite L; exact Hlt).
    cbn [record_result matches]. apply update_nth_other. congruence. }
  split; [rewrite Hadd, length_app, L; lia |].
  intro K. rewrite K in Hr. eapply knockout_winner. exact Hr.
Qed.

Lemma route_completes_the_match_witness :
  exists (a : Answer) (db' : Store) (m : Match) (r : MatchResult),
    simulate_match_route 1 sample_environment console_utf8 smtp_delivers
      sample_clock 0 store_quarterfinals_played tape_one_nil 0%nat
    = Some (a, db')
    /\ answer_success a = true
    /\ nth_error (matches store_quarterfinals_played) 0 = Some m
    /\ nth_error (matches db') 0 = Some (completed m r)
    /\ (winner r = country (m_team1 m) \/ winner r = country (m_team2 m)).
Proof.
  assert (H : exists x,
             simulate_match_route 1 sample_environment console_utf8
               smtp_delivers sample_clock 0 store_quarterfinals_played
               tape_one_nil 0%nat = Some x /\ answer_success (fst x) = true).
  { eexists. split; [vm_compute; reflexivity | reflexivity]. }
  destruct H as ([a db'] & H & S). cbn [fst] in S.
  destruct (route_completes_the_match false 1 sample_environment console_utf8
              smtp_delivers sample_clock 0 store_quarterfinals_played db'
              tape_one_nil 0%nat a H S)
    as (m & r & c' & Hm & _ & _ & _ & _ & Hat & _ & _ & W).
  exists a, db', m, r. split; [exact H |]. split; [exact S |].
  split; [exact Hm |]. split; [exact Hat |].
  apply W. cbn in Hm. injection Hm as <-. reflexivity.
Defined.

Lemma email_returns_on_a_writing_console (env : Environment)
    (console : Console) (smtp : Smtp) (match_data result : pyval) :
  (forall l, console l = None) ->
  exists sent,
    send_match_completion_email env console smtp match_data result = inr sent.
Proof.
  intro Hc.
  destruct (handler_outcomes env console smtp match_data result)
    as [(sent & _ & S) | [(e & _ & _ & S) | (e & x & _ & C & _)]]; eauto.
  rewrite Hc in C. discriminate C.
Qed.

(** X16. When one of the two routes answers failure, no result is answered
    and no fixture is added.  Either nothing at all has changed: the
    document was missing ([AttributeError]) or the simulation raised; or
    the result has been stored and the match completed, and the e-mail
    function raised from its handler before the bracket was looked at.
    With a standard output that writes every line only the first is
    possible: a failed request leaves the store as it was. *)
Theorem route_failure_is_partial :
  forall (detailed : bool) (fuel : nat) (env : Environment) (console : Console)
         (smtp : Smtp) (clock : Clock) (match_id : nat) (db db' : Store)
         (tp : Tape) (c : nat) (a : Answer),
    match_route detailed fuel env console smtp clock match_id db tp c
    = Some (a, db') ->
    answer_success a = false ->
    answer_result a = None
    /\ teams db' = teams db
    /\ List.length (matches db') = List.length (matches db)
    /\ ((db' = db
         /\ (nth_error (matches db) match_id = None
             /\ answer_error a = Some AttributeError
             \/ exists (m : Match) (e : exn),
                  nth_error (matches db) match_id = Some m
                  /\ simulate_match fuel (m_team1 m) (m_team2 m) detailed
                       (knockout_round (m_round m)) tp c = Raise e
                  /\ answer_error a = Some e))
        \/ exists (m : Match) (r : MatchResult) (c' : nat) (e : exn),
             nth_error (matches db) match_id = Some m
             /\ simulate_match fuel (m_team1 m) (m_team2 m) detailed
                  (knockout_round (m_round m)) tp c = Ret r c'
             /\ send_match_completion_email env console smtp (match_dict m)
                  (result_dict r) = inl e
             /\ answer_error a = Some e
             /\ db' = record_result match_id r db)
    /\ ((forall l, console l = None) -> db' = db).
Proof.
  intros detailed fuel env console smtp clock match_id db db' tp c a H S.
  unfold match_route in H.
  destruct (nth_error (matches db) match_id) as [m |] eqn:Hm.
  - destruct (simulate_match fuel (m_team1 m) (m_team2 m) detailed
                (knockout_round (m_round m)) tp c) as [r c' | e |] eqn:Hr;
      [| | discriminate H].
    + cbv zeta in H.
      destruct (send_match_completion_email env console smtp (match_dict m)
                  (result_dict r)) as [e | sent] eqn:Hs;
        [| injection H as <- _; discriminate S].
      injection H as <- <-. split; [reflexivity |]. split; [reflexivity |].
      split; [cbn [record_result matches]; apply update_nth_length |].
      split.
      * right. exists m, r, c', e. auto.
      * intro Hc.
        destruct (email_returns_on_a_writing_console env console smtp
                    (match_dict m) (result_dict r) Hc) as (sent & Hsent).
        congruence.
    + injection H as <- <-. repeat (split; [reflexivity |]). split; [| auto].
      left. split; [reflexivity |]. right. exists m, e. auto.
  - injection H as <- <-. repeat (split; [reflexivity |]). split; [| auto].
    left. split; [reflexivity |]. left. auto.
Qed.

Lemma route_failure_is_partial_witness :
  play_match 1 sample_environment console_ascii smtp_delivers sample_clock 9
    store_quarterfinals_played tape_one_nil 0%nat
  = Some (mkAnswer false None (Some AttributeError), store_quarterfinals_played)
  /\ teams store_quarterfinals_played = teams store_quarterfinals_played
  /\ List.length (matches store_quarterfinals_played) = 4%nat.
Proof.
  split; [reflexivity |].
  destruct (route_failure_is_partial true 1 sample_environment console_ascii
              smtp_delivers sample_clock 9 store_quarterfinals_played
              store_quarterfinals_played tape_one_nil 0%nat
              (mkAnswer false None (Some AttributeError)) eq_refl eq_refl)
    as (_ & T & L & _).
  split; [exact T | exact L].
Defined.

(** *** From the draw to the semi-finals *)

Lemma match_route_succeeded (detailed : bool) (fuel : nat) (env : Environment)
    (console : Console) (smtp : Smtp) (clock : Clock) (match_id : nat)
    (db db' : Store) (tp : Tape) (c : nat) (a : Answer) :
  match_route detailed fuel env console smtp clock match_id db tp c
  = Some (a, db') ->
  answer_success a = true ->
  exists (m : Match) (r : MatchResult) (c' : nat),
    nth_error (matches db) match_id = Some m
    /\ simulate_match fuel (m_team1 m) (m_team2 m) detailed
         (knockout_round (m_round m)) tp c = Ret r c'
    /\ a = mkAnswer true (Some r) None
    /\ db' = progress_tournament_if_ready clock (record_result match_id r db).
Proof.
  intros H S. unfold match_route in H.
  destruct (nth_error (matches db) match_id) as [m |] eqn:Hm;
    [| injection H as <- _; discriminate S].
  destruct (simulate_match fuel (m_team1 m) (m_team2 m) detailed
              (knockout_round (m_round m)) tp c) as [r c' | e |] eqn:Hr;
    [| injection H as <- _; discriminate S | discriminate H].
  cbv zeta in H.
  destruct (send_match_completion_email env console smtp (match_dict m)
              (result_dict r)) as [e | sent];
    [injection H as <- _; discriminate S |].
  injection H as <- <-. exists m, r, c'. auto.
Qed.

Lemma find_by_country (l : list Team) (x : Team) :
  NoDup (map country l) -> In x l ->
  find (fun t => String.eqb (country t) (country x)) l = Some x.
Proof.
  induction l as [| y l IH]; intros N H; [contradiction |].
  cbn [map] in N. inversion N as [| ? ? Hy N']; subst.
  cbn [find]. destruct H as [-> | H].
  - rewrite String.eqb_refl. reflexivity.
  - destruct (String.eqb (country y) (country x)) eqn:E; [| apply IH; assumption].
    apply String.eqb_eq in E. exfalso. apply Hy. rewrite E.
    apply in_map. exact H.
Qed.

Lemma registered_winner (db : Store) (x : Team) (r : MatchResult) (m : Match) :
  NoDup (map country (teams db)) -> In x (teams db) -> country x <> "" ->
  winner r = country x ->
  get_team_by_country db (recorded_winner (completed m r)) = Some x.
Proof.
  intros N H Hne W. unfold recorded_winner, completed, get_team_by_country.
  cbn [m_result]. rewrite W.
  destruct (country x) as [| ch s] eqn:E; [congruence |].
  rewrite <- E. apply find_by_country; assumption.
Qed.

(** The winner of a quarter-final that the route has played is one of its
    two teams. *)
Lemma quarterfinal_winner (fuel : nat) (x y : Team) (detailed : bool)
    (created_at : string) (r : MatchResult) tp c c' :
  simulate_match fuel
    (m_team1 (fixture "quarterfinal" x y created_at))
    (m_team2 (fixture "quarterfinal" x y created_at)) detailed
    (knockout_round (m_round (fixture "quarterfinal" x y created_at))) tp c
  = Ret r c' ->
  exists w, In w [x; y] /\ winner r = country w.
Proof.
  intro H. apply knockout_winner in H. cbn [fixture m_team1 m_team2] in H.
  destruct H as [H | H]; [exists x | exists y]; cbn; auto.
Qed.

(** X17. From the draw to the semi-finals.  A tournament is created over
    teams of different, non-empty countries, the clock not running
    backwards while the four quarter-finals are stored, and the four
    quarter-finals are then played one after the other through the routes,
    each request answering success.  Then every answer names as winner one
    of the two teams of its match; no semi-final exists before the fourth
    result is stored; and after it the store holds the four completed
    quarter-finals followed by exactly two scheduled semi-finals: winner of
    the first against winner of the second, winner of the third against
    winner of the fourth. *)
Theorem quarterfinals_make_semifinals :
  forall (fuel : nat) (env : Environment) (console : Console) (smtp : Smtp)
         (clock : Clock) (db0 : Store)
         (u1 u2 u3 u4 u5 u6 u7 u8 : Team) (rest : list Team)
         (d0 d1 d2 d3 : bool) (tp0 tp1 tp2 tp3 : Tape) (c0 c1 c2 c3 : nat)
         (a0 a1 a2 a3 : Answer) (db1 db2 db3 db4 : Store),
    teams db0 = u1 :: u2 :: u3 :: u4 :: u5 :: u6 :: u7 :: u8 :: rest ->
    NoDup (map country (teams db0)) ->
    Forall (fun t => country t <> "") [u1; u2; u3; u4; u5; u6; u7; u8] ->
    String.leb (clock (clock_reads db0)) (clock (1 + clock_reads db0)%nat) = true ->
    String.leb (clock (1 + clock_reads db0)%nat) (clock (2 + clock_reads db0)%nat)
    = true ->
    String.leb (clock (2 + clock_reads db0)%nat) (clock (3 + clock_reads db0)%nat)
    = true ->
    match_route d0 fuel env console smtp clock 0
      (snd (api_create_tournament clock db0)) tp0 c0 = Some (a0, db1) ->
    answer_success a0 = true ->
    match_route d1 fuel env console smtp clock 1 db1 tp1 c1 = Some (a1, db2) ->
    answer_success a1 = true ->
    match_route d2 fuel env console smtp clock 2 db2 tp2 c2 = Some (a2, db3) ->
    answer_success a2 = true ->
    match_route d3 fuel env console smtp clock 3 db3 tp3 c3 = Some (a3, db4) ->
    answer_success a3 = true ->
    exists (w0 w1 w2 w3 : Team) (r0 r1 r2 r3 : MatchResult),
      (In w0 [u1; u2] /\ In w1 [u3; u4] /\ In w2 [u5; u6] /\ In w3 [u7; u8])
      /\ (a0 = mkAnswer true (Some r0) None /\ a1 = mkAnswer true (Some r1) None
          /\ a2 = mkAnswer true (Some r2) None /\ a3 = mkAnswer true (Some r3) None)
      /\ (winner r0 = country w0 /\ winner r1 = country w1
          /\ winner r2 = country w2 /\ winner r3 = country w3)
      /\ in_round "semifinal" (matches db3) = []
      /\ matches db4
         = [ completed (fixture "quarterfinal" u1 u2 (clock (clock_reads db0))) r0;
             completed (fixture "quarterfinal" u3 u4 (clock (1 + clock_reads db0)%nat))
               r1;
             completed (fixture "quarterfinal" u5 u6 (clock (2 + clock_reads db0)%nat))
               r2;
             completed (fixture "quarterfinal" u7 u8 (clock (3 + clock_reads db0)%nat))
               r3;
             fixture "semifinal" w0 w1 (clock (12 + clock_reads db0)%nat);
             fixture "semifinal" w2 w3 (clock (13 + clock_reads db0)%nat) ].
Proof.
  intros fuel env console smtp clock db0 u1 u2 u3 u4 u5 u6 u7 u8 rest
         d0 d1 d2 d3 tp0 tp1 tp2 tp3 c0 c1 c2 c3 a0 a1 a2 a3 db1 db2 db3 db4
         HT N NE L01 L12 L23 H0 S0 H1 S1 H2 S2 H3 S3.
  rewrite (create_tournament_accepts_eight_or_more clock db0 _ _ _ _ _ _ _ _ _ HT)
    in H0.
  cbn [snd] in H0. set (n := clock_reads db0) in *.
  (* first quarter-final *)
  apply match_route_succeeded in H0; [| exact S0].
  destruct H0 as (m0 & r0 & c0' & M0 & R0 & -> & ->).
  cbn [matches nth_error] in M0. injection M0 as <-.
  destruct (quarterfinal_winner _ _ _ _ _ _ _ _ _ R0) as (w0 & I0 & W0).
  rewrite progress_nothing_due in H1 by reflexivity.
  (* second *)
  apply match_route_succeeded in H1; [| exact S1].
  destruct H1 as (m1 & r1 & c1' & M1 & R1 & -> & ->).
  cbn [record_result update_nth matches nth_error] in M1. injection M1 as <-.
  destruct (quarterfinal_winner _ _ _ _ _ _ _ _ _ R1) as (w1 & I1 & W1).
  rewrite progress_nothing_due in H2 by reflexivity.
  (* third *)
  apply match_route_succeeded in H2; [| exact S2].
  destruct H2 as (m2 & r2 & c2' & M2 & R2 & -> & ->).
  cbn [record_result update_nth matches nth_error teams clock_reads] in M2.
  injection M2 as <-.
  destruct (quarterfinal_winner _ _ _ _ _ _ _ _ _ R2) as (w2 & I2 & W2).
  rewrite progress_nothing_due in H3 by reflexivity.
  (* fourth *)
  apply match_route_succeeded in H3; [| exact S3].
  destruct H3 as (m3 & r3 & c3' & M3 & R3 & -> & ->).
  cbn [record_result update_nth matches nth_error teams clock_reads] in M3.
  injection M3 as <-.
  destruct (quarterfinal_winner _ _ _ _ _ _ _ _ _ R3) as (w3 & I3 & W3).
  exists w0, w1, w2, w3, r0, r1, r2, r3.
  split; [auto |]. split; [auto |]. split; [auto |].
  split; [reflexivity |].
  (* the bracket after the fourth result *)
  assert (In0 : In w0 (teams db0)) by (rewrite HT; cbn in I0 |- *; tauto).
  assert (In1 : In w1 (teams db0)) by (rewrite HT; cbn in I1 |- *; tauto).
  assert (In2 : In w2 (teams db0)) by (rewrite HT; cbn in I2 |- *; tauto).
  assert (In3 : In w3 (teams db0)) by (rewrite HT; cbn in I3 |- *; tauto).
  assert (Ne : forall w, In w [u1; u2; u3; u4; u5; u6; u7; u8] -> country w <> "")
    by (apply Forall_forall; exact NE).
  assert (Ne0 : country w0 <> "") by (apply Ne; cbn in I0 |- *; tauto).
  assert (Ne1 : country w1 <> "") by (apply Ne; cbn in I1 |- *; tauto).
  assert (Ne2 : country w2 <> "") by (apply Ne; cbn in I2 |- *; tauto).
  assert (Ne3 : country w3 <> "") by (apply Ne; cbn in I3 |- *; tauto).
  unfold progress_tournament_if_ready, record_result, completed, fixture.
  cbn [update_nth matches teams clock_reads in_round filter m_round m_status
         m_team1 m_team2
         m_created_at String.eqb Ascii.eqb Bool.eqb all_completed List.length
         forallb andb Z.of_nat Pos.of_succ_nat Pos.succ Z.ltb Z.eqb Z.compare
         sort_by_created_at fold_right insert_match].
  rewrite L23. cbn [insert_match m_created_at]. rewrite L12.
  cbn [insert_match m_created_at]. rewrite L01.
  unfold winners_of. cbn [flat_map].
  match goal with
  | |- context [get_team_by_country ?d _] => set (db := d)
  end.
  pose proof (registered_winner db w0 r0
                (mkMatch "quarterfinal" u1 u2 "scheduled" (clock n) None)
                N In0 Ne0 W0) as G0.
  pose proof (registered_winner db w1 r1
                (mkMatch "quarterfinal" u3 u4 "scheduled" (clock (1 + n)%nat) None)
                N In1 Ne1 W1) as G1.
  pose proof (registered_winner db w2 r2
                (mkMatch "quarterfinal" u5 u6 "scheduled" (clock (2 + n)%nat) None)
                N In2 Ne2 W2) as G2.
  pose proof (registered_winner db w3 r3
                (mkMatch "quarterfinal" u7 u8 "scheduled" (clock (3 + n)%nat) None)
                N In3 Ne3 W3) as G3.
  unfold completed in G0, G1, G2, G3. cbn [m_round m_team1 m_team2 m_created_at] in G0, G1, G2, G3.
  rewrite G0, G1, G2, G3.
  cbn [app add_fixture matches clock_reads teams]. subst db.
  cbn [matches clock_reads teams app]. reflexivity.
Qed.

Lemma quarterfinals_make_semifinals_witness :
  exists (db1 db2 db3 db4 : Store) (a0 a1 a2 a3 : Answer),
    simulate_match_route 46 sample_environment console_utf8 smtp_delivers
      sample_clock 0
      (snd (api_create_tournament sample_clock store_quarterfinals_played))
      tape_one_nil 0%nat = Some (a0, db1)
    /\ play_match 46 sample_environment console_utf8 smtp_delivers
         sample_clock 1 db1 tape_quiet_match 0%nat = Some (a1, db2)
    /\ simulate_match_route 46 sample_environment console_utf8 smtp_delivers
         sample_clock 2 db2 tape_one_nil 0%nat = Some (a2, db3)
    /\ simulate_match_route 46 sample_environment console_utf8 smtp_delivers
         sample_clock 3 db3 tape_one_nil 0%nat = Some (a3, db4)
    /\ in_round "semifinal" (matches db3) = []
    /\ map (fun m => (country (m_team1 m), country (m_team2 m), m_status m))
         (in_round "semifinal" (matches db4))
       = [ ("Ghana", "Kenya", "scheduled"); ("Chad", "Benin", "scheduled") ].
Proof.
  assert (H : exists x0 x1 x2 x3,
             match_route false 46 sample_environment console_utf8 smtp_delivers
               sample_clock 0
               (snd (api_create_tournament sample_clock store_quarterfinals_played))
               tape_one_nil 0%nat = Some x0
             /\ match_route true 46 sample_environment console_utf8 smtp_delivers
                  sample_clock 1 (snd x0) tape_quiet_match 0%nat = Some x1
             /\ match_route false 46 sample_environment console_utf8 smtp_delivers
                  sample_clock 2 (snd x1) tape_one_nil 0%nat = Some x2
             /\ match_route false 46 sample_environment console_utf8 smtp_delivers
                  sample_clock 3 (snd x2) tape_one_nil 0%nat = Some x3
             /\ answer_success (fst x0) = true /\ answer_success (fst x1) = true
             /\ answer_success (fst x2) = true /\ answer_success (fst x3) = true
             /\ map (fun m => (country (m_team1 m), country (m_team2 m), m_status m))
                  (in_round "semifinal" (matches (snd x3)))
                = [ ("Ghana", "Kenya", "scheduled"); ("Chad", "Benin", "scheduled") ]).
  { do 4 eexists.
    split; [vm_compute; reflexivity |]. split; [vm_compute; reflexivity |].
    split; [vm_compute; reflexivity |]. split; [vm_compute; reflexivity |].
    repeat (split; [reflexivity |]). vm_compute. reflexivity. }
  destruct H as ([a0 db1] & [a1 db2] & [a2 db3] & [a3 db4]
                 & H0 & H1 & H2 & H3 & S0 & S1 & S2 & S3 & Hsemi).
  cbn [fst snd] in *.
  exists db1, db2, db3, db4, a0, a1, a2, a3.
  assert (N : NoDup (map country (teams store_quarterfinals_played)))
    by (repeat constructor; cbn; intuition discriminate).
  assert (NE : Forall (fun t => country t <> "")
                 [sample_team "Ghana" 70; sample_team "Mali" 70;
                  sample_team "Kenya" 70; sample_team "Togo" 70;
                  sample_team "Chad" 70; sample_team "Niger" 70;
                  sample_team "Benin" 70; sample_team "Gabon" 70])
    by (repeat constructor; discriminate).
  destruct (quarterfinals_make_semifinals 46 sample_environment console_utf8
              smtp_delivers sample_clock store_quarterfinals_played
              (sample_team "Ghana" 70) (sample_team "Mali" 70)
              (sample_team "Kenya" 70) (sample_team "Togo" 70)
              (sample_team "Chad" 70) (sample_team "Niger" 70)
              (sample_team "Benin" 70) (sample_team "Gabon" 70) []
              false true false false tape_one_nil tape_quiet_match tape_one_nil
              tape_one_nil 0%nat 0%nat 0%nat 0%nat a0 a1 a2 a3 db1 db2 db3 db4
              eq_refl N NE
              ltac:(vm_compute; reflexivity) ltac:(vm_compute; reflexivity)
              ltac:(vm_compute; reflexivity)
              H0 S0 H1 S1 H2 S2 H3 S3)
    as (w0 & w1 & w2 & w3 & r0 & r1 & r2 & r3 & _ & _ & _ & Hnone & _).
  auto 10.
Defined.

(** ** Registering a team *)

Lemma find_appended (name : string) (l : list Team) (t : Team) :
  existsb (fun x => String.eqb (country x) name) l = false ->
  country t = name ->
  find (fun x => String.eqb (country x) name) (l ++ [t]) = Some t
  /\ find (fun x => String.eqb (country x) name) l = None.
Proof.
  intros H E. induction l as [| y l IH]; cbn [app find existsb] in *.
  - rewrite E, String.eqb_refl. auto.
  - apply orb_false_iff in H. destruct H as [Hy Hl]. rewrite Hy. apply IH. exact Hl.
Qed.

Lemma not_registered (name : string) (l : list Team) :
  existsb (fun x => String.eqb (country x) name) l = false ->
  ~ In name (map country l).
Proof.
  intros H I. apply in_map_iff in I. destruct I as (x & E & I).
  assert (T : existsb (fun x => String.eqb (country x) name) l = true).
  { apply existsb_exists. exists x. split; [exact I |]. apply String.eqb_eq. exact E. }
  congruence.
Qed.

Lemma NoDup_appended {A} (l : list A) (x : A) :
  NoDup l -> ~ In x l -> NoDup (l ++ [x]).
Proof.
  intros N H. induction N as [| y l Hy N IH]; cbn [app].
  - constructor; [intros [] | constructor].
  - constructor.
    + rewrite in_app_iff. intros [I | [-> | []]]; [exact (Hy I) |].
      apply H. left. reflexivity.
    + apply IH. intro I. apply H. right. exact I.
Qed.

(** What a registration can be, for every payload and every draw. *)
Lemma api_create_team_run (strip : string -> string) (clock : Clock)
    (payload : pyval) (db : Store) tp c :
  (exists r, api_create_team strip clock payload db tp c = Ret (r, db) c
             /\ forall t, r <> Registered t)
  \/ exists (country_ manager representative email_ : string)
            (squad_ : list SquadPlayer),
       registration_fields strip payload
       = inr (country_, manager, representative, email_)
       /\ country_ <> "" /\ manager <> "" /\ representative <> "" /\ email_ <> ""
       /\ existsb (fun t => String.eqb (country t) country_) (teams db) = false
       /\ generate_squad tp c = Ret squad_ (139 + c)%nat
       /\ map natural_position (players squad_)
          = repeat GK 3 ++ repeat DF 8 ++ repeat MD 8 ++ repeat AT 4
       /\ Forall well_rated squad_
       /\ api_create_team strip clock payload db tp c
          = Ret (Registered
                   (mkTeam country_ (calculate_team_rating squad_)
                      (players squad_) (Some email_)),
                 mkStore
                   (teams db
                    ++ [mkTeam country_ (calculate_team_rating squad_)
                          (players squad_) (Some email_)])
                   (matches db) (S (clock_reads db)))
                (139 + c)%nat.
Proof.
  unfold api_create_team.
  destruct (registration_fields strip payload)
    as [e | [[[country_ manager] representative] email_]] eqn:F.
  { left. eexists. split; [reflexivity | discriminate]. }
  destruct (String.eqb country_ "") eqn:E1;
    [left; eexists; split; [reflexivity | discriminate] |].
  destruct (String.eqb manager "") eqn:E2;
    [left; eexists; split; [reflexivity | discriminate] |].
  destruct (String.eqb representative "") eqn:E3;
    [left; eexists; split; [reflexivity | discriminate] |].
  destruct (String.eqb email_ "") eqn:E4;
    [left; eexists; split; [reflexivity | discriminate] |].
  cbn [orb].
  destruct (existsb (fun t => String.eqb (country t) country_) (teams db)) eqn:X;
    [left; eexists; split; [reflexivity | discriminate] |].
  right. destruct (generate_squad_run tp c) as (squad_ & H & P & _ & _ & _ & W).
  exists country_, manager, representative, email_, squad_.
  apply String.eqb_neq in E1, E2, E3, E4. rewrite H.
  repeat (split; [assumption || reflexivity |]). reflexivity.
Qed.

(** X18. A registration returns for every request body and every draw,
    and it keeps the countries of the registered teams different from one
    another: either the teams are left as they are (fields missing or
    blank, a field that is not text, the country already registered), or
    exactly one team is stored behind them, of a country that was not
    there.  Matches are never touched. *)
Theorem registration_keeps_countries_distinct :
  forall (strip : string -> string) (clock : Clock) (payload : pyval)
         (db : Store) (tp : Tape) (c : nat),
    exists (r : Registration) (db' : Store) (c' : nat),
      api_create_team strip clock payload db tp c = Ret (r, db') c'
      /\ matches db' = matches db
      /\ ((db' = db /\ c' = c /\ forall t, r <> Registered t)
          \/ exists t, r = Registered t /\ teams db' = teams db ++ [t]
                       /\ ~ In (country t) (map country (teams db)))
      /\ (NoDup (map country (teams db)) -> NoDup (map country (teams db'))).
Proof.
  intros strip clock payload db tp c.
  destruct (api_create_team_run strip clock payload db tp c)
    as [(r & H & Hr)
       | (country_ & manager & representative & email_ & squad_
          & _ & _ & _ & _ & _ & X & _ & _ & _ & H)].
  - exists r, db, c. split; [exact H |]. split; [reflexivity |].
    split; [left; auto | auto].
  - eexists. eexists. eexists. split; [exact H |]. cbn [matches teams].
    split; [reflexivity |].
    pose proof (not_registered _ _ X) as NI.
    split.
    + right. eexists. split; [reflexivity |]. split; [reflexivity | exact NI].
    + intro N. rewrite map_app. cbn [map country]. apply NoDup_appended; assumption.
Qed.

Lemma registration_keeps_countries_distinct_witness :
  NoDup (map country (teams store_seven_teams))
  /\ exists (r : Registration) (db' : Store) (c' : nat),
       api_create_team (fun s => s) sample_clock
         (PDict [("country", PStr "Gabon"); ("manager", PStr "A. Coach");
                 ("representative", PStr "B. Delegate");
                 ("email", PStr "gabon@example.org")])
         store_seven_teams (tape_of []) 0%nat = Ret (r, db') c'
       /\ NoDup (map country (teams db')).
Proof.
  assert (N : NoDup (map country (teams store_seven_teams)))
    by (repeat constructor; cbn; intuition discriminate).
  split; [exact N |].
  destruct (registration_keeps_countries_distinct (fun s => s) sample_clock
              (PDict [("country", PStr "Gabon"); ("manager", PStr "A. Coach");
                      ("representative", PStr "B. Delegate");
                      ("email", PStr "gabon@example.org")])
              store_seven_teams (tape_of []) 0%nat)
    as (r & db' & c' & H & _ & _ & K).
  exists r, db', c'. split; [exact H | exact (K N)].
Defined.

(** X19. A team that has been registered is stored last, with the fields
    of the request stripped and none of them empty, a generated squad of
    23 that can play, and a rating between 70 and 95; its country was not
    registered before, and afterwards [_get_team_by_country] finds this
    very team under it.  The registration has read the clock once and 139
    draws. *)
Theorem registered_team_is_found :
  forall (strip : string -> string) (clock : Clock) (payload : pyval)
         (db db' : Store) (tp : Tape) (c c' : nat) (t : Team),
    api_create_team strip clock payload db tp c = Ret (Registered t, db') c' ->
    (exists manager representative email_,
       registration_fields strip payload
       = inr (country t, manager, representative, email_)
       /\ email t = Some email_ /\ email_ <> "")
    /\ country t <> ""
    /\ get_team_by_country db (Some (country t)) = None
    /\ get_team_by_country db' (Some (country t)) = Some t
    /\ teams db' = teams db ++ [t]
    /\ clock_reads db' = S (clock_reads db) /\ c' = (139 + c)%nat
    /\ List.length (squad t) = 23%nat /\ fielded t = true
    /\ (70 <= rating t)%Q /\ (rating t <= 95)%Q.
Proof.
  intros strip clock payload db db' tp c c' t H.
  destruct (api_create_team_run strip clock payload db tp c)
    as [(r & H' & Hr)
       | (country_ & manager & representative & email_ & squad_
          & F & N1 & _ & _ & N4 & X & G & P & W & H')].
  { rewrite H' in H. injection H as -> _ _. exfalso. exact (Hr t eq_refl). }
  rewrite H' in H. injection H as <- <- <-. cbn [country email teams clock_reads
                                                  squad rating].
  destruct (find_appended country_ (teams db)
              (mkTeam country_ (calculate_team_rating squad_) (players squad_)
                 (Some email_)) X eq_refl) as [Fnew Fold].
  split; [exists manager, representative, email_; auto |].
  split; [exact N1 |].
  assert (L : List.length (players squad_) = 23%nat).
  { apply (f_equal (@List.length Position)) in P. rewrite length_map in P.
    exact P. }
  assert (R : (70 <= calculate_team_rating squad_)%Q
              /\ (calculate_team_rating squad_ <= 95)%Q).
  { apply (team_rating_between squad_ 70 95).
    - intro E. rewrite E in L. discriminate L.
    - eapply Forall_impl; [| exact W]. intros p Hp. unfold own_rating.
      specialize (Hp (natural_position (sp_player p))).
      destruct (natural_position (sp_player p)); exact Hp. }
  unfold get_team_by_country. destruct country_ as [| ch s]; [congruence |].
  split; [exact Fold |]. split; [exact Fnew |].
  split; [reflexivity |]. split; [reflexivity |]. split; [reflexivity |].
  split; [exact L |].
  split; [apply squad_positions_fielded; exact P |].
  exact R.
Qed.

Lemma registered_team_is_found_witness :
  exists (t : Team) (db' : Store),
    api_create_team (fun s => s) sample_clock
      (PDict [("country", PStr "Gabon"); ("manager", PStr "A. Coach");
              ("representative", PStr "B. Delegate");
              ("email", PStr "gabon@example.org")])
      store_seven_teams (tape_of []) 0%nat = Ret (Registered t, db') 139%nat
    /\ country t = "Gabon"
    /\ get_team_by_country db' (Some "Gabon") = Some t.
Proof.
  assert (H : exists x,
             api_create_team (fun s => s) sample_clock
               (PDict [("country", PStr "Gabon"); ("manager", PStr "A. Coach");
                       ("representative", PStr "B. Delegate");
                       ("email", PStr "gabon@example.org")])
               store_seven_teams (tape_of []) 0%nat
             = Ret (Registered (fst x), snd x) 139%nat
             /\ country (fst x) = "Gabon").
  { exists (mkTeam "Gabon"
              (calculate_team_rating
                 match generate_squad (tape_of []) 0%nat with
                 | Ret s _ => s
                 | _ => []
                 end)
              (players
                 match generate_squad (tape_of []) 0%nat with
                 | Ret s _ => s
                 | _ => []
                 end)
              (Some "gabon@example.org"),
            snd (match api_create_team (fun s => s) sample_clock
                         (PDict [("country", PStr "Gabon");
                                 ("manager", PStr "A. Coach");
                                 ("representative", PStr "B. Delegate");
                                 ("email", PStr "gabon@example.org")])
                         store_seven_teams (tape_of []) 0%nat with
                 | Ret x _ => x
                 | _ => (MissingFields, store_seven_teams)
                 end)).
    split; [vm_compute; reflexivity | reflexivity]. }
  destruct H as ([t db'] & H & C). cbn [fst snd] in H, C.
  exists t, db'. split; [exact H |]. split; [exact C |].
  destruct (registered_team_is_found _ _ _ _ _ _ _ _ _ H)
    as (_ & _ & _ & G & _).
  rewrite C in G. exact G.
Defined.
